(** * VideoSLIC: a shallow embedding of SLIC.cpp

    The clustering engine of [SLIC.cpp] (seeding, the assign/update loop,
    orphan recovery, connectivity enforcement and the copy constructor) is
    translated function by function.  Member vectors are lists, indexed
    through [vget]/[vset]; 32-bit integers are [Z] with the wrap-around
    written where the source can reach it; the element type of the
    floating-point vectors is declared in [SLIC.h], which is not part of
    the sources, so it is the parameter [R] of the development, and the
    instance [double] (IEEE binary64, Rocq's primitive floats) is used to
    run the model on concrete frames. *)

From Stdlib Require Import ZArith List Lia Bool Floats Permutation String.
From stdpp Require Import base list sets.
Import ListNotations.
Open Scope Z_scope.

(** ** Machine integers *)

(** Conversion to [unsigned] (32 bits). *)
Definition wrapU32 (z : Z) : Z := z mod 2 ^ 32.

(** Conversion to [int] (32 bits, two's complement). *)
Definition wrapS32 (z : Z) : Z := (z + 2 ^ 31) mod 2 ^ 32 - 2 ^ 31.

Definition UINT_MAX : Z := 2 ^ 32 - 1.

(** ** Loops *)

(** [for (int i = start; cond(i); i += step)]: the successive values of
    [i] for which the body runs.  [fuel] bounds the number of rounds; each
    use below gives a bound that the source loop cannot exceed. *)
Fixpoint forLoop (fuel : nat) (i : Z) (cond : Z -> bool) (step : Z) : list Z :=
  match fuel with
  | O => []
  | S fuel' => if cond i then i :: forLoop fuel' (i + step) cond step else []
  end.

(** [for (unsigned n = 0; n < count; ++n)]. *)
Definition upTo (count : Z) : list Z :=
  forLoop (Z.to_nat count) 0 (fun n => n <? count) 1.

(** ** std::vector

    [operator[]] does no bounds check: an index outside the vector is
    undefined behaviour in C++.  In [vget]/[vset] such a read yields the
    default [d] and such a write is dropped; [vread]/[vwrite] are the
    checked accesses, used where a claim is about the bounds themselves. *)
Definition vget {A} (d : A) (v : list A) (i : Z) : A :=
  if i <? 0 then d else nth (Z.to_nat i) v d.

Definition vset {A} (v : list A) (i : Z) (a : A) : list A :=
  if i <? 0 then v else <[Z.to_nat i := a]> v.

(** [v.assign(n, a)]. *)
Definition assign {A} (n : Z) (a : A) : list A := replicate (Z.to_nat n) a.

(** [v.push_back(a)]. *)
Definition push_back {A} (v : list A) (a : A) : list A := v ++ [a].

(** [v.resize(n)] with value-initialised new elements [d]. *)
Definition resize_vec {A} (d : A) (n : Z) (v : list A) : list A :=
  take (Z.to_nat n) v ++ replicate (Z.to_nat n - length v)%nat d.

Inductive access A :=
| Done (a : A)
| OutOfBounds (vector : string) (index : Z).
Arguments Done {A} a.
Arguments OutOfBounds {A} vector index.

Definition bindA {A B} (m : access A) (k : A -> access B) : access B :=
  match m with
  | Done a => k a
  | OutOfBounds v i => OutOfBounds v i
  end.

Definition vread {A} (name : string) (v : list A) (i : Z) : access A :=
  if i <? 0 then OutOfBounds name i
  else match v !! Z.to_nat i with
       | Some a => Done a
       | None => OutOfBounds name i
       end.

Definition vwrite {A} (name : string) (v : list A) (i : Z) (a : A) : access (list A) :=
  if (0 <=? i) && (i <? Z.of_nat (length v)) then Done (<[Z.to_nat i := a]> v)
  else OutOfBounds name i.

(** ** Images (cv::Mat of Vec3b) *)

Definition Vec3b : Type := Z * Z * Z.
Definition val0 (c : Vec3b) : Z := c.1.1.
Definition val1 (c : Vec3b) : Z := c.1.2.
Definition val2 (c : Vec3b) : Z := c.2.

(** A point [(x, y)]. *)
Definition Point : Type := Z * Z.

Record Mat := { rows : Z; cols : Z; pix : list Vec3b }.

(** [image.at<Vec3b>(y, x)] on a continuous matrix: row-major addressing,
    unchecked in release builds. *)
Definition at_ (image : Mat) (y x : Z) : Vec3b :=
  vget (0, 0, 0) (pix image) (y * cols image + x).

(** The channels of every stored pixel are bytes. *)
Definition isByte (z : Z) : bool := (0 <=? z) && (z <? 256).

Definition byteImage (image : Mat) : bool :=
  forallb (fun c => isByte (val0 c) && isByte (val1 c) && isByte (val2 c)) (pix image).

(** ** Enumerations of SLIC.h *)

(** Modelled from the spec: the enumerators of [VideoElaborationMode],
    declared in SLIC.h; the spec lists the recognised video modes. *)
Inductive VideoElaborationMode :=
| INDEPENDENT | CONNECTED | NOISE | KEY_FRAMES | KEY_FRAMES_NOISE
| ADD_SUPERPIXELS | ADD_SUPERPIXELS_NOISE.

(** Modelled from the spec: the enumerators of [SLICElaborationMode],
    declared in SLIC.h; the spec lists the two termination policies. *)
Inductive SLICElaborationMode := ERROR_THRESHOLD | FIXED_ITERATIONS.

Definition isKeyFramesMode (m : VideoElaborationMode) : bool :=
  match m with KEY_FRAMES | KEY_FRAMES_NOISE => true | _ => false end.

Definition isAddSuperpixelsMode (m : VideoElaborationMode) : bool :=
  match m with ADD_SUPERPIXELS | ADD_SUPERPIXELS_NOISE => true | _ => false end.

Definition isNoiseMode (m : VideoElaborationMode) : bool :=
  match m with NOISE | KEY_FRAMES_NOISE | ADD_SUPERPIXELS_NOISE => true | _ => false end.

Definition isErrorThreshold (m : SLICElaborationMode) : bool :=
  match m with ERROR_THRESHOLD => true | FIXED_ITERATIONS => false end.

Definition isFixedIterations (m : SLICElaborationMode) : bool :=
  match m with FIXED_ITERATIONS => true | ERROR_THRESHOLD => false end.

(** ** The floating-point type of SLIC.h

    What the source does with the elements of [clusterCentres],
    [distanceFromClusterCentre], [residualError] and the scalar fields:
    conversions from and to integers, the four operations, [sqrt], the
    comparisons and the literals [0], [0.5] and [DBL_MAX]. *)
Class Scalar (R : Type) := {
  of_Z : Z -> R;            (* int / unsigned / uchar to floating point *)
  trunc : R -> Z;           (* floating point to integer, toward zero *)
  to_float : R -> R;        (* static_cast<float> *)
  radd : R -> R -> R;
  rsub : R -> R -> R;
  rmul : R -> R -> R;
  rdiv : R -> R -> R;
  rsqrt : R -> R;
  rltb : R -> R -> bool;    (* a < b *)
  reqb : R -> R -> bool;    (* a == b *)
  rhalf : R;                (* 0.5 *)
  DBL_MAX : R
}.

Declare Scope scalar_scope.
Delimit Scope scalar_scope with R.
Infix "+." := radd (at level 50, left associativity) : scalar_scope.
Infix "-." := rsub (at level 50, left associativity) : scalar_scope.
Infix "*." := rmul (at level 40, left associativity) : scalar_scope.
Infix "/." := rdiv (at level 40, left associativity) : scalar_scope.
Infix "<." := rltb (at level 70, no associativity) : scalar_scope.
Infix "==." := reqb (at level 70, no associativity) : scalar_scope.
Open Scope scalar_scope.

(** The comparison is a strict order: what the order-sensitive results
    below assume of [<]; it holds of IEEE comparison ([double_order]). *)
Class ScalarOrder (R : Type) `{Scalar R} : Prop := {
  rltb_asym : forall a b : R, (a <. b) = true -> (b <. a) = false;
  rltb_trans : forall a b c : R, (a <. b) = true -> (b <. c) = true -> (a <. c) = true
}.

(** ** The SLIC object

    The members of class [SLIC] that the engine reads or writes.  The
    debug statistics (average, minimum and maximum error, iterations and
    execution time) only feed [drawInformation] and are left out. *)
Section Model.
Context {R : Type} `{Scalar R}.

Record SLIC := mkSLIC {
  iterationIndex : Z;
  pixelsNumber : Z;
  clustersNumber : Z;
  samplingStep : Z;
  spatialDistanceWeight : Z;
  distanceFactor : R;
  totalResidualError : R;
  errorThreshold : R;
  framesNumber : Z;
  pixelCluster : list Z;
  distanceFromClusterCentre : list R;
  clusterCentres : list R;
  previousClusterCentres : list R;
  pixelsOfSameCluster : list Z;
  residualError : list R;
  pixelReachedByClusters : list Z
}.

Definition set_iterationIndex (v : Z) (s : SLIC) : SLIC :=
  {| iterationIndex := v; pixelsNumber := pixelsNumber s;
     clustersNumber := clustersNumber s; samplingStep := samplingStep s;
     spatialDistanceWeight := spatialDistanceWeight s;
     distanceFactor := distanceFactor s;
     totalResidualError := totalResidualError s;
     errorThreshold := errorThreshold s; framesNumber := framesNumber s;
     pixelCluster := pixelCluster s;
     distanceFromClusterCentre := distanceFromClusterCentre s;
     clusterCentres := clusterCentres s;
     previousClusterCentres := previousClusterCentres s;
     pixelsOfSameCluster := pixelsOfSameCluster s;
     residualError := residualError s;
     pixelReachedByClusters := pixelReachedByClusters s |}.

Definition set_clustersNumber (v : Z) (s : SLIC) : SLIC :=
  {| iterationIndex := iterationIndex s; pixelsNumber := pixelsNumber s;
     clustersNumber := v; samplingStep := samplingStep s;
     spatialDistanceWeight := spatialDistanceWeight s;
     distanceFactor := distanceFactor s;
     totalResidualError := totalResidualError s;
     errorThreshold := errorThreshold s; framesNumber := framesNumber s;
     pixelCluster := pixelCluster s;
     distanceFromClusterCentre := distanceFromClusterCentre s;
     clusterCentres := clusterCentres s;
     previousClusterCentres := previousClusterCentres s;
     pixelsOfSameCluster := pixelsOfSameCluster s;
     residualError := residualError s;
     pixelReachedByClusters := pixelReachedByClusters s |}.

Definition set_totalResidualError (v : R) (s : SLIC) : SLIC :=
  {| iterationIndex := iterationIndex s; pixelsNumber := pixelsNumber s;
     clustersNumber := clustersNumber s; samplingStep := samplingStep s;
     spatialDistanceWeight := spatialDistanceWeight s;
     distanceFactor := distanceFactor s; totalResidualError := v;
     errorThreshold := errorThreshold s; framesNumber := framesNumber s;
     pixelCluster := pixelCluster s;
     distanceFromClusterCentre := distanceFromClusterCentre s;
     clusterCentres := clusterCentres s;
     previousClusterCentres := previousClusterCentres s;
     pixelsOfSameCluster := pixelsOfSameCluster s;
     residualError := residualError s;
     pixelReachedByClusters := pixelReachedByClusters s |}.

Definition set_framesNumber (v : Z) (s : SLIC) : SLIC :=
  {| iterationIndex := iterationIndex s; pixelsNumber := pixelsNumber s;
     clustersNumber := clustersNumber s; samplingStep := samplingStep s;
     spatialDistanceWeight := spatialDistanceWeight s;
     distanceFactor := distanceFactor s;
     totalResidualError := totalResidualError s;
     errorThreshold := errorThreshold s; framesNumber := v;
     pixelCluster := pixelCluster s;
     distanceFromClusterCentre := distanceFromClusterCentre s;
     clusterCentres := clusterCentres s;
     previousClusterCentres := previousClusterCentres s;
     pixelsOfSameCluster := pixelsOfSameCluster s;
     residualError := residualError s;
     pixelReachedByClusters := pixelReachedByClusters s |}.

Definition set_pixelCluster (v : list Z) (s : SLIC) : SLIC :=
  {| iterationIndex := iterationIndex s; pixelsNumber := pixelsNumber s;
     clustersNumber := clustersNumber s; samplingStep := samplingStep s;
     spatialDistanceWeight := spatialDistanceWeight s;
     distanceFactor := distanceFactor s;
     totalResidualError := totalResidualError s;
     errorThreshold := errorThreshold s; framesNumber := framesNumber s;
     pixelCluster := v;
     distanceFromClusterCentre := distanceFromClusterCentre s;
     clusterCentres := clusterCentres s;
     previousClusterCentres := previousClusterCentres s;
     pixelsOfSameCluster := pixelsOfSameCluster s;
     residualError := residualError s;
     pixelReachedByClusters := pixelReachedByClusters s |}.

Definition set_distanceFromClusterCentre (v : list R) (s : SLIC) : SLIC :=
  {| iterationIndex := iterationIndex s; pixelsNumber := pixelsNumber s;
     clustersNumber := clustersNumber s; samplingStep := samplingStep s;
     spatialDistanceWeight := spatialDistanceWeight s;
     distanceFactor := distanceFactor s;
     totalResidualError := totalResidualError s;
     errorThreshold := errorThreshold s; framesNumber := framesNumber s;
     pixelCluster := pixelCluster s; distanceFromClusterCentre := v;
     clusterCentres := clusterCentres s;
     previousClusterCentres := previousClusterCentres s;
     pixelsOfSameCluster := pixelsOfSameCluster s;
     residualError := residualError s;
     pixelReachedByClusters := pixelReachedByClusters s |}.

Definition set_clusterCentres (v : list R) (s : SLIC) : SLIC :=
  {| iterationIndex := iterationIndex s; pixelsNumber := pixelsNumber s;
     clustersNumber := clustersNumber s; samplingStep := samplingStep s;
     spatialDistanceWeight := spatialDistanceWeight s;
     distanceFactor := distanceFactor s;
     totalResidualError := totalResidualError s;
     errorThreshold := errorThreshold s; framesNumber := framesNumber s;
     pixelCluster := pixelCluster s;
     distanceFromClusterCentre := distanceFromClusterCentre s;
     clusterCentres := v; previousClusterCentres := previousClusterCentres s;
     pixelsOfSameCluster := pixelsOfSameCluster s;
     residualError := residualError s;
     pixelReachedByClusters := pixelReachedByClusters s |}.

Definition set_previousClusterCentres (v : list R) (s : SLIC) : SLIC :=
  {| iterationIndex := iterationIndex s; pixelsNumber := pixelsNumber s;
     clustersNumber := clustersNumber s; samplingStep := samplingStep s;
     spatialDistanceWeight := spatialDistanceWeight s;
     distanceFactor := distanceFactor s;
     totalResidualError := totalResidualError s;
     errorThreshold := errorThreshold s; framesNumber := framesNumber s;
     pixelCluster := pixelCluster s;
     distanceFromClusterCentre := distanceFromClusterCentre s;
     clusterCentres := clusterCentres s; previousClusterCentres := v;
     pixelsOfSameCluster := pixelsOfSameCluster s;
     residualError := residualError s;
     pixelReachedByClusters := pixelReachedByClusters s |}.

Definition set_pixelsOfSameCluster (v : list Z) (s : SLIC) : SLIC :=
  {| iterationIndex := iterationIndex s; pixelsNumber := pixelsNumber s;
     clustersNumber := clustersNumber s; samplingStep := samplingStep s;
     spatialDistanceWeight := spatialDistanceWeight s;
     distanceFactor := distanceFactor s;
     totalResidualError := totalResidualError s;
     errorThreshold := errorThreshold s; framesNumber := framesNumber s;
     pixelCluster := pixelCluster s;
     distanceFromClusterCentre := distanceFromClusterCentre s;
     clusterCentres := clusterCentres s;
     previousClusterCentres := previousClusterCentres s;
     pixelsOfSameCluster := v; residualError := residualError s;
     pixelReachedByClusters := pixelReachedByClusters s |}.

Definition set_residualError (v : list R) (s : SLIC) : SLIC :=
  {| iterationIndex := iterationIndex s; pixelsNumber := pixelsNumber s;
     clustersNumber := clustersNumber s; samplingStep := samplingStep s;
     spatialDistanceWeight := spatialDistanceWeight s;
     distanceFactor := distanceFactor s;
     totalResidualError := totalResidualError s;
     errorThreshold := errorThreshold s; framesNumber := framesNumber s;
     pixelCluster := pixelCluster s;
     distanceFromClusterCentre := distanceFromClusterCentre s;
     clusterCentres := clusterCentres s;
     previousClusterCentres := previousClusterCentres s;
     pixelsOfSameCluster := pixelsOfSameCluster s; residualError := v;
     pixelReachedByClusters := pixelReachedByClusters s |}.

Definition set_pixelReachedByClusters (v : list Z) (s : SLIC) : SLIC :=
  {| iterationIndex := iterationIndex s; pixelsNumber := pixelsNumber s;
     clustersNumber := clustersNumber s; samplingStep := samplingStep s;
     spatialDistanceWeight := spatialDistanceWeight s;
     distanceFactor := distanceFactor s;
     totalResidualError := totalResidualError s;
     errorThreshold := errorThreshold s; framesNumber := framesNumber s;
     pixelCluster := pixelCluster s;
     distanceFromClusterCentre := distanceFromClusterCentre s;
     clusterCentres := clusterCentres s;
     previousClusterCentres := previousClusterCentres s;
     pixelsOfSameCluster := pixelsOfSameCluster s;
     residualError := residualError s; pixelReachedByClusters := v |}.

(** [SLIC::clearSLICData]: the scalars are zeroed and four vectors are
    cleared; [pixelCluster], [distanceFromClusterCentre] and
    [pixelReachedByClusters] are kept. *)
Definition clearSLICData (s : SLIC) : SLIC :=
  {| iterationIndex := 0; pixelsNumber := 0; clustersNumber := 0;
     samplingStep := 0; spatialDistanceWeight := 0;
     distanceFactor := of_Z 0; totalResidualError := of_Z 0;
     errorThreshold := of_Z 0; framesNumber := 0;
     pixelCluster := pixelCluster s;
     distanceFromClusterCentre := distanceFromClusterCentre s;
     clusterCentres := []; previousClusterCentres := [];
     pixelsOfSameCluster := []; residualError := [];
     pixelReachedByClusters := pixelReachedByClusters s |}.

(** [SLIC::SLIC()]. *)
Definition SLIC_new : SLIC :=
  {| iterationIndex := 0; pixelsNumber := 0; clustersNumber := 0;
     samplingStep := 0; spatialDistanceWeight := 0;
     distanceFactor := of_Z 0; totalResidualError := of_Z 0;
     errorThreshold := of_Z 0; framesNumber := 0;
     pixelCluster := []; distanceFromClusterCentre := [];
     clusterCentres := []; previousClusterCentres := [];
     pixelsOfSameCluster := []; residualError := [];
     pixelReachedByClusters := [] |}.

(** ** Seeding *)

(** The [unsigned tempGradient] of [findLowestGradient] at pixel [(x, y)]:
    squared horizontal plus squared vertical difference of channel 0. *)
Definition gradient (image : Mat) (x y : Z) : Z :=
  wrapU32
    ((val0 (at_ image y (x + 1)) - val0 (at_ image y (x - 1))) *
     (val0 (at_ image y (x + 1)) - val0 (at_ image y (x - 1))) +
     (val0 (at_ image (y - 1) x) - val0 (at_ image (y + 1) x)) *
     (val0 (at_ image (y - 1) x) - val0 (at_ image (y + 1) x))).

(** The body of the two nested loops of [findLowestGradient]; the state is
    [(lowestGradient, lowestGradientPoint)]. *)
Definition lowestStep (image : Mat) (y : Z) (acc : Z * Point) (x : Z) : Z * Point :=
  if (x <? 1) || (y <? 1) then acc
  else
    let tempGradient := gradient image x y in
    if tempGradient <? acc.1 then (tempGradient, (x, y)) else acc.

(** [for (int i = c - 1; i <= c + 1 && i < bound - 1; ++i)]. *)
Definition around (c bound : Z) : list Z :=
  forLoop 3 (c - 1) (fun i => (i <=? c + 1) && (i <? bound - 1)) 1.

(** [SLIC::findLowestGradient]. *)
Definition findLowestGradient (image : Mat) (centre : Point) : Point :=
  (fold_left
     (fun acc y => fold_left (lowestStep image y) (around centre.1 (cols image)) acc)
     (around centre.2 (rows image))
     (UINT_MAX, (centre.1, centre.2))).2.

(** [for (int i = samplingStep; i < bound; i += samplingStep)].  With
    [samplingStep >= 1] the loop makes fewer than [bound] rounds; with
    [samplingStep = 0] the source never leaves it. *)
Definition gridLine (samplingStep bound : Z) : list Z :=
  forLoop (Z.to_nat bound) samplingStep (fun i => i <? bound) samplingStep.

(** The grid points in the order of the seeding loops: [y] outside, [x]
    inside. *)
Definition gridPoints (image : Mat) (samplingStep : Z) : list Point :=
  flat_map (fun y => map (fun x => (x, y)) (gridLine samplingStep (cols image)))
           (gridLine samplingStep (rows image)).

(** The body of the seeding loops: one centre is appended to every
    per-centre vector. *)
Definition seedCentre (image : Mat) (s : SLIC) (p : Point) : SLIC :=
  let lowestGradientPixel := findLowestGradient image p in
  let tempPixelColor := at_ image lowestGradientPixel.2 lowestGradientPixel.1 in
  let centre :=
    [of_Z (val0 tempPixelColor); of_Z (val1 tempPixelColor);
     of_Z (val2 tempPixelColor);
     of_Z lowestGradientPixel.1; of_Z lowestGradientPixel.2] in
  set_residualError (push_back (residualError s) (of_Z 0))
    (set_pixelsOfSameCluster (push_back (pixelsOfSameCluster s) 0)
       (set_previousClusterCentres (previousClusterCentres s ++ centre)
          (set_clusterCentres (clusterCentres s ++ centre) s))).

(** The first branch of [initializeSLICData]: initialisation from
    scratch. *)
Definition fullReseed (image : Mat) (samplingStep spatialDistanceWeight : Z)
    (errorThreshold : R) (s : SLIC) : SLIC :=
  let s0 :=
    if (Z.of_nat (length (clusterCentres s)) =? 0)
    then set_pixelReachedByClusters []
           (set_distanceFromClusterCentre [] (set_pixelCluster [] s))
    else s in
  let s1 := clearSLICData s0 in
  let pixelsNumber := rows image * cols image in
  let s2 :=
    {| iterationIndex := iterationIndex s1;
       pixelsNumber := pixelsNumber;
       clustersNumber := clustersNumber s1;
       samplingStep := samplingStep;
       spatialDistanceWeight := spatialDistanceWeight;
       distanceFactor :=
         of_Z 1 *. of_Z spatialDistanceWeight *. of_Z spatialDistanceWeight
         /. of_Z (wrapU32 (samplingStep * samplingStep));
       totalResidualError := totalResidualError s1;
       errorThreshold := errorThreshold;
       framesNumber := framesNumber s1;
       pixelCluster := assign pixelsNumber (-1);
       distanceFromClusterCentre := assign pixelsNumber DBL_MAX;
       clusterCentres := clusterCentres s1;
       previousClusterCentres := previousClusterCentres s1;
       pixelsOfSameCluster := pixelsOfSameCluster s1;
       residualError := residualError s1;
       pixelReachedByClusters := pixelReachedByClusters s1 |} in
  let s3 := fold_left (seedCentre image) (gridPoints image samplingStep) s2 in
  set_clustersNumber (Z.of_nat (length (pixelsOfSameCluster s3))) s3.

(** The second branch: Gaussian noise on the positions.  [randomGen k] is
    the [k]-th draw of the generator ([RandNormal] is declared in SLIC.h);
    centre [n] takes draws [2n] and [2n + 1]. *)
Definition jitterCentre (randomGen : nat -> R) (cc : list R) (n : Z) : list R :=
  let cc := vset cc (5 * n + 3)
              (vget (of_Z 0) cc (5 * n + 3) +. randomGen (Z.to_nat (2 * n))) in
  vset cc (5 * n + 4)
    (vget (of_Z 0) cc (5 * n + 4) +. randomGen (Z.to_nat (2 * n + 1))).

Definition addNoise (randomGen : nat -> R) (s : SLIC) : SLIC :=
  set_clusterCentres
    (fold_left (jitterCentre randomGen) (upTo (clustersNumber s)) (clusterCentres s))
    s.

(** The test of the first [if] of [initializeSLICData].  The remainder is
    only evaluated in the key-frame modes ([keyFramesRatio = 0] is
    undefined there). *)
Definition mustReseed (videoMode : VideoElaborationMode) (keyFramesRatio : Z)
    (connectedFrames : bool) (s : SLIC) : bool :=
  negb connectedFrames
  || (Z.of_nat (length (clusterCentres s)) =? 0)
  || (isKeyFramesMode videoMode && (framesNumber s mod keyFramesRatio =? 0))
  || (isAddSuperpixelsMode videoMode && (1300 <? clustersNumber s)).

(** [SLIC::initializeSLICData]. *)
Definition initializeSLICData (image : Mat) (samplingStep spatialDistanceWeight : Z)
    (errorThreshold : R) (videoMode : VideoElaborationMode) (keyFramesRatio : Z)
    (randomGen : nat -> R) (connectedFrames : bool) (s : SLIC) : SLIC :=
  let s1 :=
    if mustReseed videoMode keyFramesRatio connectedFrames s
    then fullReseed image samplingStep spatialDistanceWeight errorThreshold s
    else if isNoiseMode videoMode then addNoise randomGen s
    else s in
  let s2 := set_totalResidualError DBL_MAX s1 in
  if isAddSuperpixelsMode videoMode
  then set_pixelReachedByClusters (assign (pixelsNumber s2) 255) s2
  else s2.

(** ** Assignment step *)

(** [SLIC::computeDistance]. *)
Definition computeDistance (s : SLIC) (centreIndex : Z) (pixelPosition : Point)
    (pixelColor : Vec3b) : R :=
  let cc := vget (of_Z 0) (clusterCentres s) in
  let colorDistance :=
    (cc (5 * centreIndex) -. of_Z (val0 pixelColor)) *.
    (cc (5 * centreIndex) -. of_Z (val0 pixelColor)) +.
    (cc (5 * centreIndex + 1) -. of_Z (val1 pixelColor)) *.
    (cc (5 * centreIndex + 1) -. of_Z (val1 pixelColor)) +.
    (cc (5 * centreIndex + 2) -. of_Z (val2 pixelColor)) *.
    (cc (5 * centreIndex + 2) -. of_Z (val2 pixelColor)) in
  let spaceDistance :=
    (cc (5 * centreIndex + 3) -. of_Z pixelPosition.1) *.
    (cc (5 * centreIndex + 3) -. of_Z pixelPosition.1) +.
    (cc (5 * centreIndex + 4) -. of_Z pixelPosition.2) *.
    (cc (5 * centreIndex + 4) -. of_Z pixelPosition.2) in
  colorDistance +. distanceFactor s *. spaceDistance.

Definition inImage (image : Mat) (p : Point) : bool :=
  (0 <=? p.1) && (p.1 <? cols image) && (0 <=? p.2) && (p.2 <? rows image).

(** The body of the window loops of [createSuperpixels] for one centre and
    one window position. *)
Definition visit (image : Mat) (videoMode : VideoElaborationMode) (centreIndex : Z)
    (s : SLIC) (p : Point) : SLIC :=
  if inImage image p then
    let pixelColor := at_ image p.2 p.1 in
    let tempDistance := computeDistance s centreIndex p pixelColor in
    let s1 :=
      if isAddSuperpixelsMode videoMode
      then set_pixelReachedByClusters
             (vset (pixelReachedByClusters s) (p.2 * cols image + p.1) 0) s
      else s in
    if tempDistance <. vget (of_Z 0) (distanceFromClusterCentre s1) (p.2 * cols image + p.1)
    then set_pixelCluster (vset (pixelCluster s1) (p.2 * cols image + p.1) centreIndex)
           (set_distanceFromClusterCentre
              (vset (distanceFromClusterCentre s1) (p.2 * cols image + p.1) tempDistance) s1)
    else s1
  else s.

(** [for (int i = static_cast<int>(c) - samplingStep - 1;
         i < c + samplingStep + 1; ++i)] for a centre coordinate [c].  The
    subtraction is done in [unsigned] and converted back to [int].  For a
    coordinate within the range of [int] the loop makes at most
    [2 * samplingStep + 3] rounds. *)
Definition span (samplingStep : Z) (c : R) : list Z :=
  forLoop (Z.to_nat (2 * samplingStep + 3))
    (wrapS32 (wrapS32 (trunc c) - samplingStep - 1))
    (fun i => of_Z i <. c +. of_Z samplingStep +. of_Z 1) 1.

(** The window positions of one centre, in scan order. *)
Definition window (samplingStep : Z) (s : SLIC) (centreIndex : Z) : list Point :=
  flat_map
    (fun y =>
       map (fun x => (x, y))
         (span samplingStep (vget (of_Z 0) (clusterCentres s) (5 * centreIndex + 3))))
    (span samplingStep (vget (of_Z 0) (clusterCentres s) (5 * centreIndex + 4))).

(** The work of one index of the first [tbb::parallel_for]. *)
Definition scanCentre (image : Mat) (samplingStep : Z) (videoMode : VideoElaborationMode)
    (s : SLIC) (centreIndex : Z) : SLIC :=
  fold_left (visit image videoMode centreIndex) (window samplingStep s centreIndex) s.

(** The first [tbb::parallel_for] with its indices run one after the
    other in the order [order]: TBB fixes no order, and the body writes
    the shared per-pixel vectors without synchronisation. *)
Definition assignmentStep (image : Mat) (samplingStep : Z)
    (videoMode : VideoElaborationMode) (order : list Z) (s : SLIC) : SLIC :=
  fold_left (scanCentre image samplingStep videoMode) order
    (set_distanceFromClusterCentre (assign (pixelsNumber s) DBL_MAX) s).

(** ** Update step *)

(** [for (int y = 0; y < image.rows; ++y) for (int x = 0; x < image.cols; ++x)]. *)
Definition allPixels (image : Mat) : list Point :=
  flat_map (fun y => map (fun x => (x, y)) (upTo (cols image))) (upTo (rows image)).

(** The body of "compute the new cluster centres"; the state is
    [(clusterCentres, pixelsOfSameCluster)]. *)
Definition accumulate (image : Mat) (pixelCluster : list Z)
    (acc : list R * list Z) (p : Point) : list R * list Z :=
  let currentPixelCluster := vget 0 pixelCluster (p.2 * cols image + p.1) in
  if currentPixelCluster =? -1 then acc
  else
    let pixelColor := at_ image p.2 p.1 in
    let add cc k v := vset cc (5 * currentPixelCluster + k)
                        (vget (of_Z 0) cc (5 * currentPixelCluster + k) +. of_Z v) in
    (add (add (add (add (add acc.1 0 (val0 pixelColor)) 1 (val1 pixelColor))
                 2 (val2 pixelColor)) 3 p.1) 4 p.2,
     vset acc.2 currentPixelCluster (vget 0 acc.2 currentPixelCluster + 1)).

(** The body of "normalize the clusters' centres" for one centre. *)
Definition normalizeCentre (pixelsOfSameCluster : list Z) (cc : list R)
    (centreIndex : Z) : list R :=
  let n := vget 0 pixelsOfSameCluster centreIndex in
  if negb (n =? 0) then
    let div cc k := vset cc (5 * centreIndex + k)
                      (vget (of_Z 0) cc (5 * centreIndex + k) /. of_Z n) in
    div (div (div (div (div cc 0) 1) 2) 3) 4
  else cc.

(** The same body with the division made partial: [None] when the
    divisor is zero. *)
Definition divideBy (a : R) (n : Z) : option R :=
  if n =? 0 then None else Some (a /. of_Z n).

Definition normalizeCentreChecked (pixelsOfSameCluster : list Z)
    (cc : option (list R)) (centreIndex : Z) : option (list R) :=
  let n := vget 0 pixelsOfSameCluster centreIndex in
  if negb (n =? 0) then
    let div (cc : option (list R)) k :=
      cc ← cc;
      q ← divideBy (vget (of_Z 0) cc (5 * centreIndex + k)) n;
      Some (vset cc (5 * centreIndex + k) q) in
    div (div (div (div (div cc 0) 1) 2) 3) 4
  else cc.

(** The normalisation pass: the second [tbb::parallel_for] of
    [createSuperpixels] and the last one of [enforceConnectivity] (the
    same text).  Each index only touches its own five slots. *)
Definition normalizeCentres (s : SLIC) : SLIC :=
  set_clusterCentres
    (fold_left (normalizeCentre (pixelsOfSameCluster s))
       (upTo (clustersNumber s)) (clusterCentres s)) s.

Definition normalizeCentresChecked (s : SLIC) : option SLIC :=
  cc ← fold_left (normalizeCentreChecked (pixelsOfSameCluster s))
         (upTo (clustersNumber s)) (Some (clusterCentres s));
  Some (set_clusterCentres cc s).

(** Accumulation over the whole image. *)
Definition accumulateCentres (image : Mat) (s : SLIC) : SLIC :=
  let acc := fold_left (accumulate image (pixelCluster s)) (allPixels image)
               (clusterCentres s, pixelsOfSameCluster s) in
  set_pixelsOfSameCluster acc.2 (set_clusterCentres acc.1 s).

(** Reset by [assign], accumulate, normalise ([createSuperpixels]). *)
Definition recomputeCentres (image : Mat) (s : SLIC) : SLIC :=
  normalizeCentres
    (accumulateCentres image
       (set_pixelsOfSameCluster (assign (clustersNumber s) 0)
          (set_clusterCentres (assign (clustersNumber s * 5) (of_Z 0)) s))).

(** The residual of one centre and the update of its previous centre. *)
Definition residualOf (s : SLIC) (centreIndex : Z) : SLIC :=
  let cc := vget (of_Z 0) (clusterCentres s) in
  let pc := vget (of_Z 0) (previousClusterCentres s) in
  let r :=
    rsqrt
      ((cc (5 * centreIndex + 4) -. pc (5 * centreIndex + 4)) *.
       (cc (5 * centreIndex + 4) -. pc (5 * centreIndex + 4)) +.
       (cc (5 * centreIndex + 3) -. pc (5 * centreIndex + 3)) *.
       (cc (5 * centreIndex + 3) -. pc (5 * centreIndex + 3))) in
  let copy prev k := vset prev (5 * centreIndex + k) (cc (5 * centreIndex + k)) in
  set_previousClusterCentres
    (copy (copy (copy (copy (copy (previousClusterCentres s) 0) 1) 2) 3) 4)
    (set_residualError (vset (residualError s) centreIndex r) s).

(** "Skip error calculation if this is the first iteration" and its
    [else] branch. *)
Definition updateError (s : SLIC) : SLIC :=
  if iterationIndex s =? 0 then
    set_previousClusterCentres
      (fold_left (fun prev centreIndex =>
                    vset prev centreIndex (vget (of_Z 0) (clusterCentres s) centreIndex))
         (upTo (5 * clustersNumber s)) (previousClusterCentres s)) s
  else
    let s1 := fold_left residualOf (upTo (clustersNumber s)) s in
    let total :=
      fold_left (fun t centreIndex => t +. vget (of_Z 0) (residualError s1) centreIndex)
        (upTo (clustersNumber s1)) (of_Z 0) in
    set_totalResidualError (total /. of_Z (clustersNumber s1)) s1.

(** The update step of one iteration. *)
Definition updateStep (image : Mat) (s : SLIC) : SLIC :=
  updateError (recomputeCentres image s).

(** ** Orphan recovery and the loop of createSuperpixels *)

(** [cv::Moments], the three fields the source reads. *)
Record Moments := { m00 : R; m10 : R; m01 : R }.

(** The test that guards the blob detector. *)
Definition orphanCondition (iterationNumber : Z) (errorThreshold : R)
    (SLICMode : SLICElaborationMode) (videoMode : VideoElaborationMode)
    (s : SLIC) : bool :=
  isAddSuperpixelsMode videoMode
  && (((totalResidualError s <. errorThreshold) && isErrorThreshold SLICMode)
      || ((wrapU32 (iterationNumber - 1) <=? iterationIndex s)
          && isFixedIterations SLICMode))
  && existsb (fun u => u =? 255) (pixelReachedByClusters s).

(** The body of the loop over the contours. *)
Definition spawnCentre (s : SLIC) (mu : Moments) : SLIC :=
  if m00 mu ==. of_Z 0 then s
  else
    let centre :=
      [of_Z 0; of_Z 0; of_Z 0;
       to_float (m10 mu /. m00 mu); to_float (m01 mu /. m00 mu)] in
    set_clustersNumber (clustersNumber s + 1)
      (set_residualError (push_back (residualError s) (of_Z 0))
         (set_pixelsOfSameCluster (push_back (pixelsOfSameCluster s) 0)
            (set_previousClusterCentres (previousClusterCentres s ++ centre)
               (set_clusterCentres (clusterCentres s ++ centre) s)))).

(** The blob detector.  [blobMoments rows cols mask] stands for OpenCV's
    [dilate], [rectangle], [Canny], [findContours] and [moments] applied
    to the reached mask: the moments of the contours found, in order. *)
Definition orphanRecovery (blobMoments : Z -> Z -> list Z -> list Moments)
    (image : Mat) (s : SLIC) : SLIC :=
  fold_left spawnCentre
    (blobMoments (rows image) (cols image) (pixelReachedByClusters s)) s.

(** One round of the [do ... while] body; [sched] is the order in which
    the indices of the first [parallel_for] are run. *)
Definition iteration (blobMoments : Z -> Z -> list Z -> list Moments)
    (sched : list Z -> list Z) (image : Mat) (samplingStep iterationNumber : Z)
    (errorThreshold : R) (SLICMode : SLICElaborationMode)
    (videoMode : VideoElaborationMode) (s : SLIC) (go : bool) : SLIC * bool :=
  let s1 := assignmentStep image samplingStep videoMode
              (sched (upTo (clustersNumber s))) s in
  let s2 := updateStep image s1 in
  let s3 :=
    if orphanCondition iterationNumber errorThreshold SLICMode videoMode s2
    then (orphanRecovery blobMoments image s2, go)
    else (s2, true) in
  (set_iterationIndex (wrapU32 (iterationIndex s3.1 + 1)) s3.1, s3.2).

(** The part of a round after the update step: the blob detector, the
    flag and the counter.  [iteration] is [roundTail] applied to the state
    the update step leaves. *)
Definition roundTail (blobMoments : Z -> Z -> list Z -> list Moments)
    (image : Mat) (iterationNumber : Z) (errorThreshold : R)
    (SLICMode : SLICElaborationMode) (videoMode : VideoElaborationMode)
    (s2 : SLIC) (go : bool) : SLIC * bool :=
  let s3 :=
    if orphanCondition iterationNumber errorThreshold SLICMode videoMode s2
    then (orphanRecovery blobMoments image s2, go)
    else (s2, true) in
  (set_iterationIndex (wrapU32 (iterationIndex s3.1 + 1)) s3.1, s3.2).

(** The condition of the [while], without [go]. *)
Definition continueLoop (iterationNumber : Z) (errorThreshold : R)
    (SLICMode : SLICElaborationMode) (s : SLIC) : bool :=
  ((errorThreshold <. totalResidualError s) && isErrorThreshold SLICMode)
  || ((iterationIndex s <? iterationNumber) && isFixedIterations SLICMode).

(** The [do ... while] loop; [None] when [fuel] rounds do not end it. *)
Fixpoint doWhile (fuel : nat) (blobMoments : Z -> Z -> list Z -> list Moments)
    (sched : list Z -> list Z) (image : Mat) (samplingStep iterationNumber : Z)
    (errorThreshold : R) (SLICMode : SLICElaborationMode)
    (videoMode : VideoElaborationMode) (s : SLIC) (go : bool) : option SLIC :=
  match fuel with
  | O => None
  | S fuel' =>
    let r := iteration blobMoments sched image samplingStep iterationNumber
               errorThreshold SLICMode videoMode s go in
    if continueLoop iterationNumber errorThreshold SLICMode r.1 && r.2
    then doWhile fuel' blobMoments sched image samplingStep iterationNumber
           errorThreshold SLICMode videoMode r.1 r.2
    else Some r.1
  end.

(** [SLIC::createSuperpixels]. *)
Definition createSuperpixels (fuel : nat)
    (blobMoments : Z -> Z -> list Z -> list Moments) (sched : list Z -> list Z)
    (image : Mat) (samplingStep spatialDistanceWeight iterationNumber : Z)
    (errorThreshold : R) (SLICMode : SLICElaborationMode)
    (videoMode : VideoElaborationMode) (keyFramesRatio : Z)
    (randomGen : nat -> R) (connectedFrames : bool) (s : SLIC) : option SLIC :=
  let s0 :=
    initializeSLICData image samplingStep spatialDistanceWeight errorThreshold
      videoMode keyFramesRatio randomGen connectedFrames s in
  s1 ← doWhile fuel blobMoments sched image samplingStep iterationNumber
         errorThreshold SLICMode videoMode (set_iterationIndex 0 s0) false;
  Some (set_framesNumber (framesNumber s1 + 1) s1).

(** ** Connectivity enforcement *)

(** [for (int t = c - 1; t <= c + 1; ++t)]. *)
Definition three (c : Z) : list Z := [c - 1; c; c + 1].

(** "Find an adjacent cluster for possible later use": in each row of
    the 3x3 block the scan stops at the first labelled pixel ([break]
    leaves the inner loop only), so the last row with one decides. *)
Definition findAdjacent (image : Mat) (newPixelCluster : list Z) (p : Point)
    (adjacentCluster : Z) : Z :=
  fold_left
    (fun adjacent tempY =>
       match
         find (fun tempX =>
                 inImage image (tempX, tempY)
                 && negb (vget 0 newPixelCluster (tempY * cols image + tempX) =? -1))
              (three p.1)
       with
       | Some tempX => vget 0 newPixelCluster (tempY * cols image + tempX)
       | None => adjacent
       end)
    (three p.2) adjacentCluster.

(** The 3x3 block around a pixel, rows first. *)
Definition block (p : Point) : list Point :=
  flat_map (fun tempY => map (fun tempX => (tempX, tempY)) (three p.1)) (three p.2).

(** The body of the growing loops; the state is
    [(pixelSegment, newPixelCluster)] and [label] is
    [pixelCluster[y * image.cols + x]] of the starting pixel. *)
Definition growStep (image : Mat) (pixelCluster : list Z) (label : Z)
    (st : list Point * list Z) (q : Point) : list Point * list Z :=
  if inImage image q
     && (vget 0 st.2 (q.2 * cols image + q.1) =? -1)
     && (vget 0 pixelCluster (q.2 * cols image + q.1) =? label)
  then (push_back st.1 q, vset st.2 (q.2 * cols image + q.1) label)
  else st.

(** [for (unsigned c = 0; c < count; ++c)] where [count] is the size of
    the growing segment; [None] when [fuel] rounds do not end it. *)
Fixpoint growSegment (fuel : nat) (image : Mat) (pixelCluster : list Z) (label : Z)
    (c : nat) (st : list Point * list Z) : option (list Point * list Z) :=
  match fuel with
  | O => None
  | S fuel' =>
    match st.1 !! c with
    | None => Some st
    | Some p =>
      growSegment fuel' image pixelCluster label (S c)
        (fold_left (growStep image pixelCluster label) (block p) st)
    end
  end.

(** "Enforce connectivity for the segments smaller than 1/4 of the
    average cluster size": the relabelling loop. *)
Definition relabel (image : Mat) (newPixelCluster : list Z)
    (pixelSegment : list Point) (adjacentCluster : Z) : list Z :=
  fold_left (fun new q => vset new (q.2 * cols image + q.1) adjacentCluster)
    pixelSegment newPixelCluster.

(** The body of the scan over the image; the state is
    [(newPixelCluster, adjacentCluster)]. *)
Definition connectPixel (fuel : nat) (image : Mat) (pixelCluster : list Z)
    (clustersAverageSize : Z) (st : option (list Z * Z)) (p : Point)
    : option (list Z * Z) :=
  st ← st;
  if vget 0 st.1 (p.2 * cols image + p.1) =? -1 then
    let label := vget 0 pixelCluster (p.2 * cols image + p.1) in
    let new1 := vset st.1 (p.2 * cols image + p.1) label in
    let adjacentCluster := findAdjacent image new1 p st.2 in
    grown ← growSegment fuel image pixelCluster label 0 ([p], new1);
    let count := Z.of_nat (length grown.1) in
    if count <=? clustersAverageSize / 4
    then Some (relabel image grown.2 grown.1 adjacentCluster, adjacentCluster)
    else Some (grown.2, adjacentCluster)
  else Some st.

(** [static_cast<unsigned>(pixelsNumber / clustersNumber + 0.5)]: the
    quotient is the quotient of two [unsigned]. *)
Definition clustersAverageSize (s : SLIC) : Z :=
  wrapU32 (trunc (of_Z (pixelsNumber s / clustersNumber s) +. rhalf)).

(** The relabelling pass of [enforceConnectivity]: the new assignment. *)
Definition relabelPass (fuel : nat) (image : Mat) (s : SLIC) : option (list Z) :=
  st ← fold_left (connectPixel fuel image (pixelCluster s) (clustersAverageSize s))
         (allPixels image) (Some (assign (pixelsNumber s) (-1), 0));
  Some st.1.

(** "Reset centres values and the number of pixel per cluster to zero",
    by index. *)
Definition resetCentres (s : SLIC) : SLIC :=
  fold_left
    (fun s centreIndex =>
       let zero cc k := vset cc (5 * centreIndex + k) (of_Z 0) in
       set_pixelsOfSameCluster (vset (pixelsOfSameCluster s) centreIndex 0)
         (set_clusterCentres
            (zero (zero (zero (zero (zero (clusterCentres s) 0) 1) 2) 3) 4) s))
    (upTo (clustersNumber s)) s.

(** [SLIC::enforceConnectivity].  [None] when the division of
    [pixelsNumber] by a zero [clustersNumber] traps or a segment does not
    stop growing within [fuel] rounds. *)
Definition enforceConnectivity (fuel : nat) (image : Mat) (s : SLIC) : option SLIC :=
  if clustersNumber s =? 0 then None
  else
    newPixelCluster ← relabelPass fuel image s;
    let s1 :=
      set_pixelCluster
        (fold_left (fun pc n => vset pc n (vget 0 newPixelCluster n))
           (upTo (pixelsNumber s)) (pixelCluster s)) s in
    Some (normalizeCentres (accumulateCentres image (resetCentres s1))).

(** ** The copy constructor *)

(** The loops of [SLIC::SLIC(const SLIC&)] with every element access
    checked.  A vector that the constructor does not resize is still
    empty when the loops run. *)
Definition copyPixel (otherSLIC : SLIC) (this : access SLIC) (n : Z) : access SLIC :=
  bindA this (fun this =>
  bindA (vread "otherSLIC.pixelCluster" (pixelCluster otherSLIC) n) (fun a =>
  bindA (vwrite "pixelCluster" (pixelCluster this) n a) (fun v1 =>
  bindA (vread "otherSLIC.pixelReachedByClusters" (pixelReachedByClusters otherSLIC) n) (fun b =>
  bindA (vwrite "pixelReachedByClusters" (pixelReachedByClusters this) n b) (fun v2 =>
  bindA (vread "otherSLIC.distanceFromClusterCentre" (distanceFromClusterCentre otherSLIC) n) (fun c =>
  bindA (vwrite "distanceFromClusterCentre" (distanceFromClusterCentre this) n c) (fun v3 =>
  Done (set_distanceFromClusterCentre v3
          (set_pixelReachedByClusters v2 (set_pixelCluster v1 this)))))))))).

Definition copyCluster (otherSLIC : SLIC) (this : access SLIC) (n : Z) : access SLIC :=
  bindA this (fun this =>
  bindA (vread "otherSLIC.pixelsOfSameCluster" (pixelsOfSameCluster otherSLIC) n) (fun a =>
  bindA (vwrite "pixelsOfSameCluster" (pixelsOfSameCluster this) n a) (fun v1 =>
  bindA (vread "otherSLIC.residualError" (residualError otherSLIC) n) (fun b =>
  bindA (vwrite "residualError" (residualError this) n b) (fun v2 =>
  Done (set_residualError v2 (set_pixelsOfSameCluster v1 this))))))).

Definition copyCentre (otherSLIC : SLIC) (this : access SLIC) (n : Z) : access SLIC :=
  bindA this (fun this =>
  bindA (vread "otherSLIC.clusterCentres" (clusterCentres otherSLIC) n) (fun a =>
  bindA (vwrite "clusterCentres" (clusterCentres this) n a) (fun v1 =>
  bindA (vread "otherSLIC.previousClusterCentres" (previousClusterCentres otherSLIC) n) (fun b =>
  bindA (vwrite "previousClusterCentres" (previousClusterCentres this) n b) (fun v2 =>
  Done (set_previousClusterCentres v2 (set_clusterCentres v1 this))))))).

(** [SLIC::SLIC(const SLIC& otherSLIC)]. *)
Definition SLIC_copy (otherSLIC : SLIC) : access SLIC :=
  let this :=
    {| iterationIndex := iterationIndex otherSLIC;
       pixelsNumber := pixelsNumber otherSLIC;
       clustersNumber := clustersNumber otherSLIC;
       samplingStep := samplingStep otherSLIC;
       spatialDistanceWeight := spatialDistanceWeight otherSLIC;
       distanceFactor := distanceFactor otherSLIC;
       totalResidualError := totalResidualError otherSLIC;
       errorThreshold := errorThreshold otherSLIC;
       framesNumber := framesNumber otherSLIC;
       pixelCluster := resize_vec 0 (pixelsNumber otherSLIC) [];
       distanceFromClusterCentre := resize_vec (of_Z 0) (pixelsNumber otherSLIC) [];
       clusterCentres :=
         resize_vec (of_Z 0) (Z.of_nat (length (clusterCentres otherSLIC))) [];
       previousClusterCentres :=
         resize_vec (of_Z 0) (Z.of_nat (length (previousClusterCentres otherSLIC))) [];
       pixelsOfSameCluster :=
         resize_vec 0 (Z.of_nat (length (pixelsOfSameCluster otherSLIC))) [];
       residualError :=
         resize_vec (of_Z 0) (Z.of_nat (length (residualError otherSLIC))) [];
       pixelReachedByClusters := [] |} in
  let this := fold_left (copyPixel otherSLIC) (upTo (pixelsNumber otherSLIC)) (Done this) in
  let this := fold_left (copyCluster otherSLIC) (upTo (clustersNumber otherSLIC)) this in
  fold_left (copyCentre otherSLIC) (upTo (5 * clustersNumber otherSLIC)) this.

(** The visits of one assignment step, in the order they are made:
    centre by centre along [order], each centre over its window. *)
Definition visits (samplingStep : Z) (s : SLIC) (order : list Z) : list (Z * Point) :=
  flat_map (fun c => map (fun p => (c, p)) (window samplingStep s c)) order.

(** The invariant of the Assignment Map ([clustersNumber] is an
    [unsigned]). *)
Definition assignmentValid (s : SLIC) : Prop :=
  0 <= clustersNumber s /\
  Forall (fun v => v = -1 \/ 0 <= v < clustersNumber s) (pixelCluster s).

End Model.

(** ** The combined distance in the words of the specification

    "color distance = sum of squared per-channel differences", "spatial
    distance = sum of squared coordinate differences", "combined distance
    = color distance + (spatialWeight^2 / S^2) * spatial distance".  A
    centre is its five values [L; A; B; x; y]. *)
Section Specification.
Context {R : Type} `{Scalar R}.

Definition sq (a : R) : R := a *. a.

Definition colorDistanceSpec (L A B : R) (pixelColor : Vec3b) : R :=
  sq (L -. of_Z (val0 pixelColor)) +. sq (A -. of_Z (val1 pixelColor))
  +. sq (B -. of_Z (val2 pixelColor)).

Definition spatialDistanceSpec (x y : R) (pixelPosition : Point) : R :=
  sq (x -. of_Z pixelPosition.1) +. sq (y -. of_Z pixelPosition.2).

Definition spatialFactorSpec (spatialWeight S : Z) : R :=
  of_Z 1 *. of_Z spatialWeight *. of_Z spatialWeight /. of_Z (S * S).

Definition combinedDistanceSpec (factor L A B x y : R) (pixelPosition : Point)
    (pixelColor : Vec3b) : R :=
  colorDistanceSpec L A B pixelColor
  +. factor *. spatialDistanceSpec x y pixelPosition.

(** The five values [L; A; B; x; y] of a centre placed at pixel [q]. *)
Definition centreAt (image : Mat) (q : Point) : list R :=
  [of_Z (val0 (at_ image q.2 q.1)); of_Z (val1 (at_ image q.2 q.1));
   of_Z (val2 (at_ image q.2 q.1)); of_Z q.1; of_Z q.2].

End Specification.

(** "Gradient computed from horizontal and vertical color differences of
    the first channel": the squared differences, added. *)
Definition gradientSpec (image : Mat) (q : Point) : Z :=
  (val0 (at_ image q.2 (q.1 + 1)) - val0 (at_ image q.2 (q.1 - 1))) ^ 2
  + (val0 (at_ image (q.2 - 1) q.1) - val0 (at_ image (q.2 + 1) q.1)) ^ 2.

(** "Within its 3x3 neighborhood", "border pixels excluded from the
    search": the pixels [q] that compete for the grid point [p]. *)
Definition candidate (image : Mat) (p q : Point) : Prop :=
  p.1 - 1 <= q.1 <= p.1 + 1 /\ p.2 - 1 <= q.2 <= p.2 + 1 /\
  1 <= q.1 < cols image - 1 /\ 1 <= q.2 < rows image - 1.

(** "A centre at every grid point (S, S), (S, 2S), ... up to the image
    bounds". *)
Definition gridPointSpec (image : Mat) (S : Z) (p : Point) : Prop :=
  exists i j, 0 < i /\ 0 < j /\ p.1 = i * S /\ p.2 = j * S /\
              p.1 < cols image /\ p.2 < rows image.

(** ** The instance [double]

    IEEE 754 binary64 through Rocq's primitive floats, the type C++
    [double] has on the platforms the program targets. *)
Definition double : Type := float.

Definition double_of_Z (z : Z) : double :=
  if z <? 0 then PrimFloat.opp (PrimFloat.of_uint63 (Uint63.of_Z (- z)))
  else PrimFloat.of_uint63 (Uint63.of_Z z).

(** Truncation toward zero; [0] for infinities and NaN, whose conversion
    is undefined in C++. *)
Definition double_trunc (a : double) : Z :=
  match Prim2SF a with
  | S754_finite sign m e =>
      let magnitude :=
        if 0 <=? e then Z.shiftl (Zpos m) e else Z.shiftr (Zpos m) (- e) in
      if sign then - magnitude else magnitude
  | _ => 0
  end.

(** Rounding to binary32 and back. *)
Definition double_to_float (a : double) : double :=
  match Prim2SF a with
  | S754_finite sign m e => SF2Prim (SpecFloat.binary_round 24 128 sign m e)
  | _ => a
  end.

#[global] Instance double_Scalar : Scalar double := {|
  of_Z := double_of_Z;
  trunc := double_trunc;
  to_float := double_to_float;
  radd := PrimFloat.add;
  rsub := PrimFloat.sub;
  rmul := PrimFloat.mul;
  rdiv := PrimFloat.div;
  rsqrt := PrimFloat.sqrt;
  rltb := PrimFloat.ltb;
  reqb := PrimFloat.eqb;
  rhalf := 0.5%float;
  DBL_MAX := 0x1.fffffffffffffp+1023%float
|}.

(** ** Frames and schedules used in the examples *)

(** A [rows] x [cols] image of one colour. *)
Definition uniformImage (rows cols : Z) (c : Vec3b) : Mat :=
  {| rows := rows; cols := cols; pix := assign (rows * cols) c |}.

(** The indices of a [parallel_for] in increasing and in decreasing
    order. *)
Definition ascending (l : list Z) : list Z := l.
Definition descending (l : list Z) : list Z := rev l.

(** A blob detector that finds nothing. *)
Definition noBlobs {R} (rows cols : Z) (mask : list Z) : list (@Moments R) := [].

(** A 12 x 12 frame of uniform gray. *)
Definition gray12 : Mat := uniformImage 12 12 (128, 128, 128).

(** The first frame of a sequence: sampling step 4, spatial weight 10,
    five fixed iterations, frames processed independently. *)
Definition firstFrame (sched : list Z -> list Z) : option (@SLIC double) :=
  createSuperpixels 8 noBlobs sched gray12 4 10 5 (of_Z 0)
    FIXED_ITERATIONS INDEPENDENT 1 (fun _ => of_Z 0) false SLIC_new.

(** The object after that frame. *)
Definition afterFirstFrame : @SLIC double := default SLIC_new (firstFrame ascending).

(** Draws of a noise generator: -3/8, -2/8, -1/8, 0, 1/8, ... *)
Definition draws (k : nat) : double := (of_Z (Z.of_nat k) -. of_Z 3) /. of_Z 8.

(** The object after the first frame with one more centre spawned at
    (5, 5), as orphan recovery does for a blob of area 4. *)
Definition spawned : @SLIC double :=
  spawnCentre afterFirstFrame {| m00 := of_Z 4; m10 := of_Z 20; m01 := of_Z 20 |}.

(** The frame of the specification's scenario: 100 x 100, uniform gray. *)
Definition gray100 : Mat := uniformImage 100 100 (128, 128, 128).

(** A blob detector that reports one contour, of area 4 and centroid
    (5, 5). *)
Definition oneBlob (rows cols : Z) (mask : list Z) : list (@Moments double) :=
  [{| m00 := of_Z 4; m10 := of_Z 20; m01 := of_Z 20 |}].

(** The second frame of the sequence: the centres of the first frame are
    reused in ADD_SUPERPIXELS mode with sampling step 1 and two fixed
    iterations.  With that step the windows leave columns and rows 5 and
    11 unreached. *)
Definition secondFrameStart : @SLIC double :=
  set_iterationIndex 0
    (initializeSLICData gray12 1 10 (of_Z 0) ADD_SUPERPIXELS 1 draws true
       afterFirstFrame).

Definition secondFrameRound (r : @SLIC double * bool) : @SLIC double * bool :=
  iteration oneBlob ascending gray12 1 2 (of_Z 0) FIXED_ITERATIONS ADD_SUPERPIXELS
    r.1 r.2.

Definition secondFrameLoop (fuel : nat) : option (@SLIC double) :=
  doWhile fuel oneBlob ascending gray12 1 2 (of_Z 0) FIXED_ITERATIONS ADD_SUPERPIXELS
    secondFrameStart false.

(** An entry of the Assignment Map that is "unassigned" or the index of
    one of [K] centres. *)
Definition entryOk (K v : Z) : Prop := v = -1 \/ 0 <= v < K.

(** The invariant of the Assignment Map as a test. *)
Definition assignmentValidb {R} (s : @SLIC R) : bool :=
  (0 <=? clustersNumber s)
  && forallb (fun v => (v =? -1) || ((0 <=? v) && (v <? clustersNumber s)))
       (pixelCluster s).

(** The second frame as a whole call. *)
Definition secondFrame : option (@SLIC double) :=
  createSuperpixels 8 oneBlob ascending gray12 1 10 2 (of_Z 0)
    FIXED_ITERATIONS ADD_SUPERPIXELS 1 draws true afterFirstFrame.

(** The object after the second frame. *)
Definition afterSecondFrame : @SLIC double := default SLIC_new secondFrame.

(** What the growing loop of [enforceConnectivity] keeps of its state
    [(pixelSegment, newPixelCluster)] when the label it spreads is not -1:
    the segment lists each pixel once, its pixels are pixels of the image
    that already carry a label in the new map, and the new map covers the
    image. *)
Definition segmentOk (image : Mat) (st : list Point * list Z) : Prop :=
  NoDup st.1 /\
  (forall q, q ∈ st.1 ->
     inImage image q = true /\ vget 0 st.2 (q.2 * cols image + q.1) <> -1) /\
  rows image * cols image <= Z.of_nat (length st.2).

(** Every pixel of the image carries a label in the map [v]. *)
Definition allLabelled (image : Mat) (v : list Z) : Prop :=
  forall p, inImage image p = true -> vget 0 v (p.2 * cols image + p.1) <> -1.

(** [allLabelled] as a test. *)
Definition allLabelledb (image : Mat) (v : list Z) : bool :=
  forallb (fun p : Point => negb (vget 0 v (p.2 * cols image + p.1) =? -1))
    (allPixels image).

(** ** The centres in the words of the update step's comment

    "Sum the information of pixels of the same cluster for future centre
    recalculation": the five values of a pixel that a centre averages (the
    three channels, the column and the row), the pixels of the image
    assigned to a centre in raster order, and the sum of one value over a
    list of pixels, added up from the left as the loops do. *)
Definition feature (image : Mat) (k : Z) (p : Point) : Z :=
  if k =? 0 then val0 (at_ image p.2 p.1)
  else if k =? 1 then val1 (at_ image p.2 p.1)
  else if k =? 2 then val2 (at_ image p.2 p.1)
  else if k =? 3 then p.1
  else p.2.

Definition members (image : Mat) (pixelCluster : list Z) (c : Z) : list Point :=
  filter (fun p : Point => vget 0 pixelCluster (p.2 * cols image + p.1) = c)
    (allPixels image).

Definition featureSum {R} `{Scalar R} (image : Mat) (k : Z) (l : list Point) (a : R) : R :=
  fold_left (fun a p => a +. of_Z (feature image k p)) l a.

(** * Drawing

    [cv::Rect]: the four fields the drawing functions read and write. *)
Module Rect.
Record t := mk { x : Z; y : Z; width : Z; height : Z }.
End Rect.

(** "Verify that area to color is within image boundaries, otherwise reset
    area to the entire image": the four tests that open [colorSuperpixels]
    and [drawClusterContours] (the same text), in order, each on the
    fields the earlier ones left; sums and differences are those of
    [int]. *)
Definition clampArea (image : Mat) (area : Rect.t) : Rect.t :=
  let x :=
    if (Rect.x area <? 0) || (cols image <? Rect.x area) then 0 else Rect.x area in
  let y :=
    if (Rect.y area <? 0) || (rows image <? Rect.y area) then 0 else Rect.y area in
  let width :=
    if (Rect.width area <? 0) || (cols image <? wrapS32 (x + Rect.width area))
    then wrapS32 (cols image - x) else Rect.width area in
  let height :=
    if (Rect.height area <? 0) || (rows image <? wrapS32 (y + Rect.height area))
    then wrapS32 (rows image - y) else Rect.height area in
  Rect.mk x y width height.

(** [for (int i = first; i < last; ++i)], also the indices of
    [tbb::parallel_for(first, last, 1, ...)]. *)
Definition range (first last : Z) : list Z :=
  forLoop (Z.to_nat (last - first)) first (fun i => i <? last) 1.

(** The rows of an area and the pixels of one of its rows, as the loops
    of the drawing functions visit them. *)
Definition areaRows (area : Rect.t) : list Z :=
  range (Rect.y area) (wrapS32 (Rect.y area + Rect.height area)).

Definition areaRow (area : Rect.t) (y : Z) : list Point :=
  map (fun x => (x, y))
    (range (Rect.x area) (wrapS32 (Rect.x area + Rect.width area))).

(** The pixels of an area in the order they are visited when the rows
    are run in the order [sched] gives them. *)
Definition areaPixels (sched : list Z -> list Z) (area : Rect.t) : list Point :=
  flat_map (areaRow area) (sched (areaRows area)).

(** A pixel lies in an area. *)
Definition inArea (area : Rect.t) (p : Point) : bool :=
  (Rect.x area <=? p.1) && (p.1 <? wrapS32 (Rect.x area + Rect.width area))
  && (Rect.y area <=? p.2) && (p.2 <? wrapS32 (Rect.y area + Rect.height area)).

(** [image.at<Vec3b>(y, x) = v]. *)
Definition set_at (image : Mat) (y x : Z) (v : Vec3b) : Mat :=
  {| rows := rows image; cols := cols image;
     pix := vset (pix image) (y * cols image + x) v |}.

Section Drawing.
Context {R : Type} `{Scalar R}.

(** The conversion of a [Vec3d] to a [Vec3b] is OpenCV's, channel by
    channel. *)
Variable saturate_cast : R -> Z.

(** The body of the loops of [colorSuperpixels]. *)
Definition colorPixel (s : @SLIC R) (image : Mat) (p : Point) : Mat :=
  let c := vget 0 (pixelCluster s) (p.2 * cols image + p.1) in
  if (0 <=? c) && (wrapU32 c <? clustersNumber s) then
    set_at image p.2 p.1
      (saturate_cast (vget (of_Z 0) (clusterCentres s) (5 * c)),
       saturate_cast (vget (of_Z 0) (clusterCentres s) (5 * c + 1)),
       saturate_cast (vget (of_Z 0) (clusterCentres s) (5 * c + 2)))
  else image.

(** [SLIC::colorSuperpixels]: the image and the area are passed by
    reference, both are returned. *)
Definition colorSuperpixels (sched : list Z -> list Z) (s : @SLIC R) (image : Mat)
    (areaToColor : Rect.t) : Mat * Rect.t :=
  let area := clampArea image areaToColor in
  (fold_left (colorPixel s) (areaPixels sched area) image, area).

(** The body of the loops over the eight neighbours in
    [drawClusterContours], for the pixel [p] and the neighbour [q]; the
    state is [(isContour, image)]. *)
Definition markContour (s : @SLIC R) (contourColor : Vec3b) (p : Point)
    (st : list bool * Mat) (q : Point) : list bool * Mat :=
  if inImage st.2 q then
    if (-1 <? vget 0 (pixelCluster s) (q.2 * cols st.2 + q.1))
       && negb (vget 0 (pixelCluster s) (p.2 * cols st.2 + p.1)
                =? vget 0 (pixelCluster s) (q.2 * cols st.2 + q.1))
       && negb (vget false st.1 (p.2 * cols st.2 + p.1))
    then (vset st.1 (p.2 * cols st.2 + p.1) true, set_at st.2 p.2 p.1 contourColor)
    else st
  else st.

(** The body of the loops over the area in [drawClusterContours]. *)
Definition contourPixel (s : @SLIC R) (contourColor : Vec3b)
    (st : list bool * Mat) (p : Point) : list bool * Mat :=
  if 0 <=? vget 0 (pixelCluster s) (p.2 * cols st.2 + p.1)
  then fold_left (markContour s contourColor p) (block p) st
  else st.

(** [SLIC::drawClusterContours]. *)
Definition drawClusterContours (sched : list Z -> list Z) (s : @SLIC R) (image : Mat)
    (contourColor : Vec3b) (areaToDraw : Rect.t) : Mat * Rect.t :=
  let area := clampArea image areaToDraw in
  let isContour := assign (pixelsNumber s) false in
  ((fold_left (contourPixel s contourColor) (areaPixels sched area)
      (isContour, image)).2, area).

End Drawing.

(** The test on a neighbour [q] of the pixel [p] in
    [drawClusterContours], without the flag: [q] is a pixel of the image
    assigned to a centre other than that of [p]. *)
Definition otherCluster (image : Mat) (pixelCluster : list Z) (p q : Point) : bool :=
  inImage image q
  && (-1 <? vget 0 pixelCluster (q.2 * cols image + q.1))
  && negb (vget 0 pixelCluster (p.2 * cols image + p.1)
           =? vget 0 pixelCluster (q.2 * cols image + q.1)).

(** A pixel is drawn as a contour: it is assigned and one of the pixels
    of its 3x3 block passes the test. *)
Definition onContour (image : Mat) (pixelCluster : list Z) (p : Point) : bool :=
  (0 <=? vget 0 pixelCluster (p.2 * cols image + p.1))
  && existsb (otherCluster image pixelCluster p) (block p).

(** What the loops of [drawClusterContours] keep of their state
    [(isContour, image)]: the size of the image, and that a pixel flagged
    as a contour has been painted. *)
Definition contourState (image : Mat) (contourColor : Vec3b)
    (st : list bool * Mat) : Prop :=
  rows st.2 = rows image /\ cols st.2 = cols image /\
  length (pix st.2) = length (pix image) /\
  forall q, inImage image q = true ->
    vget false st.1 (q.2 * cols image + q.1) = true ->
    at_ st.2 q.2 q.1 = contourColor.

(** The sizes of the vectors agree with the two counts: one entry per
    pixel in the per-pixel vectors, five values per centre in the centre
    vectors, one entry per centre in the per-centre vectors. *)
Definition shapeOk {R} `{Scalar R} (s : @SLIC R) : Prop :=
  Z.of_nat (length (pixelCluster s)) = pixelsNumber s /\
  Z.of_nat (length (distanceFromClusterCentre s)) = pixelsNumber s /\
  Z.of_nat (length (clusterCentres s)) = 5 * clustersNumber s /\
  Z.of_nat (length (previousClusterCentres s)) = 5 * clustersNumber s /\
  Z.of_nat (length (pixelsOfSameCluster s)) = clustersNumber s /\
  Z.of_nat (length (residualError s)) = clustersNumber s.

(** [shapeOk] as a test. *)
Definition shapeOkb {R} `{Scalar R} (s : @SLIC R) : bool :=
  (Z.of_nat (length (pixelCluster s)) =? pixelsNumber s)
  && (Z.of_nat (length (distanceFromClusterCentre s)) =? pixelsNumber s)
  && (Z.of_nat (length (clusterCentres s)) =? 5 * clustersNumber s)
  && (Z.of_nat (length (previousClusterCentres s)) =? 5 * clustersNumber s)
  && (Z.of_nat (length (pixelsOfSameCluster s)) =? clustersNumber s)
  && (Z.of_nat (length (residualError s)) =? clustersNumber s).

(** What an object remembers of the parameters of the frame that seeded
    it: the pixel count, the sampling step, the spatial weight, the
    factor of the spatial distance and the error threshold. *)
Definition geometry {R} `{Scalar R} (s : @SLIC R) : Z * Z * Z * R * R :=
  (pixelsNumber s, samplingStep s, spatialDistanceWeight s, distanceFactor s,
   errorThreshold s).

(** A first frame with the sampling step 65536 in ADD_SUPERPIXELS mode
    and one fixed iteration: the image is smaller than the step, so no
    centre is seeded, every pixel stays unreached and the blob detector
    places one centre at (5, 5). *)
Definition overflowFrame : @SLIC double :=
  default SLIC_new
    (createSuperpixels 8 oneBlob ascending gray12 65536 10 1 (of_Z 0)
       FIXED_ITERATIONS ADD_SUPERPIXELS 1 draws false SLIC_new).

(** * The first parallel_for, body against body

    [tbb::parallel_for] may run the bodies of different centre indices at
    the same time, and the body reads and writes the per-pixel vectors
    without synchronisation.  Here each body is a worker of its own and a
    run is any interleaving of the workers' accesses to the shared
    vectors: for a pixel of the window inside the image, the write of
    [pixelReachedByClusters] (ADD_SUPERPIXELS modes), the read and test of
    [distanceFromClusterCentre], and the two writes that follow a
    successful test.  [clusterCentres] and [distanceFactor], which
    [computeDistance] reads, are not written in this loop. *)
Inductive phase {R : Type} :=
| Mark
| Test
| StoreDistance (tempDistance : R)
| StoreCluster.
Arguments phase R : clear implicits.

Record worker {R : Type} := mkWorker {
  workerCentre : Z;
  workerTodo : list Point;
  workerPhase : phase R
}.
Arguments worker R : clear implicits.
Arguments mkWorker {R} workerCentre workerTodo workerPhase.

Section Interleaving.
Context {R : Type} `{Scalar R}.

(** One access of a worker to the shared vectors. *)
Definition workerStep (image : Mat) (videoMode : VideoElaborationMode)
    (w : worker R) (s : @SLIC R) : worker R * @SLIC R :=
  match workerTodo w with
  | [] => (w, s)
  | p :: rest =>
    let i := p.2 * cols image + p.1 in
    if inImage image p then
      match workerPhase w with
      | Mark =>
          (mkWorker (workerCentre w) (p :: rest) Test,
           if isAddSuperpixelsMode videoMode
           then set_pixelReachedByClusters (vset (pixelReachedByClusters s) i 0) s
           else s)
      | Test =>
          let tempDistance := computeDistance s (workerCentre w) p (at_ image p.2 p.1) in
          if tempDistance <. vget (of_Z 0) (distanceFromClusterCentre s) i
          then (mkWorker (workerCentre w) (p :: rest) (StoreDistance tempDistance), s)
          else (mkWorker (workerCentre w) rest Mark, s)
      | StoreDistance tempDistance =>
          (mkWorker (workerCentre w) (p :: rest) StoreCluster,
           set_distanceFromClusterCentre
             (vset (distanceFromClusterCentre s) i tempDistance) s)
      | StoreCluster =>
          (mkWorker (workerCentre w) rest Mark,
           set_pixelCluster (vset (pixelCluster s) i (workerCentre w)) s)
      end
    else (mkWorker (workerCentre w) rest Mark, s)
  end.

(** The worker [k] of the pool makes one access. *)
Definition poolStep (image : Mat) (videoMode : VideoElaborationMode)
    (st : list (worker R) * @SLIC R) (k : nat) : list (worker R) * @SLIC R :=
  match st.1 !! k with
  | Some w =>
      let r := workerStep image videoMode w st.2 in
      (<[k := r.1]> st.1, r.2)
  | None => st
  end.

(** The workers of an assignment step: one per centre index of [order],
    each with the window of its centre before it. *)
Definition workers (samplingStep : Z) (s : @SLIC R) (order : list Z)
    : list (worker R) :=
  map (fun c => mkWorker c (window samplingStep s c) Mark) order.

(** A run of the assignment step: the Distance Map is reset, then the
    workers make their accesses in the order [schedule] names them. *)
Definition assignmentRun (image : Mat) (samplingStep : Z)
    (videoMode : VideoElaborationMode) (order : list Z) (schedule : list nat)
    (s : @SLIC R) : list (worker R) * @SLIC R :=
  fold_left (poolStep image videoMode) schedule
    (workers samplingStep s order,
     set_distanceFromClusterCentre (assign (pixelsNumber s) DBL_MAX) s).

(** Every worker has gone through its window. *)
Definition finished (pool : list (worker R)) : bool :=
  forallb (fun w => match workerTodo w with [] => true | _ => false end) pool.

End Interleaving.

(** The first frame when the loop is entered: four centres, at (3, 3),
    (7, 3), (3, 7) and (7, 7). *)
Definition firstFrameStart : @SLIC double :=
  set_iterationIndex 0
    (initializeSLICData gray12 4 10 (of_Z 0) INDEPENDENT 1 (fun _ => of_Z 0) false
       SLIC_new).

(** What a run keeps of each worker: its centre is one of [order], what
    it has still to visit lies in the window of its centre, and a distance
    it is about to store is the distance of its centre to the pixel it is
    at. *)
Definition workerOk {R} `{Scalar R} (image : Mat) (samplingStep : Z) (s : @SLIC R)
    (order : list Z) (w : worker R) : Prop :=
  workerCentre w ∈ order /\
  (forall p, p ∈ workerTodo w -> p ∈ window samplingStep s (workerCentre w)) /\
  (forall d p rest,
     workerPhase w = StoreDistance d -> workerTodo w = p :: rest ->
     d = computeDistance s (workerCentre w) p (at_ image p.2 p.1)).

(** Where the entries of a pixel in the two maps of [a] come from, in a
    run started from [s]: the distance is [DBL_MAX] or the distance of a
    centre of [order] whose window holds the pixel; the assignment is the
    one of [s] or the index of such a centre. *)
Definition fromCentres {R} `{Scalar R} (image : Mat) (samplingStep : Z) (s : @SLIC R)
    (order : list Z) (a : @SLIC R) (p : Point) : Prop :=
  (vget (of_Z 0) (distanceFromClusterCentre a) (p.2 * cols image + p.1) = DBL_MAX \/
   exists c, c ∈ order /\ p ∈ window samplingStep s c /\
     vget (of_Z 0) (distanceFromClusterCentre a) (p.2 * cols image + p.1)
     = computeDistance s c p (at_ image p.2 p.1)) /\
  (vget 0 (pixelCluster a) (p.2 * cols image + p.1)
   = vget 0 (pixelCluster s) (p.2 * cols image + p.1) \/
   exists c, c ∈ order /\ p ∈ window samplingStep s c /\
     vget 0 (pixelCluster a) (p.2 * cols image + p.1) = c).

(** The distance stored for a pixel is below [DBL_MAX]. *)
Definition lowAt {R} `{Scalar R} (image : Mat) (a : @SLIC R) (q : Point) : Prop :=
  (vget (of_Z 0) (distanceFromClusterCentre a) (q.2 * cols image + q.1) <. DBL_MAX)
  = true.

(** A pixel is assigned to a centre of [order] whose window holds it. *)
Definition assignedBy {R} `{Scalar R} (image : Mat) (samplingStep : Z) (s : @SLIC R)
    (order : list Z) (a : @SLIC R) (q : Point) : Prop :=
  exists c, c ∈ order /\ q ∈ window samplingStep s c /\
            vget 0 (pixelCluster a) (q.2 * cols image + q.1) = c.

(** The progress of the worker [k] of a run started from [s], in the
    state [a]: it works for the [k]-th centre of [order]; its window is
    what it has visited followed by what it has still to visit, and every
    pixel it has visited at a distance below [DBL_MAX] holds a distance
    below [DBL_MAX]; a distance it is about to store is below [DBL_MAX];
    and when it is about to store its index the distance is stored. *)
Definition workerCover {R} `{Scalar R} (image : Mat) (samplingStep : Z) (s : @SLIC R)
    (order : list Z) (a : @SLIC R) (k : nat) (w : worker R) : Prop :=
  order !! k = Some (workerCentre w) /\
  (exists visited,
     window samplingStep s (workerCentre w) = visited ++ workerTodo w /\
     forall q, q ∈ visited -> inImage image q = true ->
       (computeDistance s (workerCentre w) q (at_ image q.2 q.1) <. DBL_MAX) = true ->
       lowAt image a q) /\
  (forall d, workerPhase w = StoreDistance d -> (d <. DBL_MAX) = true) /\
  (workerPhase w = StoreCluster ->
   forall p rest, workerTodo w = p :: rest -> lowAt image a p).

(** The whole of what a run keeps, for the pool [st.1] and the state
    [st.2]. *)
Definition runCover {R} `{Scalar R} (image : Mat) (samplingStep : Z) (s : @SLIC R)
    (order : list Z) (st : list (worker R) * @SLIC R) : Prop :=
  length st.1 = length order /\
  rows image * cols image <= Z.of_nat (length (distanceFromClusterCentre st.2)) /\
  rows image * cols image <= Z.of_nat (length (pixelCluster st.2)) /\
  clusterCentres st.2 = clusterCentres s /\ distanceFactor st.2 = distanceFactor s /\
  (forall q, inImage image q = true ->
     vget (of_Z 0) (distanceFromClusterCentre st.2) (q.2 * cols image + q.1) = DBL_MAX \/
     lowAt image st.2 q) /\
  (forall k w, st.1 !! k = Some w -> workerCover image samplingStep s order st.2 k w) /\
  (forall q, inImage image q = true -> lowAt image st.2 q ->
     assignedBy image samplingStep s order st.2 q \/
     exists k w rest, st.1 !! k = Some w /\ workerTodo w = q :: rest /\
                      workerPhase w = StoreCluster).

(** * Properties *)

(** ** Loops and vectors *)

Lemma forLoop_below (fuel : nat) (i bound : Z) :
  (Z.to_nat (bound - i) <= fuel)%nat ->
  forLoop fuel i (fun n => n <? bound) 1 = seqZ i (bound - i).
Proof.
  revert i. induction fuel as [|fuel IH]; intros i Hfuel; simpl.
  - rewrite seqZ_nil; [done | lia].
  - destruct (Z.ltb_spec i bound) as [Hlt | Hge].
    + rewrite (seqZ_cons i (bound - i)) by lia. f_equal.
      rewrite IH by lia. f_equal. lia.
    + rewrite seqZ_nil; [done | lia].
Qed.

Lemma upTo_seqZ (count : Z) : upTo count = seqZ 0 count.
Proof.
  unfold upTo. rewrite forLoop_below by lia. f_equal. lia.
Qed.

Lemma elem_of_upTo (count n : Z) : n ∈ upTo count <-> 0 <= n < count.
Proof. rewrite upTo_seqZ, elem_of_seqZ. lia. Qed.

Lemma NoDup_upTo (count : Z) : NoDup (upTo count).
Proof. rewrite upTo_seqZ. apply NoDup_seqZ. Qed.

Lemma length_vset {A} (v : list A) (i : Z) (a : A) : length (vset v i a) = length v.
Proof. unfold vset. destruct (i <? 0); [done | apply length_insert]. Qed.

Lemma vget_vset_ne {A} (d : A) (v : list A) (i j : Z) (a : A) :
  i <> j -> vget d (vset v i a) j = vget d v j.
Proof.
  intros Hne. unfold vget, vset.
  destruct (Z.ltb_spec j 0); [done |].
  destruct (Z.ltb_spec i 0); [done |].
  rewrite !nth_lookup, list_lookup_insert_ne; [done | lia].
Qed.

Lemma vget_vset_eq {A} (d : A) (v : list A) (i : Z) (a : A) :
  0 <= i < Z.of_nat (length v) -> vget d (vset v i a) i = a.
Proof.
  intros Hi. unfold vget, vset.
  destruct (Z.ltb_spec i 0); [lia |].
  rewrite nth_lookup, list_lookup_insert_eq; [done | lia].
Qed.

Lemma vget_vset {A} (d : A) (v : list A) (i j : Z) (a : A) :
  vget d (vset v i a) j =
  if decide (i = j /\ 0 <= i < Z.of_nat (length v)) then a else vget d v j.
Proof.
  case_decide as Hc.
  - destruct Hc as [-> Hi]. by apply vget_vset_eq.
  - destruct (decide (i = j)) as [-> | Hne]; [| by apply vget_vset_ne].
    unfold vget, vset. destruct (Z.ltb_spec j 0); [done |].
    rewrite list_insert_ge; [done | lia].
Qed.

Lemma vget_app_l {A} (d : A) (v w : list A) (i : Z) :
  i < Z.of_nat (length v) -> vget d (v ++ w) i = vget d v i.
Proof.
  intros Hi. unfold vget. destruct (Z.ltb_spec i 0); [done |].
  apply app_nth1. lia.
Qed.

Lemma vset_comm {A} (v : list A) (i j : Z) (a b : A) :
  i <> j -> vset (vset v i a) j b = vset (vset v j b) i a.
Proof.
  intros Hne. unfold vset.
  destruct (Z.ltb_spec i 0), (Z.ltb_spec j 0); try done.
  apply list_insert_insert_ne. lia.
Qed.

(** ** The comparison of [double] is a strict order *)

Ltac posCompare :=
  repeat match goal with
  | |- context [PosDef.Pos.compare_cont Eq ?a ?b] =>
      change (PosDef.Pos.compare_cont Eq a b) with (Pos.compare a b)
  end.

Ltac compareCases :=
  repeat match goal with
  | |- context [Z.compare ?a ?b] =>
      destruct (Z.compare_spec a b); simpl; try done; try lia
  | |- context [Pos.compare ?a ?b] =>
      destruct (Pos.compare_spec a b); simpl; try done; try lia
  end.

Lemma SFltb_asym (a b : spec_float) : SFltb a b = true -> SFltb b a = false.
Proof.
  unfold SFltb, SFcompare.
  destruct a as [s1| s1| |s1 m1 e1], b as [s2| s2| |s2 m2 e2];
    try destruct s1; try destruct s2; try done; posCompare; compareCases.
Qed.

Lemma SFltb_trans (a b c : spec_float) :
  SFltb a b = true -> SFltb b c = true -> SFltb a c = true.
Proof.
  unfold SFltb, SFcompare.
  destruct a as [s1| s1| |s1 m1 e1], b as [s2| s2| |s2 m2 e2],
           c as [s3| s3| |s3 m3 e3];
    try destruct s1; try destruct s2; try destruct s3; try done;
    posCompare; compareCases.
Qed.

#[global] Instance double_order : ScalarOrder double.
Proof.
  split; simpl.
  - intros a b. rewrite !ltb_spec. apply SFltb_asym.
  - intros a b c. rewrite !ltb_spec. apply SFltb_trans.
Qed.

(** ** The copy constructor *)

Section CopyConstructor.
Context {R : Type} {SR : Scalar R}.

Lemma fold_copy_error {A} (f : access (@SLIC R) -> A -> access (@SLIC R))
    (l : list A) (vector : string) (index : Z) :
  (forall a, f (OutOfBounds vector index) a = OutOfBounds vector index) ->
  fold_left f l (OutOfBounds vector index) = OutOfBounds vector index.
Proof.
  intros Hf. induction l as [|a l IH]; simpl; [done |]. by rewrite Hf.
Qed.

Lemma copyPixel_first (otherSLIC this : @SLIC R) :
  pixelReachedByClusters this = [] ->
  0 < Z.of_nat (length (pixelCluster this)) ->
  (exists vector index,
     copyPixel otherSLIC (Done this) 0 = OutOfBounds vector index) /\
  (0 < Z.of_nat (length (pixelCluster otherSLIC)) ->
   0 < Z.of_nat (length (pixelReachedByClusters otherSLIC)) ->
   copyPixel otherSLIC (Done this) 0 = OutOfBounds "pixelReachedByClusters" 0).
Proof.
  intros Hempty Hlen. unfold copyPixel, bindA, vread, vwrite. simpl.
  rewrite Hempty. simpl.
  destruct (pixelCluster otherSLIC) as [|a v]; simpl.
  { split; [eauto | lia]. }
  destruct (Z.ltb_spec 0 (Z.of_nat (length (pixelCluster this)))); [| lia].
  destruct (pixelReachedByClusters otherSLIC) as [|b w]; simpl.
  { split; [eauto | lia]. }
  split; [eauto | done].
Qed.

(** C10, at the code: for every source object with [pixelsNumber > 0] the
    copy constructor leaves the bounds of a vector in the first round of
    its first loop.  [pixelReachedByClusters] of the new object is never
    resized, so when the source vectors hold [pixelsNumber] elements the
    access that fails is the write [this->pixelReachedByClusters[0]]. *)
Theorem SLIC_copy_out_of_bounds (otherSLIC : @SLIC R) :
  0 < pixelsNumber otherSLIC ->
  (exists vector index, SLIC_copy otherSLIC = OutOfBounds vector index) /\
  (pixelsNumber otherSLIC <= Z.of_nat (length (pixelCluster otherSLIC)) ->
   pixelsNumber otherSLIC <= Z.of_nat (length (pixelReachedByClusters otherSLIC)) ->
   SLIC_copy otherSLIC = OutOfBounds "pixelReachedByClusters" 0).
Proof.
  intros Hpos. unfold SLIC_copy.
  rewrite (upTo_seqZ (pixelsNumber otherSLIC)), (seqZ_cons 0) by lia.
  cbn [fold_left].
  match goal with
  | |- context [copyPixel otherSLIC (Done ?t) 0] =>
      destruct (copyPixel_first otherSLIC t) as [(vector & index & Hfirst) Hwrite]
  end.
  { done. }
  { simpl. unfold resize_vec. rewrite length_app, length_replicate. simpl. lia. }
  split.
  - exists vector, index. rewrite Hfirst. by rewrite !fold_copy_error.
  - intros Hc Hr. rewrite Hwrite by lia. by rewrite !fold_copy_error.
Qed.

End CopyConstructor.

Lemma SLIC_copy_out_of_bounds_witness :
  (exists vector index, SLIC_copy afterFirstFrame = OutOfBounds vector index) /\
  (pixelsNumber afterFirstFrame <= Z.of_nat (length (pixelCluster afterFirstFrame)) ->
   pixelsNumber afterFirstFrame
     <= Z.of_nat (length (pixelReachedByClusters afterFirstFrame)) ->
   SLIC_copy afterFirstFrame = OutOfBounds "pixelReachedByClusters" 0).
Proof. apply (SLIC_copy_out_of_bounds afterFirstFrame). vm_compute. reflexivity. Defined.


(** ** Normalisation *)

Section Normalisation.
Context {R : Type} {SR : Scalar R}.

Lemma normalizeCentreChecked_Some (counts : list Z) (cc : list R) (centreIndex : Z) :
  normalizeCentreChecked counts (Some cc) centreIndex
  = Some (normalizeCentre counts cc centreIndex).
Proof.
  unfold normalizeCentreChecked, normalizeCentre, divideBy.
  destruct (vget 0 counts centreIndex =? 0) eqn:Hn; simpl; done.
Qed.

Lemma fold_normalizeCentreChecked (counts : list Z) (l : list Z) (cc : list R) :
  fold_left (normalizeCentreChecked counts) l (Some cc)
  = Some (fold_left (normalizeCentre counts) l cc).
Proof.
  revert cc. induction l as [|c l IH]; intros cc; simpl; [done |].
  by rewrite normalizeCentreChecked_Some, IH.
Qed.

(** One index of the pass leaves every slot outside its own five alone,
    and all slots when its count is zero. *)
Lemma normalizeCentre_other (counts : list Z) (cc : list R) (c j : Z) :
  (vget 0 counts c = 0 \/ forall k, 0 <= k < 5 -> 5 * c + k <> j) ->
  vget (of_Z 0) (normalizeCentre counts cc c) j = vget (of_Z 0) cc j.
Proof.
  intros Hc. unfold normalizeCentre.
  destruct (Z.eqb_spec (vget 0 counts c) 0) as [Hz | Hnz]; simpl; [done |].
  destruct Hc as [Hc | Hc]; [done |].
  rewrite !vget_vset_ne; [done | apply Hc; lia ..].
Qed.

Lemma normalize_empty_untouched (counts : list Z) (l : list Z) (cc : list R) (c k : Z) :
  vget 0 counts c = 0 -> 0 <= k < 5 ->
  vget (of_Z 0) (fold_left (normalizeCentre counts) l cc) (5 * c + k)
  = vget (of_Z 0) cc (5 * c + k).
Proof.
  intros Hz Hk. revert cc. induction l as [|c' l IH]; intros cc; simpl; [done |].
  rewrite IH. apply normalizeCentre_other.
  destruct (decide (c' = c)) as [-> | Hne]; [by left | right; lia].
Qed.

(** A centre with a non-zero count has each of its five slots divided by
    the count, once. *)
Lemma normalize_divides (counts : list Z) (l : list Z) (cc : list R) (c k : Z) :
  NoDup l -> 0 <= k < 5 -> 0 <= c -> 5 * c + 4 < Z.of_nat (length cc) ->
  vget 0 counts c <> 0 ->
  vget (of_Z 0) (fold_left (normalizeCentre counts) l cc) (5 * c + k)
  = if decide (c ∈ l)
    then vget (of_Z 0) cc (5 * c + k) /. of_Z (vget 0 counts c)
    else vget (of_Z 0) cc (5 * c + k).
Proof.
  intros Hnd Hk Hc Hlen Hnz. revert cc Hlen.
  induction Hnd as [|c' l Hnotin Hnd IH]; intros cc Hlen; cbn [fold_left].
  { by rewrite decide_False by apply not_elem_of_nil. }
  assert (Hlen' : length (normalizeCentre counts cc c') = length cc).
  { unfold normalizeCentre. destruct (negb _); [| done]. by rewrite !length_vset. }
  rewrite IH by lia.
  destruct (decide (c' = c)) as [-> | Hne].
  - rewrite (decide_False (P := c ∈ l)) by done.
    rewrite (decide_True (P := c ∈ c :: l)) by (apply elem_of_cons; by left).
    unfold normalizeCentre.
    destruct (Z.eqb_spec (vget 0 counts c) 0) as [Hz | _]; [done |]. simpl.
    assert (Hcases : k = 0 \/ k = 1 \/ k = 2 \/ k = 3 \/ k = 4) by lia.
    destruct Hcases as [-> | [-> | [-> | [-> | ->]]]];
      repeat first
        [ rewrite vget_vset_eq by (rewrite ?length_vset; lia)
        | rewrite vget_vset_ne by lia ];
      done.
  - rewrite normalizeCentre_other by (right; lia).
    destruct (decide (c ∈ l)) as [Hin | Hout].
    + by rewrite decide_True by (apply elem_of_cons; by right).
    + by rewrite decide_False by (intros [? | ?]%elem_of_cons; congruence).
Qed.

(** C3: the normalisation pass never divides by a zero count (the checked
    pass always succeeds and agrees with the pass of the source), a centre
    whose count is zero keeps its five values, a centre with a non-zero
    count has each value divided by the count; the pass is the one run by
    the update step of [createSuperpixels] and by the end of
    [enforceConnectivity]. *)
Theorem normalization_skips_empty_centres (s : @SLIC R) :
  normalizeCentresChecked s = Some (normalizeCentres s) /\
  (forall centreIndex k,
     vget 0 (pixelsOfSameCluster s) centreIndex = 0 -> 0 <= k < 5 ->
     vget (of_Z 0) (clusterCentres (normalizeCentres s)) (5 * centreIndex + k)
     = vget (of_Z 0) (clusterCentres s) (5 * centreIndex + k)) /\
  (forall centreIndex k,
     0 <= centreIndex < clustersNumber s -> 0 <= k < 5 ->
     5 * clustersNumber s <= Z.of_nat (length (clusterCentres s)) ->
     vget 0 (pixelsOfSameCluster s) centreIndex <> 0 ->
     vget (of_Z 0) (clusterCentres (normalizeCentres s)) (5 * centreIndex + k)
     = vget (of_Z 0) (clusterCentres s) (5 * centreIndex + k)
       /. of_Z (vget 0 (pixelsOfSameCluster s) centreIndex)) /\
  (forall image, exists s1, updateStep image s = updateError (normalizeCentres s1)) /\
  (forall fuel image s', enforceConnectivity fuel image s = Some s' ->
     exists s1, s' = normalizeCentres s1).
Proof.
  repeat split.
  - unfold normalizeCentresChecked. by rewrite fold_normalizeCentreChecked.
  - intros c k Hz Hk. simpl. by apply normalize_empty_untouched.
  - intros c k Hc Hk Hlen Hnz. simpl.
    rewrite normalize_divides; [| apply NoDup_upTo | lia ..| done].
    rewrite decide_True; [done | by apply elem_of_upTo].
  - intros image. unfold updateStep, recomputeCentres. eauto.
  - intros fuel image s' Hs'. unfold enforceConnectivity in Hs'.
    destruct (clustersNumber s =? 0); [done |].
    destruct (relabelPass fuel image s); simpl in Hs'; [| done].
    inversion Hs'. eauto.
Qed.

End Normalisation.

Lemma normalization_skips_empty_centres_witness :
  vget 0 (pixelsOfSameCluster spawned) 4 = 0 /\
  vget (of_Z 0) (clusterCentres (normalizeCentres spawned)) (5 * 4 + 3)
  = vget (of_Z 0) (clusterCentres spawned) (5 * 4 + 3).
Proof.
  split; [reflexivity |].
  apply (proj1 (proj2 (normalization_skips_empty_centres spawned)) 4 3);
    [reflexivity | lia].
Defined.

(** ** Noise on reused centres *)

Section Noise.
Context {R : Type} {SR : Scalar R}.

Lemma length_jitter (randomGen : nat -> R) (l : list Z) (cc : list R) :
  length (fold_left (jitterCentre randomGen) l cc) = length cc.
Proof.
  revert cc. induction l as [|n l IH]; intros cc; simpl; [done |].
  rewrite IH. unfold jitterCentre. by rewrite !length_vset.
Qed.

Lemma jitter_colour (randomGen : nat -> R) (l : list Z) (cc : list R) (n k : Z) :
  0 <= k < 3 ->
  vget (of_Z 0) (fold_left (jitterCentre randomGen) l cc) (5 * n + k)
  = vget (of_Z 0) cc (5 * n + k).
Proof.
  intros Hk. revert cc. induction l as [|n' l IH]; intros cc; simpl; [done |].
  rewrite IH. unfold jitterCentre. rewrite !vget_vset_ne by lia. done.
Qed.

Lemma jitter_position (randomGen : nat -> R) (l : list Z) (cc : list R) (n : Z) :
  NoDup l -> n ∈ l -> 0 <= n -> 5 * n + 4 < Z.of_nat (length cc) ->
  vget (of_Z 0) (fold_left (jitterCentre randomGen) l cc) (5 * n + 3)
  = vget (of_Z 0) cc (5 * n + 3) +. randomGen (Z.to_nat (2 * n)) /\
  vget (of_Z 0) (fold_left (jitterCentre randomGen) l cc) (5 * n + 4)
  = vget (of_Z 0) cc (5 * n + 4) +. randomGen (Z.to_nat (2 * n + 1)).
Proof.
  intros Hnd. revert cc. induction Hnd as [|n' l Hnotin Hnd IH]; intros cc Hin Hn Hlen.
  { by apply not_elem_of_nil in Hin. }
  cbn [fold_left]. apply elem_of_cons in Hin as [<- | Hin].
  - assert (Hkeep : forall j, 5 * n + 3 <= j <= 5 * n + 4 ->
      vget (of_Z 0) (fold_left (jitterCentre randomGen) l (jitterCentre randomGen cc n)) j
      = vget (of_Z 0) (jitterCentre randomGen cc n) j).
    { intros j Hj. clear IH. generalize (jitterCentre randomGen cc n) as cc'.
      induction l as [|m l IHl]; intros cc'; simpl; [done |].
      rewrite IHl.
      + unfold jitterCentre.
        assert (m <> n) by (intros ->; apply Hnotin, elem_of_cons; by left).
        rewrite !vget_vset_ne by lia. done.
      + intros Hm. apply Hnotin, elem_of_cons. by right.
      + by inversion Hnd. }
    rewrite !Hkeep by lia. unfold jitterCentre.
    rewrite vget_vset_ne by lia.
    rewrite !vget_vset_eq by (rewrite ?length_vset; lia).
    rewrite vget_vset_ne by lia. done.
  - assert (n' <> n) by (intros ->; done).
    destruct (IH (jitterCentre randomGen cc n') Hin Hn) as [H3 H4].
    { unfold jitterCentre. rewrite !length_vset. lia. }
    rewrite H3, H4. unfold jitterCentre. rewrite !vget_vset_ne by lia. done.
Qed.

(** C9: when the centres of the previous frame are reused in a noise mode,
    [initializeSLICData] adds one draw to [x] and one to [y] of every
    centre and writes nothing else of the Centre Store: the three colour
    slots of every centre, the cluster count, the Assignment Map and the
    Distance Map are the ones it found. *)
Theorem noise_jitters_positions_only (image : Mat)
    (samplingStep spatialDistanceWeight : Z) (errorThreshold : R)
    (videoMode : VideoElaborationMode) (keyFramesRatio : Z)
    (randomGen : nat -> R) (connectedFrames : bool) (s : @SLIC R) :
  mustReseed videoMode keyFramesRatio connectedFrames s = false ->
  isNoiseMode videoMode = true ->
  let s' := initializeSLICData image samplingStep spatialDistanceWeight
              errorThreshold videoMode keyFramesRatio randomGen connectedFrames s in
  (forall n k, 0 <= k < 3 ->
     vget (of_Z 0) (clusterCentres s') (5 * n + k)
     = vget (of_Z 0) (clusterCentres s) (5 * n + k)) /\
  (forall n, 0 <= n < clustersNumber s ->
     5 * clustersNumber s <= Z.of_nat (length (clusterCentres s)) ->
     vget (of_Z 0) (clusterCentres s') (5 * n + 3)
     = vget (of_Z 0) (clusterCentres s) (5 * n + 3) +. randomGen (Z.to_nat (2 * n)) /\
     vget (of_Z 0) (clusterCentres s') (5 * n + 4)
     = vget (of_Z 0) (clusterCentres s) (5 * n + 4) +. randomGen (Z.to_nat (2 * n + 1))) /\
  length (clusterCentres s') = length (clusterCentres s) /\
  clustersNumber s' = clustersNumber s /\
  pixelCluster s' = pixelCluster s /\
  distanceFromClusterCentre s' = distanceFromClusterCentre s.
Proof.
  intros Hreuse Hnoise s'. subst s'. unfold initializeSLICData.
  rewrite Hreuse, Hnoise.
  assert (Hshape : forall s1 : @SLIC R,
    clusterCentres
      (if isAddSuperpixelsMode videoMode
       then set_pixelReachedByClusters
              (assign (pixelsNumber (set_totalResidualError DBL_MAX s1)) 255)
              (set_totalResidualError DBL_MAX s1)
       else set_totalResidualError DBL_MAX s1) = clusterCentres s1 /\
    clustersNumber
      (if isAddSuperpixelsMode videoMode
       then set_pixelReachedByClusters
              (assign (pixelsNumber (set_totalResidualError DBL_MAX s1)) 255)
              (set_totalResidualError DBL_MAX s1)
       else set_totalResidualError DBL_MAX s1) = clustersNumber s1 /\
    pixelCluster
      (if isAddSuperpixelsMode videoMode
       then set_pixelReachedByClusters
              (assign (pixelsNumber (set_totalResidualError DBL_MAX s1)) 255)
              (set_totalResidualError DBL_MAX s1)
       else set_totalResidualError DBL_MAX s1) = pixelCluster s1 /\
    distanceFromClusterCentre
      (if isAddSuperpixelsMode videoMode
       then set_pixelReachedByClusters
              (assign (pixelsNumber (set_totalResidualError DBL_MAX s1)) 255)
              (set_totalResidualError DBL_MAX s1)
       else set_totalResidualError DBL_MAX s1) = distanceFromClusterCentre s1).
  { intros s1. by destruct (isAddSuperpixelsMode videoMode). }
  cbv zeta. destruct (Hshape (addNoise randomGen s)) as (-> & -> & -> & ->).
  simpl. repeat split.
  - intros n k Hk. by apply jitter_colour.
  - apply jitter_position; [apply NoDup_upTo | by apply elem_of_upTo | lia ..].
  - apply jitter_position; [apply NoDup_upTo | by apply elem_of_upTo | lia ..].
  - apply length_jitter.
Qed.

End Noise.

Lemma noise_jitters_positions_only_witness :
  mustReseed NOISE 1 true afterFirstFrame = false /\
  isNoiseMode NOISE = true /\
  let s' := initializeSLICData gray12 4 10 (of_Z 0) NOISE 1 draws true afterFirstFrame in
  (forall n k, 0 <= k < 3 ->
     vget (of_Z 0) (clusterCentres s') (5 * n + k)
     = vget (of_Z 0) (clusterCentres afterFirstFrame) (5 * n + k)) /\
  (forall n, 0 <= n < clustersNumber afterFirstFrame ->
     5 * clustersNumber afterFirstFrame
       <= Z.of_nat (length (clusterCentres afterFirstFrame)) ->
     vget (of_Z 0) (clusterCentres s') (5 * n + 3)
     = vget (of_Z 0) (clusterCentres afterFirstFrame) (5 * n + 3)
       +. draws (Z.to_nat (2 * n)) /\
     vget (of_Z 0) (clusterCentres s') (5 * n + 4)
     = vget (of_Z 0) (clusterCentres afterFirstFrame) (5 * n + 4)
       +. draws (Z.to_nat (2 * n + 1))) /\
  length (clusterCentres s') = length (clusterCentres afterFirstFrame) /\
  clustersNumber s' = clustersNumber afterFirstFrame /\
  pixelCluster s' = pixelCluster afterFirstFrame /\
  distanceFromClusterCentre s' = distanceFromClusterCentre afterFirstFrame.
Proof.
  split; [reflexivity |]. split; [reflexivity |].
  apply (noise_jitters_positions_only gray12 4 10 (of_Z 0) NOISE 1 draws true
           afterFirstFrame); reflexivity.
Defined.

(** ** Distance and the per-pixel update *)

Section Distance.
Context {R : Type} {SR : Scalar R}.



End Distance.


(** C7 fails at the sampling step 65536: [(samplingStep * samplingStep)]
    is a product of two [unsigned] and wraps to 0, so the reseed stores
    10 * 10 / 0 = +infinity as [distanceFactor] where the claim has
    100 / 2^32.  For the centre that the blob detector places at (5, 5)
    and the pixel (3, 3) the claim's formula gives a finite distance, below
    [DBL_MAX]; [computeDistance] returns +infinity, which is not below
    [DBL_MAX], so no pixel can be assigned to the centre; at the centre's
    own position it returns NaN. *)
Theorem distanceFactor_square_overflows :
  createSuperpixels 8 oneBlob ascending gray12 65536 10 1 (of_Z 0)
    FIXED_ITERATIONS ADD_SUPERPIXELS 1 draws false SLIC_new = Some overflowFrame /\
  wrapU32 (65536 * 65536) = 0 /\
  clusterCentres overflowFrame = [of_Z 0; of_Z 0; of_Z 0; of_Z 5; of_Z 5] /\
  distanceFactor overflowFrame = infinity /\
  (combinedDistanceSpec (spatialFactorSpec 10 65536) (of_Z 0) (of_Z 0) (of_Z 0)
     (of_Z 5) (of_Z 5) (3, 3) (at_ gray12 3 3) <. (DBL_MAX : double)) = true /\
  computeDistance overflowFrame 0 (3, 3) (at_ gray12 3 3) = infinity /\
  (computeDistance overflowFrame 0 (3, 3) (at_ gray12 3 3) <. DBL_MAX) = false /\
  computeDistance overflowFrame 0 (5, 5) (at_ gray12 5 5) = nan.
Proof.
  split; [vm_compute; reflexivity |]. split; [reflexivity |].
  split; [vm_compute; reflexivity |]. split; [vm_compute; reflexivity |].
  split; [vm_compute; reflexivity |]. split; [vm_compute; reflexivity |].
  split; [vm_compute; reflexivity | vm_compute; reflexivity].
Qed.

(** ** Seeding *)

Lemma forLoop_lower (fuel : nat) (i step x : Z) (cond : Z -> bool) :
  0 <= step -> x ∈ forLoop fuel i cond step -> i <= x.
Proof.
  intros Hstep. revert i. induction fuel as [|fuel IH]; intros i; simpl.
  { by intros ?%not_elem_of_nil. }
  destruct (cond i); [| by intros ?%not_elem_of_nil].
  intros [-> | Hin%IH]%elem_of_cons; lia.
Qed.

Lemma NoDup_forLoop (fuel : nat) (i step : Z) (cond : Z -> bool) :
  1 <= step -> NoDup (forLoop fuel i cond step).
Proof.
  intros Hstep. revert i. induction fuel as [|fuel IH]; intros i; simpl.
  { constructor. }
  destruct (cond i); [| constructor].
  constructor; [| apply IH].
  intros Hin%forLoop_lower; lia.
Qed.

Lemma elem_of_forLoop_step (fuel : nat) (i step bound x : Z) :
  1 <= step -> (Z.to_nat (bound - i) <= fuel)%nat ->
  x ∈ forLoop fuel i (fun n => n <? bound) step
  <-> exists k, 0 <= k /\ x = i + k * step /\ x < bound.
Proof.
  intros Hstep. revert i. induction fuel as [|fuel IH]; intros i Hfuel; simpl.
  - split; [by intros ?%not_elem_of_nil |]. intros (k & Hk & -> & Hlt). nia.
  - destruct (Z.ltb_spec i bound) as [Hlt | Hge].
    + rewrite elem_of_cons, IH by lia. split.
      * intros [-> | (k & Hk & -> & Hx)].
        -- exists 0. lia.
        -- exists (k + 1). split; [lia |]. split; [ring | lia].
      * intros (k & Hk & -> & Hx).
        destruct (decide (k = 0)) as [-> | Hne]; [left; lia |].
        right. exists (k - 1). split; [lia |]. split; [ring | lia].
    + split; [by intros ?%not_elem_of_nil |]. intros (k & Hk & -> & Hx). nia.
Qed.

Lemma elem_of_gridLine (samplingStep bound x : Z) :
  1 <= samplingStep ->
  x ∈ gridLine samplingStep bound
  <-> exists k, 0 < k /\ x = k * samplingStep /\ x < bound.
Proof.
  intros HS. unfold gridLine. rewrite elem_of_forLoop_step by lia. split.
  - intros (k & Hk & -> & Hx). exists (k + 1). split; [lia |]. split; [ring | lia].
  - intros (k & Hk & -> & Hx). exists (k - 1). split; [lia |]. split; [ring | lia].
Qed.

Lemma elem_of_gridPoints (image : Mat) (samplingStep : Z) (p : Point) :
  1 <= samplingStep ->
  p ∈ gridPoints image samplingStep <-> gridPointSpec image samplingStep p.
Proof.
  intros HS. unfold gridPoints, gridPointSpec. rewrite list_elem_of_In, in_flat_map.
  destruct p as [x y]. simpl. split.
  - intros (y' & Hy & Hx). apply list_elem_of_In, elem_of_gridLine in Hy; [| done].
    apply list_elem_of_In, list_elem_of_fmap in Hx as (x' & [= -> ->] & Hx).
    apply elem_of_gridLine in Hx; [| done].
    destruct Hx as (i & ? & ? & ?), Hy as (j & ? & ? & ?). by exists i, j.
  - intros (i & j & Hi & Hj & -> & -> & Hx & Hy). exists (j * samplingStep). split.
    + apply list_elem_of_In, elem_of_gridLine; [done |]. by exists j.
    + apply list_elem_of_In, list_elem_of_fmap. exists (i * samplingStep).
      split; [done |]. apply elem_of_gridLine; [done |]. by exists i.
Qed.

Lemma elem_of_around (c bound i : Z) :
  i ∈ around c bound <-> c - 1 <= i <= c + 1 /\ i < bound - 1.
Proof.
  unfold around. simpl.
  repeat match goal with
  | |- context [?a <=? ?b] => destruct (Z.leb_spec a b); simpl
  | |- context [?a <? ?b] => destruct (Z.ltb_spec a b); simpl
  end;
  rewrite ?elem_of_cons, ?elem_of_nil; lia.
Qed.

(** The positions scanned by [findLowestGradient], in scan order. *)
Lemma fold_row {A} (f : Z -> A -> Z -> A) (xs : list Z) (y : Z) (a : A) :
  fold_left (f y) xs a
  = fold_left (fun acc (q : Point) => f q.2 acc q.1) (map (fun x => (x, y)) xs) a.
Proof.
  revert a. induction xs as [|x xs IH]; intros a; simpl; [done |]. by rewrite IH.
Qed.

Lemma fold_nested {A} (f : Z -> A -> Z -> A) (xs ys : list Z) (a : A) :
  fold_left (fun acc y => fold_left (f y) xs acc) ys a
  = fold_left (fun acc (q : Point) => f q.2 acc q.1)
      (flat_map (fun y => map (fun x => (x, y)) xs) ys) a.
Proof.
  revert a. induction ys as [|y ys IH]; intros a; simpl; [done |].
  by rewrite fold_left_app, <- IH, <- fold_row.
Qed.

Lemma byteImage_at (image : Mat) (y x : Z) :
  byteImage image = true -> 0 <= val0 (at_ image y x) < 256.
Proof.
  intros Hb. unfold at_, vget.
  destruct (_ <? 0); [by cbv |].
  unfold byteImage in Hb. rewrite forallb_forall in Hb.
  destruct (@nth_in_or_default (Z * Z * Z)%type
              (Z.to_nat (y * cols image + x)) (pix image) (0, 0, 0))
    as [Hin | ->]; [| by cbv].
  specialize (Hb _ Hin). unfold isByte in Hb.
  rewrite !andb_true_iff, !Z.leb_le, !Z.ltb_lt in Hb. lia.
Qed.

Lemma gradient_spec (image : Mat) (x y : Z) :
  byteImage image = true ->
  gradient image x y = gradientSpec image (x, y) /\ gradient image x y < UINT_MAX.
Proof.
  intros Hb. unfold gradient, gradientSpec, wrapU32, UINT_MAX. cbn [fst snd].
  pose proof (byteImage_at image y (x + 1) Hb).
  pose proof (byteImage_at image y (x - 1) Hb).
  pose proof (byteImage_at image (y - 1) x Hb).
  pose proof (byteImage_at image (y + 1) x Hb).
  set (a := val0 (at_ image y (x + 1)) - val0 (at_ image y (x - 1))).
  set (b := val0 (at_ image (y - 1) x) - val0 (at_ image (y + 1) x)).
  assert (-255 <= a <= 255) by (subst a; lia).
  assert (-255 <= b <= 255) by (subst b; lia).
  clearbody a b.
  assert (0 <= a * a <= 65025) by nia.
  assert (0 <= b * b <= 65025) by nia.
  rewrite !Z.pow_2_r. change (2 ^ 32) with 4294967296.
  rewrite Z.mod_small; lia.
Qed.

Lemma lowestStep_cases (image : Mat) (x y g0 : Z) (p0 : Point) :
  (lowestStep image y (g0, p0) x = (g0, p0)
   /\ (x < 1 \/ y < 1 \/ g0 <= gradient image x y))
  \/ (lowestStep image y (g0, p0) x = (gradient image x y, (x, y))
      /\ 1 <= x /\ 1 <= y /\ gradient image x y < g0).
Proof.
  unfold lowestStep. simpl.
  destruct (Z.ltb_spec x 1); simpl; [left; split; [done | lia] |].
  destruct (Z.ltb_spec y 1); simpl; [left; split; [done | lia] |].
  destruct (Z.ltb_spec (gradient image x y) g0).
  - right. repeat split; lia.
  - left. split; [done | lia].
Qed.

Lemma lowest_fold (image : Mat) (l : list Point) (g0 g : Z) (p0 p : Point) :
  fold_left (fun acc (q : Point) => lowestStep image q.2 acc q.1) l (g0, p0) = (g, p) ->
  (g <= g0 /\
   forall q, q ∈ l -> 1 <= q.1 -> 1 <= q.2 -> g <= gradient image q.1 q.2) /\
  ((g, p) = (g0, p0) \/
   (p ∈ l /\ 1 <= p.1 /\ 1 <= p.2 /\ g = gradient image p.1 p.2 /\ g < g0)).
Proof.
  revert g0 p0. induction l as [|[x y] l IH]; intros g0 p0 Hfold; simpl in Hfold.
  { inversion Hfold; subst. split; [split; [lia | by intros q ?%not_elem_of_nil] |].
    by left. }
  destruct (lowestStep_cases image x y g0 p0) as [[Hstep Hskip] | (Hstep & Hx & Hy & Hlt)];
    rewrite Hstep in Hfold; apply IH in Hfold as [[Hle Hmin] Hwho].
  - split; [split; [done |] |].
    + intros q [-> | Hin]%elem_of_cons; simpl; [lia | by apply Hmin].
    + destruct Hwho as [? | (? & ? & ? & ? & ?)]; [by left | right].
      repeat split; try done. apply elem_of_cons. by right.
  - split; [split; [lia |] |].
    + intros q [-> | Hin]%elem_of_cons; simpl; [lia | by apply Hmin].
    + right. destruct Hwho as [[= -> ->] | (? & ? & ? & ? & ?)].
      * repeat split; try done. apply elem_of_cons. by left.
      * repeat split; try done; [| lia]. apply elem_of_cons. by right.
Qed.

Lemma elem_of_scan (image : Mat) (p q : Point) :
  q ∈ flat_map (fun y => map (fun x => (x, y)) (around p.1 (cols image)))
        (around p.2 (rows image))
  <-> p.1 - 1 <= q.1 <= p.1 + 1 /\ q.1 < cols image - 1 /\
      p.2 - 1 <= q.2 <= p.2 + 1 /\ q.2 < rows image - 1.
Proof.
  rewrite list_elem_of_In, in_flat_map. destruct q as [x y]. simpl. split.
  - intros (y' & Hy%list_elem_of_In%elem_of_around
                 & (x' & [= -> ->] & Hx%elem_of_around)%list_elem_of_In%list_elem_of_fmap).
    lia.
  - intros (Hx1 & Hx2 & Hy1 & Hy2). exists y. split.
    + apply list_elem_of_In, elem_of_around. lia.
    + apply list_elem_of_In, list_elem_of_fmap. exists x. split; [done |].
      apply elem_of_around. lia.
Qed.

(** The pixel returned is a candidate of lowest gradient, when there is a
    candidate at all. *)
Lemma findLowestGradient_lowest (image : Mat) (p q : Point) :
  byteImage image = true -> candidate image p q ->
  candidate image p (findLowestGradient image p) /\
  gradientSpec image (findLowestGradient image p) <= gradientSpec image q.
Proof.
  intros Hb (Hqx & Hqy & Hcx & Hcy). unfold findLowestGradient.
  rewrite fold_nested.
  destruct (fold_left _ _ _) as [g r] eqn:Hfold. simpl.
  apply lowest_fold in Hfold as [[_ Hmin] Hwho].
  assert (Hq : q ∈ flat_map (fun y => map (fun x => (x, y)) (around p.1 (cols image)))
                     (around p.2 (rows image))) by (apply elem_of_scan; lia).
  specialize (Hmin q Hq ltac:(lia) ltac:(lia)).
  destruct (gradient_spec image q.1 q.2 Hb) as [Hgq Hbound].
  destruct Hwho as [[= -> ->] | (Hin & Hx & Hy & Hg & _)]; [lia |].
  apply elem_of_scan in Hin. split.
  - unfold candidate. lia.
  - destruct (gradient_spec image r.1 r.2 Hb) as [Hgr _].
    rewrite Hg, Hgr, Hgq in Hmin. by destruct q, r.
Qed.

Lemma NoDup_grid (xs ys : list Z) :
  NoDup xs -> NoDup ys ->
  NoDup (flat_map (fun y => map (fun x => (x, y)) xs) ys).
Proof.
  intros Hxs Hys. induction Hys as [|y ys Hnotin Hys IH]; simpl; [constructor |].
  apply NoDup_app. split; [| split; [| done]].
  - assert (Hinj : Inj (=) (=) (fun x : Z => (x, y))) by (by intros x1 x2 [= ->]).
    by apply (NoDup_fmap_2 (fun x : Z => (x, y))).
  - intros [x' y'] (x & [= -> ->] & _)%list_elem_of_fmap
                   (y2 & Hy2 & Hin)%list_elem_of_In%in_flat_map.
    apply list_elem_of_In, list_elem_of_fmap in Hin as (x2 & [= -> ->] & _).
    by apply Hnotin, list_elem_of_In.
Qed.

Section Seeding.
Context {R : Type} {SR : Scalar R}.

Lemma fold_seedCentre (image : Mat) (l : list Point) (s : @SLIC R) :
  let s' := fold_left (seedCentre image) l s in
  clusterCentres s'
  = clusterCentres s ++ flat_map (fun p => centreAt image (findLowestGradient image p)) l /\
  length (pixelsOfSameCluster s') = (length (pixelsOfSameCluster s) + length l)%nat.
Proof.
  revert s. induction l as [|p l IH]; intros s; simpl.
  { by rewrite app_nil_r, Nat.add_0_r. }
  destruct (IH (seedCentre image s p)) as [-> ->]. simpl.
  rewrite <- app_assoc. unfold push_back. rewrite length_app. simpl.
  split; [done | lia].
Qed.

(** C8: on a full reseed with step [S >= 1] the seeding loops visit the
    points [(i * S, j * S)], [i, j > 0], strictly inside the image, each
    once; the Centre Store holds, in that order, one centre per grid point
    with the colour and position of the pixel [findLowestGradient]
    returns, which is a pixel of lowest gradient among the non-border
    pixels of the 3x3 block of the grid point (when there is one); the
    cluster count is the number of grid points; a 100 x 100 image with
    step 20 gets the 16 grid points of a 4 x 4 grid. *)
Theorem seeder_places_grid (image : Mat) (samplingStep spatialDistanceWeight : Z)
    (errorThreshold : R) (s : @SLIC R) :
  1 <= samplingStep -> byteImage image = true ->
  let s' := fullReseed image samplingStep spatialDistanceWeight errorThreshold s in
  (forall p, p ∈ gridPoints image samplingStep <-> gridPointSpec image samplingStep p) /\
  NoDup (gridPoints image samplingStep) /\
  clusterCentres s'
  = flat_map (fun p => centreAt image (findLowestGradient image p))
      (gridPoints image samplingStep) /\
  clustersNumber s' = Z.of_nat (length (gridPoints image samplingStep)) /\
  (forall p q, candidate image p q ->
     candidate image p (findLowestGradient image p) /\
     gradientSpec image (findLowestGradient image p) <= gradientSpec image q) /\
  (rows image = 100 -> cols image = 100 -> samplingStep = 20 ->
   clustersNumber s' = 16 /\
   gridPoints image samplingStep
   = [(20, 20); (40, 20); (60, 20); (80, 20); (20, 40); (40, 40); (60, 40); (80, 40);
      (20, 60); (40, 60); (60, 60); (80, 60); (20, 80); (40, 80); (60, 80); (80, 80)]).
Proof.
  intros HS Hb s'.
  assert (Hcentres : clusterCentres s'
    = flat_map (fun p => centreAt image (findLowestGradient image p))
        (gridPoints image samplingStep)
    /\ clustersNumber s' = Z.of_nat (length (gridPoints image samplingStep))).
  { subst s'. unfold fullReseed. simpl.
    match goal with
    | |- context [fold_left (seedCentre image) ?l ?s0] =>
        destruct (fold_seedCentre image l s0) as [Hcc Hlen]
    end.
    rewrite Hcc, Hlen. simpl. split; [done | lia]. }
  destruct Hcentres as [Hcc HK].
  split; [intros p; by apply elem_of_gridPoints |].
  split; [apply NoDup_grid; apply NoDup_forLoop; lia |].
  split; [done |]. split; [done |].
  split; [intros p q; by apply findLowestGradient_lowest |].
  intros Hrows Hcols ->. rewrite HK. unfold gridPoints. rewrite Hrows, Hcols.
  split; reflexivity.
Qed.

End Seeding.

Lemma seeder_places_grid_witness :
  1 <= 20 /\ byteImage gray100 = true /\
  clustersNumber (fullReseed gray100 20 10 (of_Z 0) (@SLIC_new double _)) = 16.
Proof.
  assert (Hstep : 1 <= 20) by lia.
  assert (Hbytes : byteImage gray100 = true) by (vm_compute; reflexivity).
  split; [done |]. split; [done |].
  pose proof (seeder_places_grid gray100 20 10 (of_Z 0) (@SLIC_new double _)
                Hstep Hbytes) as Hseed.
  cbv zeta in Hseed. destruct Hseed as (_ & _ & _ & _ & _ & Hgrid).
  apply Hgrid; reflexivity.
Defined.

(** On the uniform frame every gradient is zero and the scan keeps the
    first candidate, the upper-left neighbour of the grid point. *)
Example uniform_frame_seeds :
  map (findLowestGradient gray100) (gridPoints gray100 20)
  = [(19, 19); (39, 19); (59, 19); (79, 19); (19, 39); (39, 39); (59, 39); (79, 39);
     (19, 59); (39, 59); (59, 59); (79, 59); (19, 79); (39, 79); (59, 79); (79, 79)].
Proof. vm_compute. reflexivity. Qed.

(** ** What the phases of an iteration leave alone *)

Lemma fold_left_preserves {A B C} (proj : A -> C) (f : A -> B -> A) (l : list B) (a : A) :
  (forall a b, proj (f a b) = proj a) -> proj (fold_left f l a) = proj a.
Proof.
  intros Hf. revert a. induction l as [|b l IH]; intros a; simpl; [done |].
  by rewrite IH, Hf.
Qed.

Section Frame.
Context {R : Type} {SR : Scalar R}.

(** The scalars and the Centre Store are not written by a visit. *)
Lemma visit_frame (image : Mat) (videoMode : VideoElaborationMode) (c : Z)
    (s : @SLIC R) (p : Point) :
  let s' := visit image videoMode c s p in
  iterationIndex s' = iterationIndex s /\ clustersNumber s' = clustersNumber s /\
  pixelsNumber s' = pixelsNumber s /\ totalResidualError s' = totalResidualError s /\
  clusterCentres s' = clusterCentres s /\ distanceFactor s' = distanceFactor s.
Proof.
  unfold visit. simpl.
  destruct (inImage image p); [| done].
  destruct (isAddSuperpixelsMode videoMode); simpl;
    match goal with |- context [if ?b then _ else _] => by destruct b end.
Qed.

Lemma scanCentre_frame (image : Mat) (samplingStep : Z)
    (videoMode : VideoElaborationMode) (s : @SLIC R) (c : Z) :
  let s' := scanCentre image samplingStep videoMode s c in
  iterationIndex s' = iterationIndex s /\ clustersNumber s' = clustersNumber s /\
  pixelsNumber s' = pixelsNumber s /\ totalResidualError s' = totalResidualError s /\
  clusterCentres s' = clusterCentres s /\ distanceFactor s' = distanceFactor s.
Proof.
  unfold scanCentre. simpl.
  repeat split; apply (fold_left_preserves _ (visit image videoMode c));
    intros a b; apply (visit_frame image videoMode c a b).
Qed.

Lemma assignmentStep_frame (image : Mat) (samplingStep : Z)
    (videoMode : VideoElaborationMode) (order : list Z) (s : @SLIC R) :
  let s' := assignmentStep image samplingStep videoMode order s in
  iterationIndex s' = iterationIndex s /\ clustersNumber s' = clustersNumber s /\
  pixelsNumber s' = pixelsNumber s /\ totalResidualError s' = totalResidualError s /\
  clusterCentres s' = clusterCentres s /\ distanceFactor s' = distanceFactor s.
Proof.
  unfold assignmentStep. simpl.
  repeat split;
    rewrite (fold_left_preserves _ (scanCentre image samplingStep videoMode));
    try done; intros a b; apply (scanCentre_frame image samplingStep videoMode a b).
Qed.

Lemma residualOf_frame (s : @SLIC R) (c : Z) :
  let s' := residualOf s c in
  iterationIndex s' = iterationIndex s /\ clustersNumber s' = clustersNumber s /\
  pixelsNumber s' = pixelsNumber s /\ pixelCluster s' = pixelCluster s.
Proof. done. Qed.

(** The update step writes neither the counters nor the Assignment
    Map. *)
Lemma updateStep_frame (image : Mat) (s : @SLIC R) :
  let s' := updateStep image s in
  iterationIndex s' = iterationIndex s /\ clustersNumber s' = clustersNumber s /\
  pixelsNumber s' = pixelsNumber s /\ pixelCluster s' = pixelCluster s.
Proof.
  unfold updateStep, updateError. cbv zeta.
  set (s1 := recomputeCentres image s).
  assert (H1 : iterationIndex s1 = iterationIndex s /\ clustersNumber s1 = clustersNumber s /\
               pixelsNumber s1 = pixelsNumber s /\ pixelCluster s1 = pixelCluster s)
    by (repeat split; reflexivity).
  destruct H1 as (Hi & Hk & Hp & Hc). rewrite <- Hi, <- Hk, <- Hp, <- Hc.
  clearbody s1. clear Hi Hk Hp Hc.
  destruct (iterationIndex s1 =? 0); [done |]. simpl.
  repeat split; apply (fold_left_preserves _ residualOf); intros a b;
    apply (residualOf_frame a b).
Qed.

(** Orphan recovery writes neither the iteration counter, the residual
    error nor the Assignment Map, and does not lower the cluster count. *)
Lemma orphanRecovery_frame (blobMoments : Z -> Z -> list Z -> list (@Moments R))
    (image : Mat) (s : @SLIC R) :
  let s' := orphanRecovery blobMoments image s in
  iterationIndex s' = iterationIndex s /\
  totalResidualError s' = totalResidualError s /\
  pixelCluster s' = pixelCluster s /\
  clustersNumber s <= clustersNumber s'.
Proof.
  unfold orphanRecovery. cbv zeta.
  generalize (blobMoments (rows image) (cols image) (pixelReachedByClusters s)).
  intros l. revert s. induction l as [|mu l IH]; intros s; simpl; [repeat split; lia |].
  destruct (IH (spawnCentre s mu)) as (-> & -> & -> & Hle).
  unfold spawnCentre in * . destruct (m00 mu ==. of_Z 0); simpl in * ; repeat split; lia.
Qed.

End Frame.

(** ** Loop control *)

Section LoopControl.
Context {R : Type} {SR : Scalar R} {SO : ScalarOrder R}.

(** C4, as the code has it: the blob detector runs only in a round that
    the termination test judges final, and the loop ends with that very
    round, whatever the number of centres spawned: the state returned is
    the state after orphan recovery with the round counted, so no
    assignment or update follows in this frame.  In a round where the
    test of the blob detector fails nothing is spawned and [go] is set. *)
Theorem orphan_recovery_ends_loop (fuel : nat)
    (blobMoments : Z -> Z -> list Z -> list (@Moments R)) (sched : list Z -> list Z)
    (image : Mat) (samplingStep iterationNumber : Z) (errorThreshold : R)
    (SLICMode : SLICElaborationMode) (videoMode : VideoElaborationMode)
    (s : @SLIC R) (go : bool) :
  0 <= iterationNumber < 2 ^ 32 ->
  0 <= iterationIndex s -> iterationIndex s + 1 < 2 ^ 32 ->
  let s2 := updateStep image
              (assignmentStep image samplingStep videoMode
                 (sched (upTo (clustersNumber s))) s) in
  let r := iteration blobMoments sched image samplingStep iterationNumber
             errorThreshold SLICMode videoMode s go in
  (orphanCondition iterationNumber errorThreshold SLICMode videoMode s2 = true ->
   r.1 = set_iterationIndex (iterationIndex s + 1) (orphanRecovery blobMoments image s2) /\
   continueLoop iterationNumber errorThreshold SLICMode r.1 = false /\
   doWhile (S fuel) blobMoments sched image samplingStep iterationNumber
     errorThreshold SLICMode videoMode s go = Some r.1) /\
  (orphanCondition iterationNumber errorThreshold SLICMode videoMode s2 = false ->
   r = (set_iterationIndex (iterationIndex s + 1) s2, true)).
Proof.
  intros HN Hlo Hhi s2 r.
  assert (Hidx : iterationIndex s2 = iterationIndex s).
  { subst s2. destruct (updateStep_frame image
      (assignmentStep image samplingStep videoMode (sched (upTo (clustersNumber s))) s))
      as (-> & _).
    by destruct (assignmentStep_frame image samplingStep videoMode
                   (sched (upTo (clustersNumber s))) s) as (-> & _). }
  assert (Hwrap : wrapU32 (iterationIndex s + 1) = iterationIndex s + 1).
  { unfold wrapU32. apply Z.mod_small. lia. }
  split.
  - intros Horphan.
    destruct (orphanRecovery_frame blobMoments image s2) as (Hi & Ht & _ & _).
    assert (Hr : r.1 = set_iterationIndex (iterationIndex s + 1)
                         (orphanRecovery blobMoments image s2)).
    { subst r. unfold iteration. fold s2. rewrite Horphan. simpl.
      by rewrite Hi, Hidx, Hwrap. }
    assert (Hstop : continueLoop iterationNumber errorThreshold SLICMode r.1 = false).
    { rewrite Hr. unfold continueLoop. simpl. rewrite Ht.
      unfold orphanCondition in Horphan.
      apply andb_prop in Horphan as [[_ Hfinal]%andb_prop _].
      apply orb_prop in Hfinal as [[Hlt Hmode]%andb_prop | [Hge Hmode]%andb_prop].
      - rewrite (rltb_asym _ _ Hlt). destruct SLICMode; [| done]. simpl.
        by rewrite andb_false_r.
      - rewrite Hidx in Hge. apply Z.leb_le in Hge.
        destruct SLICMode; [done |]. simpl. rewrite andb_false_r, andb_true_r. simpl.
        apply Z.ltb_ge. unfold wrapU32 in Hge.
        destruct (decide (iterationNumber = 0)) as [-> | Hne]; [lia |].
        rewrite Z.mod_small in Hge; lia. }
    split; [done |]. split; [done |].
    cbn [doWhile]. fold r. by rewrite Hstop.
  - intros Hno. subst r. unfold iteration. fold s2. rewrite Hno. simpl.
    by rewrite Hidx, Hwrap.
Qed.

End LoopControl.

Lemma orphan_recovery_ends_loop_witness :
  let s := (secondFrameRound (secondFrameStart, false)).1 in
  let s2 := updateStep gray12
              (assignmentStep gray12 1 ADD_SUPERPIXELS
                 (ascending (upTo (clustersNumber s))) s) in
  let r := iteration oneBlob ascending gray12 1 2 (of_Z 0) FIXED_ITERATIONS
             ADD_SUPERPIXELS s true in
  orphanCondition 2 (of_Z 0) FIXED_ITERATIONS ADD_SUPERPIXELS s2 = true /\
  doWhile 1 oneBlob ascending gray12 1 2 (of_Z 0) FIXED_ITERATIONS ADD_SUPERPIXELS
    s true = Some r.1.
Proof.
  cbv zeta.
  set (s := (secondFrameRound (secondFrameStart, false)).1).
  assert (Horphan : orphanCondition 2 (of_Z 0) FIXED_ITERATIONS ADD_SUPERPIXELS
    (updateStep gray12
       (assignmentStep gray12 1 ADD_SUPERPIXELS
          (ascending (upTo (clustersNumber s))) s)) = true)
    by (vm_compute; reflexivity).
  split; [exact Horphan |].
  assert (HN : 0 <= 2 < 2 ^ 32) by (split; [lia | reflexivity]).
  assert (Hlo : 0 <= iterationIndex s) by (vm_compute; discriminate).
  assert (Hhi : iterationIndex s + 1 < 2 ^ 32) by (vm_compute; reflexivity).
  pose proof (orphan_recovery_ends_loop 0 oneBlob ascending gray12 1 2 (of_Z 0)
                FIXED_ITERATIONS ADD_SUPERPIXELS s true HN Hlo Hhi) as Hloop.
  cbv zeta in Hloop. destruct Hloop as [Hloop _].
  destruct (Hloop Horphan) as (_ & _ & Hdone). exact Hdone.
Defined.

(** C4 as stated fails: in the second frame the blob detector runs in the
    second round (index 1, the last of two) and spawns the fifth centre;
    the claim then has a third assign/update round, but the loop has ended:
    two rounds of fuel suffice, the round counter is 2 and the spawned
    centre has not been given a pixel. *)
Lemma orphan_recovery_no_further_iteration :
  let r1 := secondFrameRound (secondFrameStart, false) in
  let r2 := secondFrameRound r1 in
  clustersNumber r1.1 = 4 /\ clustersNumber r2.1 = 5 /\
  secondFrameLoop 2 = Some r2.1 /\
  iterationIndex r2.1 = 2 /\
  pixelsOfSameCluster r2.1 = [36; 36; 36; 36; 0] /\
  ~ In 4 (pixelCluster r2.1).
Proof.
  cbv zeta.
  split; [vm_compute; reflexivity |]. split; [vm_compute; reflexivity |].
  split; [vm_compute; reflexivity |]. split; [vm_compute; reflexivity |].
  split; [vm_compute; reflexivity |].
  intros Hin. vm_compute in Hin.
  repeat destruct Hin as [Hin | Hin]; discriminate || done.
Qed.

(** ** The Assignment Map holds "unassigned" or a centre index *)

Lemma fold_left_invariant {A B} (P : A -> Prop) (f : A -> B -> A) (l : list B) (a : A) :
  (forall a b, b ∈ l -> P a -> P (f a b)) -> P a -> P (fold_left f l a).
Proof.
  revert a. induction l as [|b l IH]; intros a Hf Ha; simpl; [done |].
  apply IH.
  - intros a' b' Hb'. apply Hf, elem_of_cons. by right.
  - apply Hf; [apply elem_of_cons; by left | done].
Qed.

Lemma Forall_vset {A} (P : A -> Prop) (v : list A) (i : Z) (a : A) :
  Forall P v -> P a -> Forall P (vset v i a).
Proof.
  intros Hv Ha. unfold vset. destruct (i <? 0); [done |]. by apply Forall_insert.
Qed.

Lemma Forall_vget {A} (P : A -> Prop) (d : A) (v : list A) (i : Z) :
  Forall P v -> P d -> P (vget d v i).
Proof.
  intros Hv Hd. unfold vget. destruct (i <? 0); [done |].
  destruct (nth_in_or_default (Z.to_nat i) v d) as [Hin | ->]; [| done].
  rewrite Forall_forall in Hv. by apply Hv, list_elem_of_In.
Qed.

Section Validity.
Context {R : Type} {SR : Scalar R}.

Lemma assignmentValidb_true (s : @SLIC R) :
  assignmentValidb s = true -> assignmentValid s.
Proof.
  unfold assignmentValidb, assignmentValid.
  intros [HK Hall]%andb_prop. split; [lia |].
  rewrite forallb_forall in Hall. apply Forall_forall. intros v Hv%list_elem_of_In.
  specialize (Hall v Hv). lia.
Qed.

Lemma assignmentValid_new : assignmentValid (@SLIC_new R _).
Proof. split; [done | constructor]. Qed.

Lemma assignmentValid_eq (s s' : @SLIC R) :
  clustersNumber s <= clustersNumber s' -> pixelCluster s' = pixelCluster s ->
  assignmentValid s -> assignmentValid s'.
Proof.
  intros HK Hpc [Hpos Hall]. split; [lia |]. rewrite Hpc.
  eapply Forall_impl; [exact Hall |]. simpl. lia.
Qed.

Lemma initializeSLICData_valid (image : Mat) (samplingStep spatialDistanceWeight : Z)
    (errorThreshold : R) (videoMode : VideoElaborationMode) (keyFramesRatio : Z)
    (randomGen : nat -> R) (connectedFrames : bool) (s : @SLIC R) :
  assignmentValid s ->
  assignmentValid
    (initializeSLICData image samplingStep spatialDistanceWeight errorThreshold
       videoMode keyFramesRatio randomGen connectedFrames s).
Proof.
  intros Hs. unfold initializeSLICData.
  set (s1 := if mustReseed _ _ _ _ then _ else _).
  assert (H1 : assignmentValid s1).
  { subst s1. destruct (mustReseed _ _ _ _).
    - unfold fullReseed, assignmentValid. simpl. split; [lia |].
      rewrite (fold_left_preserves pixelCluster (seedCentre image)) by done.
      simpl. apply Forall_replicate. by left.
    - destruct (isNoiseMode videoMode); [| done].
      by apply (assignmentValid_eq s). }
  destruct (isAddSuperpixelsMode videoMode); by apply (assignmentValid_eq s1).
Qed.

Lemma visit_valid (image : Mat) (videoMode : VideoElaborationMode) (c : Z)
    (s : @SLIC R) (p : Point) :
  0 <= c < clustersNumber s -> assignmentValid s ->
  assignmentValid (visit image videoMode c s p).
Proof.
  intros Hc [Hpos Hall]. unfold visit.
  destruct (inImage image p); [| done].
  destruct (isAddSuperpixelsMode videoMode); simpl;
    match goal with |- context [if ?b then _ else _] => destruct b end;
    split; simpl; try done; apply Forall_vset; (done || by right).
Qed.

Lemma assignmentStep_valid (image : Mat) (samplingStep : Z)
    (videoMode : VideoElaborationMode) (order : list Z) (s : @SLIC R) :
  (forall c, c ∈ order -> 0 <= c < clustersNumber s) ->
  assignmentValid s ->
  assignmentValid (assignmentStep image samplingStep videoMode order s).
Proof.
  intros Horder Hs. unfold assignmentStep.
  apply (fold_left_invariant
           (fun a => clustersNumber a = clustersNumber s /\ assignmentValid a)
           (scanCentre image samplingStep videoMode)); [| done].
  intros a c Hc [HK Ha]. unfold scanCentre.
  apply (fold_left_invariant
           (fun a => clustersNumber a = clustersNumber s /\ assignmentValid a)
           (visit image videoMode c)); [| done].
  intros a' p _ [HK' Ha']. split.
  - by destruct (visit_frame image videoMode c a' p) as (_ & -> & _).
  - apply visit_valid; [| done]. rewrite HK'. by apply Horder.
Qed.

Lemma updateStep_valid (image : Mat) (s : @SLIC R) :
  assignmentValid s -> assignmentValid (updateStep image s).
Proof.
  destruct (updateStep_frame image s) as (_ & HK & _ & Hpc).
  apply assignmentValid_eq; [lia | done].
Qed.

Lemma orphanRecovery_valid (blobMoments : Z -> Z -> list Z -> list (@Moments R))
    (image : Mat) (s : @SLIC R) :
  assignmentValid s -> assignmentValid (orphanRecovery blobMoments image s).
Proof.
  destruct (orphanRecovery_frame blobMoments image s) as (_ & _ & Hpc & HK).
  by apply assignmentValid_eq.
Qed.

(** The end of a round, from the state the update step leaves. *)
Lemma iteration_tail (blobMoments : Z -> Z -> list Z -> list (@Moments R))
    (sched : list Z -> list Z) (image : Mat) (samplingStep iterationNumber : Z)
    (errorThreshold : R) (SLICMode : SLICElaborationMode)
    (videoMode : VideoElaborationMode) (s : @SLIC R) (go : bool) :
  iteration blobMoments sched image samplingStep iterationNumber errorThreshold
    SLICMode videoMode s go
  = roundTail blobMoments image iterationNumber errorThreshold SLICMode videoMode
      (updateStep image
         (assignmentStep image samplingStep videoMode
            (sched (upTo (clustersNumber s))) s)) go.
Proof. reflexivity. Qed.

Lemma roundTail_valid (blobMoments : Z -> Z -> list Z -> list (@Moments R))
    (image : Mat) (iterationNumber : Z) (errorThreshold : R)
    (SLICMode : SLICElaborationMode) (videoMode : VideoElaborationMode)
    (s2 : @SLIC R) (go : bool) :
  assignmentValid s2 ->
  assignmentValid
    (roundTail blobMoments image iterationNumber errorThreshold SLICMode videoMode
       s2 go).1.
Proof.
  intros H2. unfold roundTail. cbv zeta.
  destruct (orphanCondition _ _ _ _ s2); cbn [fst snd].
  - apply (assignmentValid_eq (orphanRecovery blobMoments image s2));
      [reflexivity | reflexivity | by apply orphanRecovery_valid].
  - apply (assignmentValid_eq s2); [reflexivity | reflexivity | done].
Qed.

Lemma iteration_valid (blobMoments : Z -> Z -> list Z -> list (@Moments R))
    (sched : list Z -> list Z) (image : Mat) (samplingStep iterationNumber : Z)
    (errorThreshold : R) (SLICMode : SLICElaborationMode)
    (videoMode : VideoElaborationMode) (s : @SLIC R) (go : bool) :
  (forall l, Permutation (sched l) l) ->
  assignmentValid s ->
  assignmentValid
    (iteration blobMoments sched image samplingStep iterationNumber errorThreshold
       SLICMode videoMode s go).1.
Proof.
  intros Hsched Hs. rewrite iteration_tail.
  apply roundTail_valid, updateStep_valid, assignmentStep_valid; [| done].
  intros c Hc. apply elem_of_upTo. by rewrite <- (Hsched (upTo (clustersNumber s))).
Qed.

Lemma doWhile_valid (fuel : nat) (blobMoments : Z -> Z -> list Z -> list (@Moments R))
    (sched : list Z -> list Z) (image : Mat) (samplingStep iterationNumber : Z)
    (errorThreshold : R) (SLICMode : SLICElaborationMode)
    (videoMode : VideoElaborationMode) (s s' : @SLIC R) (go : bool) :
  (forall l, Permutation (sched l) l) ->
  assignmentValid s ->
  doWhile fuel blobMoments sched image samplingStep iterationNumber errorThreshold
    SLICMode videoMode s go = Some s' ->
  assignmentValid s'.
Proof.
  intros Hsched. revert s go. induction fuel as [|fuel IH]; intros s go Hs; simpl; [done |].
  pose proof (iteration_valid blobMoments sched image samplingStep iterationNumber
                errorThreshold SLICMode videoMode s go Hsched Hs) as Hr.
  destruct (continueLoop _ _ _ _ && _).
  - by apply IH.
  - by intros [= <-].
Qed.

(** X1: [createSuperpixels] keeps the invariant of the Assignment Map: if
    every entry is -1 or below [clustersNumber] before the call, and the
    first [parallel_for] runs each centre index once, the same holds of the
    object the call returns, in every video and termination mode. *)
Lemma createSuperpixels_valid (fuel : nat)
    (blobMoments : Z -> Z -> list Z -> list (@Moments R)) (sched : list Z -> list Z)
    (image : Mat) (samplingStep spatialDistanceWeight iterationNumber : Z)
    (errorThreshold : R) (SLICMode : SLICElaborationMode)
    (videoMode : VideoElaborationMode) (keyFramesRatio : Z)
    (randomGen : nat -> R) (connectedFrames : bool) (s s' : @SLIC R) :
  (forall l, Permutation (sched l) l) ->
  assignmentValid s ->
  createSuperpixels fuel blobMoments sched image samplingStep spatialDistanceWeight
    iterationNumber errorThreshold SLICMode videoMode keyFramesRatio randomGen
    connectedFrames s = Some s' ->
  assignmentValid s'.
Proof.
  intros Hsched Hs. unfold createSuperpixels. cbv zeta.
  destruct (doWhile _ _ _ _ _ _ _ _ _ _ _) as [s1|] eqn:Hloop; simpl; [| done].
  intros [= <-]. apply (assignmentValid_eq s1); [done | done |].
  apply doWhile_valid in Hloop; [done | done |].
  apply (assignmentValid_eq
           (initializeSLICData image samplingStep spatialDistanceWeight errorThreshold
              videoMode keyFramesRatio randomGen connectedFrames s)); [done | done |].
  by apply initializeSLICData_valid.
Qed.

End Validity.

Section Connectivity.
Context {R : Type} {SR : Scalar R}.

Lemma findAdjacent_valid (image : Mat) (K : Z) (new : list Z) (p : Point) (adjacent : Z) :
  0 < K -> Forall (entryOk K) new -> 0 <= adjacent < K ->
  0 <= findAdjacent image new p adjacent < K.
Proof.
  intros HK Hnew Hadj. unfold findAdjacent.
  apply (fold_left_invariant (fun a => 0 <= a < K)); [| done].
  intros a tempY _ Ha.
  destruct (find _ _) as [tempX|] eqn:Hfind; [| done].
  apply find_some in Hfind as [_ [_ Hlabelled]%andb_prop].
  apply negb_true_iff, Z.eqb_neq in Hlabelled.
  assert (Hok : entryOk K (vget 0 new (tempY * cols image + tempX))).
  { apply Forall_vget; [done | right; lia]. }
  destruct Hok; [done | lia].
Qed.

Lemma growStep_valid (image : Mat) (K : Z) (pixelCluster : list Z) (label : Z)
    (st : list Point * list Z) (q : Point) :
  entryOk K label -> Forall (entryOk K) st.2 ->
  Forall (entryOk K) (growStep image pixelCluster label st q).2.
Proof.
  intros Hlabel Hst. unfold growStep.
  destruct (_ && _); [| done]. simpl. by apply Forall_vset.
Qed.

Lemma growSegment_valid (fuel : nat) (image : Mat) (K : Z) (pixelCluster : list Z)
    (label : Z) (c : nat) (st st' : list Point * list Z) :
  entryOk K label -> Forall (entryOk K) st.2 ->
  growSegment fuel image pixelCluster label c st = Some st' ->
  Forall (entryOk K) st'.2.
Proof.
  intros Hlabel. revert c st.
  induction fuel as [|fuel IH]; intros c st Hst; cbn [growSegment]; [done |].
  destruct (st.1 !! c) as [p|]; [| by intros [= <-]].
  apply IH.
  apply (fold_left_invariant (fun a => Forall (entryOk K) a.2)); [| done].
  intros a q _ Ha. by apply growStep_valid.
Qed.

Lemma relabel_valid (image : Mat) (K : Z) (new : list Z) (segment : list Point)
    (adjacent : Z) :
  0 <= adjacent < K -> Forall (entryOk K) new ->
  Forall (entryOk K) (relabel image new segment adjacent).
Proof.
  intros Hadj Hnew. unfold relabel.
  apply (fold_left_invariant (fun a => Forall (entryOk K) a)); [| done].
  intros a q _ Ha. apply Forall_vset; [done | by right].
Qed.

Lemma connectPixel_valid (fuel : nat) (image : Mat) (K : Z) (pixelCluster : list Z)
    (average : Z) (st : option (list Z * Z)) (p : Point) :
  0 < K -> Forall (entryOk K) pixelCluster ->
  (forall st0, st = Some st0 -> Forall (entryOk K) st0.1 /\ 0 <= st0.2 < K) ->
  forall st', connectPixel fuel image pixelCluster average st p = Some st' ->
  Forall (entryOk K) st'.1 /\ 0 <= st'.2 < K.
Proof.
  intros HK Hpc Hst st'. unfold connectPixel.
  destruct st as [st0|]; simpl; [| done].
  destruct (Hst st0 eq_refl) as [Hnew Hadj].
  destruct (_ =? -1); [| by intros [= <-]].
  set (label := vget 0 pixelCluster (p.2 * cols image + p.1)).
  assert (Hlabel : entryOk K label) by (apply Forall_vget; [done | right; lia]).
  set (new1 := vset st0.1 (p.2 * cols image + p.1) label).
  assert (Hnew1 : Forall (entryOk K) new1) by by apply Forall_vset.
  pose proof (findAdjacent_valid image K new1 p st0.2 HK Hnew1 Hadj) as Hadj'.
  destruct (growSegment _ _ _ _ _ _) as [grown|] eqn:Hgrow; simpl; [| done].
  apply growSegment_valid with (K := K) in Hgrow; [| done | done].
  destruct (_ <=? _); intros [= <-]; simpl; split; try done.
  by apply relabel_valid.
Qed.

Lemma relabelPass_valid (fuel : nat) (image : Mat) (s : @SLIC R) (new : list Z) :
  clustersNumber s <> 0 -> assignmentValid s ->
  relabelPass fuel image s = Some new ->
  Forall (entryOk (clustersNumber s)) new.
Proof.
  intros HK [Hpos Hpc]. unfold relabelPass.
  destruct (fold_left _ _ _) as [st|] eqn:Hfold; simpl; [| done].
  intros [= <-].
  cut (forall st0, Some st = Some st0 ->
         Forall (entryOk (clustersNumber s)) st0.1 /\ 0 <= st0.2 < clustersNumber s).
  { intros Hcut. by destruct (Hcut st eq_refl). }
  rewrite <- Hfold.
  apply (fold_left_invariant
    (fun o => forall st0, o = Some st0 ->
       Forall (entryOk (clustersNumber s)) st0.1 /\ 0 <= st0.2 < clustersNumber s)).
  - intros o p _ Ho st0. apply connectPixel_valid; [lia | done | done].
  - intros st0 [= <-]. simpl. split; [| lia]. apply Forall_replicate. by left.
Qed.

Lemma resetCentres_frame (s : @SLIC R) :
  clustersNumber (resetCentres s) = clustersNumber s /\
  pixelCluster (resetCentres s) = pixelCluster s.
Proof.
  unfold resetCentres.
  split; by apply (fold_left_preserves _
    (fun (s0 : @SLIC R) (centreIndex : Z) => set_pixelsOfSameCluster _ _)).
Qed.

(** X2: [enforceConnectivity] keeps the invariant of the Assignment Map:
    the labels it writes are labels of the old map or the fallback
    [adjacentCluster], which is always the index of a centre. *)
Lemma enforceConnectivity_valid (fuel : nat) (image : Mat) (s s' : @SLIC R) :
  assignmentValid s -> enforceConnectivity fuel image s = Some s' ->
  assignmentValid s'.
Proof.
  intros Hs. unfold enforceConnectivity.
  destruct (Z.eqb_spec (clustersNumber s) 0) as [| HK]; [done |].
  destruct (relabelPass fuel image s) as [new|] eqn:Hpass; simpl; [| done].
  apply relabelPass_valid in Hpass; [| done | done].
  intros [= <-]. destruct Hs as [Hpos Hpc].
  set (s1 := set_pixelCluster _ s).
  assert (H1 : assignmentValid s1).
  { split; [done |]. simpl.
    apply (fold_left_invariant (fun a => Forall (entryOk (clustersNumber s)) a)); [| done].
    intros a n _ Ha. apply Forall_vset; [done |].
    apply Forall_vget; [done | right; lia]. }
  destruct (resetCentres_frame s1) as [HK1 Hpc1].
  apply (assignmentValid_eq s1); [| | done].
  - change (clustersNumber s1 <= clustersNumber (resetCentres s1)). lia.
  - change (pixelCluster (resetCentres s1) = pixelCluster s1). done.
Qed.

End Connectivity.

Lemma createSuperpixels_valid_witness : assignmentValid afterFirstFrame.
Proof.
  apply (createSuperpixels_valid 8 noBlobs ascending gray12 4 10 5 (of_Z 0)
           FIXED_ITERATIONS INDEPENDENT 1 (fun _ => of_Z 0) false SLIC_new
           afterFirstFrame).
  - intros l. apply Permutation_refl.
  - apply assignmentValid_new.
  - vm_compute. reflexivity.
Defined.

Lemma enforceConnectivity_valid_witness :
  match enforceConnectivity 145 gray12 afterFirstFrame with
  | Some s' => assignmentValid s'
  | None => False
  end.
Proof.
  destruct (enforceConnectivity 145 gray12 afterFirstFrame) as [s'|] eqn:Hrun.
  - apply (enforceConnectivity_valid 145 gray12 afterFirstFrame s'); [| exact Hrun].
    apply assignmentValidb_true. vm_compute. reflexivity.
  - vm_compute in Hrun. discriminate Hrun.
Defined.

(** ** The rounds of the loop *)

Section Rounds.
Context {R : Type} {SR : Scalar R}.

Lemma assignmentStep_framesNumber (image : Mat) (samplingStep : Z)
    (videoMode : VideoElaborationMode) (order : list Z) (s : @SLIC R) :
  framesNumber (assignmentStep image samplingStep videoMode order s) = framesNumber s.
Proof.
  unfold assignmentStep.
  rewrite (fold_left_preserves framesNumber (scanCentre image samplingStep videoMode));
    [done |].
  intros a c. unfold scanCentre.
  apply (fold_left_preserves framesNumber (visit image videoMode c)).
  intros a' p. unfold visit.
  destruct (inImage image p); [| done].
  destruct (isAddSuperpixelsMode videoMode); simpl;
    match goal with |- context [if ?b then _ else _] => by destruct b end.
Qed.

Lemma updateStep_framesNumber (image : Mat) (s : @SLIC R) :
  framesNumber (updateStep image s) = framesNumber s.
Proof.
  unfold updateStep, updateError. cbv zeta.
  set (s1 := recomputeCentres image s).
  change (framesNumber s) with (framesNumber s1). clearbody s1.
  destruct (iterationIndex s1 =? 0); [done |]. simpl.
  by apply (fold_left_preserves framesNumber residualOf).
Qed.

Lemma orphanRecovery_framesNumber (blobMoments : Z -> Z -> list Z -> list (@Moments R))
    (image : Mat) (s : @SLIC R) :
  framesNumber (orphanRecovery blobMoments image s) = framesNumber s.
Proof.
  unfold orphanRecovery. apply (fold_left_preserves framesNumber spawnCentre).
  intros a mu. unfold spawnCentre. by destruct (m00 mu ==. of_Z 0).
Qed.

Lemma round_prefix_counters (image : Mat) (samplingStep : Z)
    (videoMode : VideoElaborationMode) (order : list Z) (s : @SLIC R) :
  let s2 := updateStep image (assignmentStep image samplingStep videoMode order s) in
  iterationIndex s2 = iterationIndex s /\
  framesNumber s2 = framesNumber s /\
  clustersNumber s2 = clustersNumber s.
Proof.
  cbv zeta.
  destruct (updateStep_frame image (assignmentStep image samplingStep videoMode order s))
    as (Hi & Hk & _).
  destruct (assignmentStep_frame image samplingStep videoMode order s)
    as (Hi' & Hk' & _).
  pose proof (updateStep_framesNumber image
                (assignmentStep image samplingStep videoMode order s)) as Hf.
  pose proof (assignmentStep_framesNumber image samplingStep videoMode order s) as Hf'.
  repeat split; congruence.
Qed.

Lemma roundTail_counters (blobMoments : Z -> Z -> list Z -> list (@Moments R))
    (image : Mat) (iterationNumber : Z) (errorThreshold : R)
    (SLICMode : SLICElaborationMode) (videoMode : VideoElaborationMode)
    (s2 : @SLIC R) (go : bool) :
  let r := roundTail blobMoments image iterationNumber errorThreshold SLICMode
             videoMode s2 go in
  iterationIndex r.1 = wrapU32 (iterationIndex s2 + 1) /\
  framesNumber r.1 = framesNumber s2 /\
  clustersNumber s2 <= clustersNumber r.1 /\
  (isAddSuperpixelsMode videoMode = false ->
   clustersNumber r.1 = clustersNumber s2 /\ r.2 = true) /\
  (isFixedIterations SLICMode = true -> 0 <= iterationNumber < 2 ^ 32 ->
   iterationIndex s2 + 1 < iterationNumber -> r.2 = true).
Proof.
  unfold roundTail. cbv zeta.
  destruct (orphanRecovery_frame blobMoments image s2) as (Hoi & _ & _ & Hok).
  pose proof (orphanRecovery_framesNumber blobMoments image s2) as Hof.
  destruct (orphanCondition _ _ _ _ s2) eqn:Horphan; cbn [fst snd].
  - change (iterationIndex (set_iterationIndex ?v ?a)) with v.
    change (framesNumber (set_iterationIndex ?v ?a)) with (framesNumber a).
    change (clustersNumber (set_iterationIndex ?v ?a)) with (clustersNumber a).
    rewrite Hoi, Hof. split; [done |]. split; [done |]. split; [lia |].
    unfold orphanCondition in Horphan. split.
    + intros Hmode. by rewrite Hmode in Horphan.
    + intros Hfixed HN Hlt. exfalso.
      apply andb_prop in Horphan as [[_ Hfinal]%andb_prop _].
      apply orb_prop in Hfinal as [[_ Hmode]%andb_prop | [Hge _]%andb_prop].
      * by destruct SLICMode.
      * apply Z.leb_le in Hge. unfold wrapU32 in Hge.
        destruct (decide (iterationNumber = 0)) as [-> | Hne].
        -- change ((0 - 1) mod 2 ^ 32) with (2 ^ 32 - 1) in Hge. lia.
        -- rewrite Z.mod_small in Hge; lia.
  - change (iterationIndex (set_iterationIndex ?v ?a)) with v.
    change (framesNumber (set_iterationIndex ?v ?a)) with (framesNumber a).
    change (clustersNumber (set_iterationIndex ?v ?a)) with (clustersNumber a).
    by repeat split.
Qed.

(** What one round does to the counters. *)
Lemma iteration_counters (blobMoments : Z -> Z -> list Z -> list (@Moments R))
    (sched : list Z -> list Z) (image : Mat) (samplingStep iterationNumber : Z)
    (errorThreshold : R) (SLICMode : SLICElaborationMode)
    (videoMode : VideoElaborationMode) (s : @SLIC R) (go : bool) :
  let r := iteration blobMoments sched image samplingStep iterationNumber
             errorThreshold SLICMode videoMode s go in
  iterationIndex r.1 = wrapU32 (iterationIndex s + 1) /\
  framesNumber r.1 = framesNumber s /\
  clustersNumber s <= clustersNumber r.1 /\
  (isAddSuperpixelsMode videoMode = false ->
   clustersNumber r.1 = clustersNumber s /\ r.2 = true) /\
  (isFixedIterations SLICMode = true -> 0 <= iterationNumber < 2 ^ 32 ->
   iterationIndex s + 1 < iterationNumber -> r.2 = true).
Proof.
  cbv zeta. rewrite iteration_tail.
  destruct (round_prefix_counters image samplingStep videoMode
              (sched (upTo (clustersNumber s))) s) as (Hi & Hf & Hk).
  pose proof (roundTail_counters blobMoments image iterationNumber errorThreshold
                SLICMode videoMode
                (updateStep image
                   (assignmentStep image samplingStep videoMode
                      (sched (upTo (clustersNumber s))) s)) go) as Htail.
  cbv zeta in Htail. rewrite Hi, Hk, Hf in Htail. exact Htail.
Qed.



Lemma doWhile_counters (fuel : nat)
    (blobMoments : Z -> Z -> list Z -> list (@Moments R)) (sched : list Z -> list Z)
    (image : Mat) (samplingStep iterationNumber : Z) (errorThreshold : R)
    (SLICMode : SLICElaborationMode) (videoMode : VideoElaborationMode)
    (s s' : @SLIC R) (go : bool) :
  doWhile fuel blobMoments sched image samplingStep iterationNumber errorThreshold
    SLICMode videoMode s go = Some s' ->
  framesNumber s' = framesNumber s /\
  clustersNumber s <= clustersNumber s' /\
  (isAddSuperpixelsMode videoMode = false -> clustersNumber s' = clustersNumber s).
Proof.
  revert s go. induction fuel as [|fuel IH]; intros s go; cbn [doWhile]; [done |].
  cbv zeta.
  destruct (iteration_counters blobMoments sched image samplingStep iterationNumber
              errorThreshold SLICMode videoMode s go) as (_ & Hf & Hk & Hmode & _).
  set (r := iteration _ _ _ _ _ _ _ _ s go) in * .
  destruct (continueLoop _ _ _ _ && _).
  - intros (Hf' & Hk' & Hmode')%IH. split; [congruence |]. split; [lia |].
    intros Hm. destruct (Hmode Hm) as [<- _]. by apply Hmode'.
  - intros [= <-]. split; [done |]. split; [done |]. intros Hm. by apply Hmode.
Qed.

(** X4: the frame counter restarts at every reseed: [clearSLICData] zeroes
    [framesNumber] inside [initializeSLICData], so after a frame that was
    seeded from scratch the counter is 1, and after a frame that reused
    the centres it is one more than before. *)
Theorem framesNumber_restarts_on_reseed (fuel : nat)
    (blobMoments : Z -> Z -> list Z -> list (@Moments R)) (sched : list Z -> list Z)
    (image : Mat) (samplingStep spatialDistanceWeight iterationNumber : Z)
    (errorThreshold : R) (SLICMode : SLICElaborationMode)
    (videoMode : VideoElaborationMode) (keyFramesRatio : Z)
    (randomGen : nat -> R) (connectedFrames : bool) (s s' : @SLIC R) :
  createSuperpixels fuel blobMoments sched image samplingStep spatialDistanceWeight
    iterationNumber errorThreshold SLICMode videoMode keyFramesRatio randomGen
    connectedFrames s = Some s' ->
  framesNumber s'
  = if mustReseed videoMode keyFramesRatio connectedFrames s then 1
    else framesNumber s + 1.
Proof.
  unfold createSuperpixels. cbv zeta.
  destruct (doWhile _ _ _ _ _ _ _ _ _ _ _) as [s1|] eqn:Hloop; simpl; [| done].
  intros [= <-]. simpl.
  apply doWhile_counters in Hloop as (-> & _). simpl.
  unfold initializeSLICData.
  destruct (mustReseed videoMode keyFramesRatio connectedFrames s).
  - assert (Hzero : framesNumber
      (fullReseed image samplingStep spatialDistanceWeight errorThreshold s) = 0).
    { unfold fullReseed. simpl.
      by rewrite (fold_left_preserves framesNumber (seedCentre image)). }
    destruct (isAddSuperpixelsMode videoMode);
      change (framesNumber
                (fullReseed image samplingStep spatialDistanceWeight errorThreshold s)
              + 1 = 1);
      by rewrite Hzero.
  - destruct (isNoiseMode videoMode), (isAddSuperpixelsMode videoMode); done.
Qed.

(** X5: the cluster count never goes down during the loop, and outside
    the ADD_SUPERPIXELS modes it does not change: the object returned has
    the count [initializeSLICData] left. *)
Theorem clustersNumber_monotone (fuel : nat)
    (blobMoments : Z -> Z -> list Z -> list (@Moments R)) (sched : list Z -> list Z)
    (image : Mat) (samplingStep spatialDistanceWeight iterationNumber : Z)
    (errorThreshold : R) (SLICMode : SLICElaborationMode)
    (videoMode : VideoElaborationMode) (keyFramesRatio : Z)
    (randomGen : nat -> R) (connectedFrames : bool) (s s' : @SLIC R) :
  createSuperpixels fuel blobMoments sched image samplingStep spatialDistanceWeight
    iterationNumber errorThreshold SLICMode videoMode keyFramesRatio randomGen
    connectedFrames s = Some s' ->
  let seeded := initializeSLICData image samplingStep spatialDistanceWeight
                  errorThreshold videoMode keyFramesRatio randomGen connectedFrames s in
  clustersNumber seeded <= clustersNumber s' /\
  (isAddSuperpixelsMode videoMode = false -> clustersNumber s' = clustersNumber seeded).
Proof.
  unfold createSuperpixels. cbv zeta.
  destruct (doWhile _ _ _ _ _ _ _ _ _ _ _) as [s1|] eqn:Hloop; simpl; [| done].
  intros [= <-]. simpl.
  by apply doWhile_counters in Hloop as (_ & Hk & Hmode).
Qed.

End Rounds.


Lemma framesNumber_restarts_on_reseed_witness :
  createSuperpixels 8 oneBlob ascending gray12 1 10 2 (of_Z 0)
    FIXED_ITERATIONS ADD_SUPERPIXELS 1 draws true afterFirstFrame
  = Some afterSecondFrame /\
  framesNumber afterSecondFrame
  = if mustReseed ADD_SUPERPIXELS 1 true afterFirstFrame then 1
    else framesNumber afterFirstFrame + 1.
Proof.
  assert (Hrun : createSuperpixels 8 oneBlob ascending gray12 1 10 2 (of_Z 0)
                   FIXED_ITERATIONS ADD_SUPERPIXELS 1 draws true afterFirstFrame
                 = Some afterSecondFrame) by (vm_compute; reflexivity).
  split; [exact Hrun |].
  exact (framesNumber_restarts_on_reseed 8 oneBlob ascending gray12 1 10 2 (of_Z 0)
           FIXED_ITERATIONS ADD_SUPERPIXELS 1 draws true afterFirstFrame
           afterSecondFrame Hrun).
Defined.

Lemma clustersNumber_monotone_witness :
  createSuperpixels 8 oneBlob ascending gray12 1 10 2 (of_Z 0)
    FIXED_ITERATIONS ADD_SUPERPIXELS 1 draws true afterFirstFrame
  = Some afterSecondFrame /\
  clustersNumber
    (initializeSLICData gray12 1 10 (of_Z 0) ADD_SUPERPIXELS 1 draws true
       afterFirstFrame) <= clustersNumber afterSecondFrame.
Proof.
  assert (Hrun : createSuperpixels 8 oneBlob ascending gray12 1 10 2 (of_Z 0)
                   FIXED_ITERATIONS ADD_SUPERPIXELS 1 draws true afterFirstFrame
                 = Some afterSecondFrame) by (vm_compute; reflexivity).
  split; [exact Hrun |].
  exact (proj1 (clustersNumber_monotone 8 oneBlob ascending gray12 1 10 2 (of_Z 0)
                  FIXED_ITERATIONS ADD_SUPERPIXELS 1 draws true afterFirstFrame
                  afterSecondFrame Hrun)).
Defined.

(** ** The assignment step keeps the nearest centre *)

Lemma pixelIndex_range (image : Mat) (p : Point) :
  inImage image p = true -> 0 <= p.2 * cols image + p.1 < rows image * cols image.
Proof.
  unfold inImage. rewrite !andb_true_iff, !Z.leb_le, !Z.ltb_lt.
  intros [[[Hx0 Hx1] Hy0] Hy1]. split; [nia |].
  assert (p.2 * cols image + cols image <= rows image * cols image) by nia. lia.
Qed.

Lemma pixelIndex_inj (image : Mat) (p q : Point) :
  inImage image p = true -> inImage image q = true ->
  p.2 * cols image + p.1 = q.2 * cols image + q.1 -> p = q.
Proof.
  unfold inImage. rewrite !andb_true_iff, !Z.leb_le, !Z.ltb_lt.
  intros [[[Hx0 Hx1] Hy0] Hy1] [[[Hx0' Hx1'] Hy0'] Hy1'] Heq.
  destruct p as [x y], q as [x' y']. simpl in * .
  assert (y = y') by nia. subst. f_equal. lia.
Qed.

Section Nearest.
Context {R : Type} {SR : Scalar R}.






End Nearest.

Section NearestOrder.
Context {R : Type} {SR : Scalar R} {SO : ScalarOrder R}.




End NearestOrder.

Section Consistent.
Context {R : Type} {SR : Scalar R}.



End Consistent.



(** ** Connectivity enforcement ends when every pixel is assigned *)

Lemma fold_left_establish {A B} (Inv : A -> Prop) (Q : B -> A -> Prop)
    (f : A -> B -> A) (l : list B) (a : A) :
  (forall a b, b ∈ l -> Inv a -> Inv (f a b) /\ Q b (f a b)) ->
  (forall a b b', b ∈ l -> Inv a -> Q b' a -> Q b' (f a b)) ->
  Inv a ->
  Inv (fold_left f l a) /\ forall b, b ∈ l -> Q b (fold_left f l a).
Proof.
  induction l as [|b l IH] using rev_ind; intros Hstep Hkeep Ha.
  { split; [done | by intros b ?%not_elem_of_nil]. }
  rewrite fold_left_app. cbn [fold_left].
  destruct IH as [Hinv HQ]; [| | done |].
  { intros a' b' Hb'. apply Hstep, elem_of_app. by left. }
  { intros a' b' b'' Hb'. apply Hkeep, elem_of_app. by left. }
  assert (Hb : b ∈ l ++ [b]) by (apply elem_of_app; right; apply list_elem_of_singleton; done).
  destruct (Hstep _ b Hb Hinv) as [Hinv' HQb].
  split; [done |].
  intros b' [Hb' | ->%list_elem_of_singleton]%elem_of_app; [| done].
  apply Hkeep; [done | done |]. by apply HQ.
Qed.

Lemma elem_of_allPixels (image : Mat) (p : Point) :
  p ∈ allPixels image <-> inImage image p = true.
Proof.
  unfold allPixels, inImage.
  rewrite !andb_true_iff, !Z.leb_le, !Z.ltb_lt.
  rewrite list_elem_of_In, in_flat_map. split.
  - intros (y & Hy & Hp). apply in_map_iff in Hp as (x & <- & Hx).
    rewrite <- list_elem_of_In, elem_of_upTo in Hy, Hx. simpl. lia.
  - intros [[[Hx0 Hx1] Hy0] Hy1]. exists p.2. split.
    + rewrite <- list_elem_of_In, elem_of_upTo. lia.
    + apply in_map_iff. exists p.1. split; [by destruct p |].
      rewrite <- list_elem_of_In, elem_of_upTo. lia.
Qed.

Section Flood.
Context (image : Mat) (pixelCluster : list Z).

Lemma growStep_cases (label : Z) (st : list Point * list Z) (q : Point) :
  growStep image pixelCluster label st q = st \/
  (inImage image q = true /\
   vget 0 st.2 (q.2 * cols image + q.1) = -1 /\
   vget 0 pixelCluster (q.2 * cols image + q.1) = label /\
   growStep image pixelCluster label st q
   = (st.1 ++ [q], vset st.2 (q.2 * cols image + q.1) label)).
Proof.
  unfold growStep.
  destruct (inImage image q) eqn:Hq; simpl; [| by left].
  destruct (Z.eqb_spec (vget 0 st.2 (q.2 * cols image + q.1)) (-1)); simpl; [| by left].
  destruct (Z.eqb_spec (vget 0 pixelCluster (q.2 * cols image + q.1)) label);
    simpl; [| by left].
  by right.
Qed.

Lemma segment_length (st : list Point * list Z) :
  segmentOk image st -> (length st.1 <= Z.to_nat (rows image * cols image))%nat.
Proof.
  intros (Hnd & Hin & _).
  assert (Hsub : (fun q : Point => q.2 * cols image + q.1) <$> st.1
                 ⊆+ seqZ 0 (rows image * cols image)).
  { apply NoDup_submseteq.
    - apply NoDup_fmap_2_strong; [| done].
      intros p q Hp Hq. apply pixelIndex_inj; by apply Hin.
    - intros i (q & -> & Hq)%list_elem_of_fmap. apply elem_of_seqZ.
      pose proof (pixelIndex_range image q (proj1 (Hin q Hq))) as Hr.
      cbv beta. rewrite Z.add_0_l. exact Hr. }
  apply submseteq_length in Hsub. by rewrite length_fmap, length_seqZ in Hsub.
Qed.

(** One step of the growing loop with a label that is not -1. *)
Lemma growStep_labelled (label : Z) (st : list Point * list Z) (q : Point) :
  label <> -1 -> segmentOk image st ->
  let st' := growStep image pixelCluster label st q in
  segmentOk image st' /\
  (forall i, vget 0 st.2 i <> -1 -> vget 0 st'.2 i <> -1) /\
  length st'.2 = length st.2 /\
  (forall p, p ∈ st.1 -> p ∈ st'.1) /\
  (length st.1 <= length st'.1)%nat.
Proof.
  intros Hlabel (Hnd & Hin & Hlen). cbv zeta.
  destruct (growStep_cases label st q) as [-> | (Hq & Hnew & _ & ->)]; [done |].
  unfold segmentOk. cbn [fst snd].
  assert (Hkeep : forall i, vget 0 st.2 i <> -1 ->
            vget 0 (vset st.2 (q.2 * cols image + q.1) label) i <> -1).
  { intros i Hi. rewrite vget_vset. by case_decide. }
  split; [| split; [done | split; [apply length_vset | split]]].
  - split; [| split].
    + apply NoDup_app. split; [done |]. split; [| apply NoDup_singleton].
      intros p Hp ->%list_elem_of_singleton. by destruct (Hin q Hp).
    + intros p [Hp | ->%list_elem_of_singleton]%elem_of_app.
      * destruct (Hin p Hp). split; [done |]. by apply Hkeep.
      * split; [done |]. rewrite vget_vset_eq; [done |].
        pose proof (pixelIndex_range image q Hq). lia.
    + by rewrite length_vset.
  - intros p Hp. apply elem_of_app. by left.
  - rewrite length_app. lia.
Qed.

(** With a label that is not -1 the growing loop ends: a segment holds
    each pixel of the image at most once. *)
Lemma growSegment_total (fuel : nat) (label : Z) (c : nat) (st : list Point * list Z) :
  label <> -1 -> segmentOk image st -> (c <= length st.1)%nat ->
  (Z.to_nat (rows image * cols image) + 1 - c <= fuel)%nat ->
  exists st', growSegment fuel image pixelCluster label c st = Some st' /\
    (forall i, vget 0 st.2 i <> -1 -> vget 0 st'.2 i <> -1) /\
    length st'.2 = length st.2 /\
    (forall p, p ∈ st.1 -> p ∈ st'.1) /\
    (forall p, p ∈ st'.1 -> inImage image p = true).
Proof.
  intros Hlabel. revert c st.
  induction fuel as [|fuel IH]; intros c st Hok Hc Hfuel.
  { pose proof (segment_length st Hok). lia. }
  cbn [growSegment].
  destruct (st.1 !! c) as [p|] eqn:Hp.
  - apply lookup_lt_Some in Hp.
    set (st1 := fold_left (growStep image pixelCluster label) (block p) st).
    assert (H1 : segmentOk image st1 /\
                 (forall i, vget 0 st.2 i <> -1 -> vget 0 st1.2 i <> -1) /\
                 length st1.2 = length st.2 /\
                 (forall p, p ∈ st.1 -> p ∈ st1.1) /\
                 (length st.1 <= length st1.1)%nat).
    { apply (fold_left_invariant (fun a =>
        segmentOk image a /\
        (forall i, vget 0 st.2 i <> -1 -> vget 0 a.2 i <> -1) /\
        length a.2 = length st.2 /\
        (forall p, p ∈ st.1 -> p ∈ a.1) /\
        (length st.1 <= length a.1)%nat)); [| done].
      intros a q _ (Ha & Hkeep & Hlen & Hsub & Hle).
      destruct (growStep_labelled label a q Hlabel Ha) as (Ha' & Hkeep' & Hlen' & Hsub' & Hle').
      split; [done |]. split; [by intros i Hi; apply Hkeep', Hkeep |].
      split; [lia |]. split; [by intros p' Hp'; apply Hsub', Hsub | lia]. }
    destruct H1 as (Hok1 & Hkeep1 & Hlen1 & Hsub1 & Hle1).
    destruct (IH (S c) st1 Hok1) as (st' & Hrun & Hkeep' & Hlen' & Hsub' & Him);
      [lia | lia |].
    exists st'. split; [done |]. split; [by intros i Hi; apply Hkeep', Hkeep1 |].
    split; [lia |]. split; [by intros p' Hp'; apply Hsub', Hsub1 | done].
  - exists st. destruct Hok as (_ & Hin & _).
    repeat split; try done. intros p' Hp'. by destruct (Hin p' Hp').
Qed.

Lemma relabel_labelled (new : list Z) (segment : list Point) (adjacent : Z) :
  adjacent <> -1 ->
  (forall i, vget 0 new i <> -1 -> vget 0 (relabel image new segment adjacent) i <> -1) /\
  length (relabel image new segment adjacent) = length new.
Proof.
  intros Hadj. unfold relabel.
  apply (fold_left_invariant (fun a =>
    (forall i, vget 0 new i <> -1 -> vget 0 a i <> -1) /\ length a = length new));
    [| done].
  intros a q _ [Hkeep Hlen]. split; [| by rewrite length_vset].
  intros i Hi. rewrite vget_vset. case_decide; [done | by apply Hkeep].
Qed.

Lemma findAdjacent_labelled (new : list Z) (p : Point) (adjacent : Z) :
  adjacent <> -1 -> findAdjacent image new p adjacent <> -1.
Proof.
  intros Hadj. unfold findAdjacent.
  apply (fold_left_invariant (fun a => a <> -1)); [| done].
  intros a tempY _ Ha.
  destruct (find _ _) as [tempX|] eqn:Hfind; [| done].
  apply find_some in Hfind as [_ [_ Hlabelled]%andb_prop].
  by apply negb_true_iff, Z.eqb_neq in Hlabelled.
Qed.

(** The body of the scan, when every pixel of the image is assigned. *)
Lemma connectPixel_total (fuel : nat) (average : Z) (st : list Z * Z) (p : Point) :
  allLabelled image pixelCluster ->
  (Z.to_nat (rows image * cols image) + 1 <= fuel)%nat ->
  inImage image p = true ->
  st.2 <> -1 -> rows image * cols image <= Z.of_nat (length st.1) ->
  exists st', connectPixel fuel image pixelCluster average (Some st) p = Some st' /\
    st'.2 <> -1 /\ length st'.1 = length st.1 /\
    (forall i, vget 0 st.1 i <> -1 -> vget 0 st'.1 i <> -1) /\
    vget 0 st'.1 (p.2 * cols image + p.1) <> -1.
Proof.
  intros Hall Hfuel Hp Hadj Hlen. unfold connectPixel. simpl.
  destruct (Z.eqb_spec (vget 0 st.1 (p.2 * cols image + p.1)) (-1)) as [Hnew | Hnew];
    [| by exists st].
  set (label := vget 0 pixelCluster (p.2 * cols image + p.1)).
  assert (Hlabel : label <> -1) by by apply Hall.
  set (new1 := vset st.1 (p.2 * cols image + p.1) label).
  pose proof (pixelIndex_range image p Hp) as Hrange.
  assert (Hat : vget 0 new1 (p.2 * cols image + p.1) = label).
  { apply vget_vset_eq. lia. }
  assert (Hkeep1 : forall i, vget 0 st.1 i <> -1 -> vget 0 new1 i <> -1).
  { intros i Hi. unfold new1. rewrite vget_vset. by case_decide. }
  assert (Hok : segmentOk image ([p], new1)).
  { split; [apply NoDup_singleton |]. split.
    - intros q ->%list_elem_of_singleton. split; [done |]. simpl. by rewrite Hat.
    - simpl. unfold new1. rewrite length_vset. lia. }
  destruct (growSegment_total fuel label 0 ([p], new1) Hlabel Hok)
    as (grown & -> & Hkeep & Hlength & Hsub & _); [simpl; lia | lia |].
  simpl in Hkeep, Hlength, Hsub. simpl.
  pose proof (findAdjacent_labelled new1 p st.2 Hadj) as Hadj'.
  assert (Hlen1 : length new1 = length st.1) by apply length_vset.
  assert (Hgp : vget 0 grown.2 (p.2 * cols image + p.1) <> -1).
  { apply Hkeep. by rewrite Hat. }
  destruct (_ <=? _).
  - eexists. split; [done |]. simpl.
    destruct (relabel_labelled grown.2 grown.1 (findAdjacent image new1 p st.2) Hadj')
      as [Hkeep2 Hlen2].
    split; [done |]. split; [lia |].
    split; [by intros i Hi; apply Hkeep2, Hkeep, Hkeep1 | by apply Hkeep2].
  - eexists. split; [done |]. simpl.
    split; [done |]. split; [lia |].
    split; [by intros i Hi; apply Hkeep, Hkeep1 | done].
Qed.

End Flood.

(** [for (unsigned n = 0; n < pixelsNumber; ++n) pixelCluster[n] =
    newPixelCluster[n]]. *)
Lemma copy_back (new old : list Z) (n i : Z) :
  0 <= i < n -> i < Z.of_nat (length old) ->
  vget 0 (fold_left (fun pc n => vset pc n (vget 0 new n)) (upTo n) old) i = vget 0 new i.
Proof.
  intros Hi Hlen.
  destruct (fold_left_establish
    (fun pc => length pc = length old)
    (fun n pc => n < Z.of_nat (length old) -> vget 0 pc n = vget 0 new n)
    (fun pc n => vset pc n (vget 0 new n)) (upTo n) old) as [_ Hall].
  - intros a b Hb Ha. apply elem_of_upTo in Hb.
    split; [by rewrite length_vset |]. intros Hlt. apply vget_vset_eq. lia.
  - intros a b b' _ Ha Hb' Hlt. rewrite vget_vset.
    case_decide as Hc; [by destruct Hc as [-> _] | by apply Hb'].
  - done.
  - apply Hall; [by apply elem_of_upTo | done].
Qed.

Section Connected.
Context {R : Type} {SR : Scalar R}.

Lemma relabelPass_total (fuel : nat) (image : Mat) (s : @SLIC R) :
  rows image * cols image <= pixelsNumber s ->
  allLabelled image (pixelCluster s) ->
  (Z.to_nat (rows image * cols image) + 1 <= fuel)%nat ->
  exists new, relabelPass fuel image s = Some new /\ allLabelled image new.
Proof.
  intros Hsize Hall Hfuel. unfold relabelPass.
  destruct (fold_left_establish (B := Point)
    (fun o : option (list Z * Z) =>
       exists st, o = Some st /\ st.2 <> -1 /\
                  rows image * cols image <= Z.of_nat (length st.1))
    (fun p o => exists st, o = Some st /\ vget 0 st.1 (p.2 * cols image + p.1) <> -1)
    (connectPixel fuel image (pixelCluster s) (clustersAverageSize s))
    (allPixels image) (Some (assign (pixelsNumber s) (-1), 0))) as [Hinv Hdone].
  - intros o p Hp (st & -> & Hadj & Hlen). apply elem_of_allPixels in Hp.
    destruct (connectPixel_total image (pixelCluster s) fuel (clustersAverageSize s)
                st p Hall Hfuel Hp Hadj Hlen) as (st' & -> & Hadj' & Hlen' & _ & Hp').
    split; exists st'; [| done]. split; [done |]. split; [done | lia].
  - intros o p p' Hp (st & -> & Hadj & Hlen) (st0 & [= <-] & Hp'). apply elem_of_allPixels in Hp.
    destruct (connectPixel_total image (pixelCluster s) fuel (clustersAverageSize s)
                st p Hall Hfuel Hp Hadj Hlen) as (st' & -> & _ & _ & Hkeep & _).
    exists st'. split; [done | by apply Hkeep].
  - eexists. split; [done |]. simpl. split; [done |].
    unfold assign. rewrite length_replicate. lia.
  - destruct Hinv as (st & Hst & _ & _). rewrite Hst. simpl. exists st.1.
    split; [done |]. intros p Hp.
    destruct (Hdone p) as (st0 & Hst0 & Hlab); [by apply elem_of_allPixels |].
    pose proof (eq_trans (eq_sym Hst) Hst0) as [= ->]. done.
Qed.

(** X8: when every pixel of the image is assigned, [enforceConnectivity]
    returns, and it leaves every pixel of the image assigned: the growing
    loop of a segment ends because a pixel enters a segment at most once,
    and the fallback label [adjacentCluster] is never -1.  The cluster
    count is unchanged. *)
Theorem enforceConnectivity_labels_every_pixel (fuel : nat) (image : Mat) (s : @SLIC R) :
  clustersNumber s <> 0 ->
  rows image * cols image <= pixelsNumber s ->
  rows image * cols image <= Z.of_nat (length (pixelCluster s)) ->
  allLabelled image (pixelCluster s) ->
  (Z.to_nat (rows image * cols image) + 1 <= fuel)%nat ->
  exists s', enforceConnectivity fuel image s = Some s' /\
             allLabelled image (pixelCluster s') /\
             clustersNumber s' = clustersNumber s.
Proof.
  intros HK Hsize Hlen Hall Hfuel. unfold enforceConnectivity.
  destruct (Z.eqb_spec (clustersNumber s) 0) as [| _]; [done |].
  destruct (relabelPass_total fuel image s Hsize Hall Hfuel) as (new & -> & Hnew).
  simpl. eexists. split; [done |].
  set (s1 := set_pixelCluster _ s).
  destruct (resetCentres_frame s1) as [HK1 Hpc1].
  split.
  - change (allLabelled image (pixelCluster (resetCentres s1))). rewrite Hpc1.
    intros p Hp. simpl. pose proof (pixelIndex_range image p Hp).
    rewrite copy_back; [by apply Hnew | lia | lia].
  - change (clustersNumber (resetCentres s1) = clustersNumber s). by rewrite HK1.
Qed.

End Connected.

Lemma allLabelledb_true (image : Mat) (v : list Z) :
  allLabelledb image v = true -> allLabelled image v.
Proof.
  unfold allLabelledb. rewrite forallb_forall. intros Hall p Hp.
  apply elem_of_allPixels, list_elem_of_In in Hp.
  by apply Hall, negb_true_iff, Z.eqb_neq in Hp.
Qed.

Lemma enforceConnectivity_labels_every_pixel_witness :
  exists s', enforceConnectivity 145 gray12 afterFirstFrame = Some s' /\
             allLabelled gray12 (pixelCluster s') /\
             clustersNumber s' = clustersNumber afterFirstFrame.
Proof.
  apply (enforceConnectivity_labels_every_pixel 145 gray12 afterFirstFrame).
  - vm_compute. discriminate.
  - vm_compute. discriminate.
  - vm_compute. discriminate.
  - apply allLabelledb_true. vm_compute. reflexivity.
  - vm_compute. lia.
Defined.

(** ** Connectivity enforcement on a map with an unassigned pixel *)

Section Unassigned.
Context (image : Mat) (pixelCluster : list Z).




End Unassigned.

Section UnassignedPass.
Context (image : Mat) (pixelCluster : list Z).





End UnassignedPass.

Section Stuck.
Context {R : Type} {SR : Scalar R}.


End Stuck.


(** ** The update step: counts and means *)

Section Means.
Context {R : Type} {SR : Scalar R}.

(** The five [+=] of one pixel, slot by slot. *)
Lemma accumulate_slots (image : Mat) (pixelCluster : list Z) (acc : list R * list Z)
    (p : Point) (K c k : Z) :
  let cur := vget 0 pixelCluster (p.2 * cols image + p.1) in
  cur = -1 \/ 0 <= cur < K ->
  Z.of_nat (length acc.1) = 5 * K -> Z.of_nat (length acc.2) = K ->
  0 <= c < K -> 0 <= k < 5 ->
  let acc' := accumulate image pixelCluster acc p in
  length acc'.1 = length acc.1 /\ length acc'.2 = length acc.2 /\
  vget (of_Z 0) acc'.1 (5 * c + k)
  = (if decide (cur = c)
     then vget (of_Z 0) acc.1 (5 * c + k) +. of_Z (feature image k p)
     else vget (of_Z 0) acc.1 (5 * c + k)) /\
  vget 0 acc'.2 c = (if decide (cur = c) then vget 0 acc.2 c + 1 else vget 0 acc.2 c).
Proof.
  intros cur Hcur Hcc Hcnt Hc Hk. cbv zeta. unfold accumulate. fold cur.
  destruct (Z.eqb_spec cur (-1)) as [Hun | Hun].
  { rewrite !decide_False by lia. done. }
  destruct Hcur as [| Hcur]; [done |]. cbn [fst snd].
  rewrite !length_vset. split; [done |]. split; [done |].
  case_decide as Heq.
  - subst c. split; [| apply vget_vset_eq; lia].
    unfold feature.
    assert (Hk' : k = 0 \/ k = 1 \/ k = 2 \/ k = 3 \/ k = 4) by lia.
    destruct Hk' as [-> | [-> | [-> | [-> | ->]]]]; simpl;
      repeat first
        [ rewrite vget_vset_eq by (rewrite ?length_vset; lia)
        | rewrite vget_vset_ne by lia ]; done.
  - split; [| by rewrite vget_vset_ne].
    rewrite !vget_vset_ne by lia. done.
Qed.

Lemma fold_accumulate (image : Mat) (pixelCluster : list Z) (K c k : Z)
    (l : list Point) (acc : list R * list Z) :
  (forall p, p ∈ l ->
     let cur := vget 0 pixelCluster (p.2 * cols image + p.1) in
     cur = -1 \/ 0 <= cur < K) ->
  Z.of_nat (length acc.1) = 5 * K -> Z.of_nat (length acc.2) = K ->
  0 <= c < K -> 0 <= k < 5 ->
  let acc' := fold_left (accumulate image pixelCluster) l acc in
  let m := filter (fun p : Point => vget 0 pixelCluster (p.2 * cols image + p.1) = c) l in
  length acc'.1 = length acc.1 /\ length acc'.2 = length acc.2 /\
  vget (of_Z 0) acc'.1 (5 * c + k)
  = featureSum image k m (vget (of_Z 0) acc.1 (5 * c + k)) /\
  vget 0 acc'.2 c = vget 0 acc.2 c + Z.of_nat (length m).
Proof.
  intros Hvalid Hcc Hcnt Hc Hk. cbv zeta. revert acc Hcc Hcnt.
  induction l as [|p l IH]; intros acc Hcc Hcnt; cbn [fold_left].
  { rewrite filter_nil. simpl. repeat split; try done. lia. }
  destruct (accumulate_slots image pixelCluster acc p K c k) as (Hl1 & Hl2 & Hcc1 & Hcnt1);
    try done.
  { apply Hvalid, elem_of_cons. by left. }
  cbv zeta in Hl1, Hl2, Hcc1, Hcnt1.
  destruct (IH (fun q Hq => Hvalid q (proj2 (elem_of_cons _ _ _) (or_intror Hq)))
              (accumulate image pixelCluster acc p)) as (Hl1' & Hl2' & Hcc' & Hcnt');
    [lia | lia |].
  rewrite Hl1', Hl2', Hcc', Hcnt', Hcc1, Hcnt1.
  split; [done |]. split; [done |].
  case_decide as Heq.
  - rewrite filter_cons_True by done. simpl. split; [done | lia].
  - rewrite filter_cons_False by done. done.
Qed.

Lemma updateError_centres (s : @SLIC R) :
  clusterCentres (updateError s) = clusterCentres s /\
  pixelsOfSameCluster (updateError s) = pixelsOfSameCluster s.
Proof.
  unfold updateError. destruct (iterationIndex s =? 0); [done |]. simpl.
  split; by apply (fold_left_preserves _ residualOf).
Qed.

(** X10: the update step makes every centre the mean of its pixels:
    the count of a cluster is the number of pixels of the image assigned
    to it, each of its five values is the sum of that value over those
    pixels, added in raster order from 0, divided by the count; a cluster
    that no pixel is assigned to gets the count 0 and the centre
    (0, 0, 0, 0, 0). *)
Theorem updateStep_means (image : Mat) (s : @SLIC R) (c k : Z) :
  assignmentValid s ->
  rows image * cols image <= Z.of_nat (length (pixelCluster s)) ->
  0 <= c < clustersNumber s -> 0 <= k < 5 ->
  let s' := updateStep image s in
  let m := members image (pixelCluster s) c in
  vget 0 (pixelsOfSameCluster s') c = Z.of_nat (length m) /\
  vget (of_Z 0) (clusterCentres s') (5 * c + k)
  = (if decide (m = []) then of_Z 0
     else featureSum image k m (of_Z 0) /. of_Z (Z.of_nat (length m))).
Proof.
  intros [_ Hpc] _ Hc Hk. cbv zeta. unfold updateStep.
  assert (Hvalid : forall p : Point,
    entryOk (clustersNumber s) (vget 0 (pixelCluster s) (p.2 * cols image + p.1))).
  { intros p. apply Forall_vget; [done | right; lia]. }
  destruct (updateError_centres (recomputeCentres image s)) as [-> ->].
  unfold recomputeCentres, normalizeCentres, accumulateCentres. simpl.
  set (acc0 := (assign (clustersNumber s * 5) (of_Z 0), assign (clustersNumber s) 0)).
  destruct (fold_accumulate image (pixelCluster s) (clustersNumber s) c k
              (allPixels image) acc0) as (Hl1 & Hl2 & Hcc & Hcnt); try done.
  { intros p _. apply Hvalid. }
  { simpl. unfold assign. rewrite length_replicate. lia. }
  { simpl. unfold assign. rewrite length_replicate. lia. }
  cbv zeta in Hl1, Hl2, Hcc, Hcnt. fold (members image (pixelCluster s) c) in Hcc, Hcnt.
  set (acc := fold_left (accumulate image (pixelCluster s)) (allPixels image) acc0) in * .
  assert (Hzero0 : vget 0 acc0.2 c = 0).
  { simpl. unfold vget, assign. destruct (Z.ltb_spec c 0); [lia |].
    rewrite nth_lookup, lookup_replicate_2; [done | lia]. }
  assert (Hzero : vget (of_Z 0) acc0.1 (5 * c + k) = of_Z 0).
  { simpl. unfold vget, assign. destruct (Z.ltb_spec (5 * c + k) 0); [lia |].
    rewrite nth_lookup, lookup_replicate_2; [done | lia]. }
  rewrite Hzero0 in Hcnt. rewrite Hzero in Hcc. split; [lia |].
  assert (Hlen : Z.of_nat (length acc.1) = 5 * clustersNumber s).
  { rewrite Hl1. simpl. unfold assign. rewrite length_replicate. lia. }
  case_decide as Hm.
  - rewrite normalize_empty_untouched; [| rewrite Hcnt, Hm; done | done].
    rewrite Hcc, Hm. done.
  - rewrite normalize_divides; [| apply NoDup_upTo | done | lia | lia |].
    + rewrite decide_True by by apply elem_of_upTo.
      by rewrite Hcc, Hcnt.
    + rewrite Hcnt. destruct (members image (pixelCluster s) c); [done | simpl; lia].
Qed.

End Means.

Lemma updateStep_means_witness :
  let s' := updateStep gray12 afterFirstFrame in
  let m := members gray12 (pixelCluster afterFirstFrame) 0 in
  vget 0 (pixelsOfSameCluster s') 0 = Z.of_nat (length m) /\
  vget (of_Z 0) (clusterCentres s') (5 * 0 + 3)
  = (if decide (m = []) then of_Z 0
     else featureSum gray12 3 m (of_Z 0) /. of_Z (Z.of_nat (length m))).
Proof.
  apply (updateStep_means gray12 afterFirstFrame 0 3).
  - apply assignmentValidb_true. vm_compute. reflexivity.
  - vm_compute. discriminate.
  - vm_compute. split; [discriminate | reflexivity].
  - lia.
Defined.

(** ** The first round under ERROR_THRESHOLD *)

Section FirstRound.
Context {R : Type} {SR : Scalar R} {SO : ScalarOrder R}.

Lemma updateStep_first_round (image : Mat) (s : @SLIC R) :
  iterationIndex s = 0 ->
  totalResidualError (updateStep image s) = totalResidualError s.
Proof.
  intros Hi. unfold updateStep, updateError.
  change (iterationIndex (recomputeCentres image s)) with (iterationIndex s).
  by rewrite Hi.
Qed.

(** X11: under [ERROR_THRESHOLD] the loop never stops after its first
    round.  That round skips the error computation, so the total residual
    error is still the [DBL_MAX] that [initializeSLICData] stored; with a
    threshold below [DBL_MAX] the blob detector is not run, [go] is set
    and the test of the [while] holds: a second round follows, started
    from the state of the first with the counter at 1. *)
Theorem error_threshold_second_round
    (blobMoments : Z -> Z -> list Z -> list (@Moments R)) (sched : list Z -> list Z)
    (image : Mat) (samplingStep spatialDistanceWeight iterationNumber : Z)
    (errorThreshold : R) (videoMode : VideoElaborationMode) (keyFramesRatio : Z)
    (randomGen : nat -> R) (connectedFrames : bool) (s : @SLIC R) :
  (errorThreshold <. DBL_MAX) = true ->
  let s0 := set_iterationIndex 0
              (initializeSLICData image samplingStep spatialDistanceWeight
                 errorThreshold videoMode keyFramesRatio randomGen connectedFrames s) in
  let r := iteration blobMoments sched image samplingStep iterationNumber
             errorThreshold ERROR_THRESHOLD videoMode s0 false in
  totalResidualError r.1 = DBL_MAX /\ iterationIndex r.1 = 1 /\ r.2 = true /\
  (forall fuel,
     doWhile (S fuel) blobMoments sched image samplingStep iterationNumber
       errorThreshold ERROR_THRESHOLD videoMode s0 false
     = doWhile fuel blobMoments sched image samplingStep iterationNumber
         errorThreshold ERROR_THRESHOLD videoMode r.1 true) /\
  createSuperpixels 1 blobMoments sched image samplingStep spatialDistanceWeight
    iterationNumber errorThreshold ERROR_THRESHOLD videoMode keyFramesRatio randomGen
    connectedFrames s = None.
Proof.
  intros Hthr s0 r.
  set (s2 := updateStep image
               (assignmentStep image samplingStep videoMode
                  (sched (upTo (clustersNumber s0))) s0)).
  assert (Hmax0 : totalResidualError s0 = DBL_MAX).
  { subst s0. unfold initializeSLICData. simpl.
    by destruct (isAddSuperpixelsMode videoMode). }
  assert (Hi2 : iterationIndex s2 = 0).
  { subst s2. destruct (updateStep_frame image
      (assignmentStep image samplingStep videoMode (sched (upTo (clustersNumber s0))) s0))
      as (-> & _).
    by destruct (assignmentStep_frame image samplingStep videoMode
                   (sched (upTo (clustersNumber s0))) s0) as (-> & _). }
  assert (Hmax2 : totalResidualError s2 = DBL_MAX).
  { subst s2. rewrite updateStep_first_round.
    - destruct (assignmentStep_frame image samplingStep videoMode
                  (sched (upTo (clustersNumber s0))) s0) as (_ & _ & _ & -> & _). done.
    - by destruct (assignmentStep_frame image samplingStep videoMode
                     (sched (upTo (clustersNumber s0))) s0) as (-> & _). }
  assert (Horphan : orphanCondition iterationNumber errorThreshold ERROR_THRESHOLD
                      videoMode s2 = false).
  { unfold orphanCondition. rewrite Hmax2, (rltb_asym _ _ Hthr). simpl.
    destruct (isAddSuperpixelsMode videoMode); [| done]. simpl.
    by rewrite andb_false_r. }
  assert (Hr : r = (set_iterationIndex 1 s2, true)).
  { subst r. unfold iteration. fold s2. rewrite Horphan. simpl. by rewrite Hi2. }
  assert (Hcont : continueLoop iterationNumber errorThreshold ERROR_THRESHOLD r.1 && r.2
                  = true).
  { rewrite Hr. unfold continueLoop. simpl. by rewrite Hmax2, Hthr. }
  split; [by rewrite Hr |]. split; [by rewrite Hr |]. split; [by rewrite Hr |].
  assert (Hloop : forall fuel,
     doWhile (S fuel) blobMoments sched image samplingStep iterationNumber
       errorThreshold ERROR_THRESHOLD videoMode s0 false
     = doWhile fuel blobMoments sched image samplingStep iterationNumber
         errorThreshold ERROR_THRESHOLD videoMode r.1 true).
  { intros fuel. cbn [doWhile]. fold r. rewrite Hcont. by rewrite Hr. }
  split; [done |].
  unfold createSuperpixels. fold s0. cbv zeta. by rewrite Hloop.
Qed.

End FirstRound.

Lemma error_threshold_second_round_witness :
  createSuperpixels 1 noBlobs ascending gray12 4 10 5 (of_Z 1) ERROR_THRESHOLD
    INDEPENDENT 1 (fun _ => of_Z 0) false (@SLIC_new double _) = None.
Proof.
  assert (Hthr : (of_Z 1 <. (DBL_MAX : double)) = true) by (vm_compute; reflexivity).
  pose proof (error_threshold_second_round (SO := double_order) noBlobs ascending gray12
                4 10 5 (of_Z 1) INDEPENDENT 1 (fun _ => of_Z 0) false SLIC_new Hthr) as H.
  cbv zeta in H. destruct H as (_ & _ & _ & _ & Hnone). exact Hnone.
Defined.

(** ** The Distance Map and the schedule *)

Section Schedules.
Context {R : Type} {SR : Scalar R} {SO : ScalarOrder R}.



End Schedules.


(** ** A sampling step that does not fit the image *)

Section Oversized.
Context {R : Type} {SR : Scalar R}.



End Oversized.


(** * Drawing *)

Lemma elem_of_range (first last i : Z) : i ∈ range first last <-> first <= i < last.
Proof.
  unfold range. rewrite forLoop_below by lia. rewrite elem_of_seqZ. lia.
Qed.

Lemma wrapS32_small (z : Z) : - 2 ^ 31 <= z < 2 ^ 31 -> wrapS32 z = z.
Proof.
  intros Hz. unfold wrapS32.
  change (2 ^ 31) with 2147483648 in * . change (2 ^ 32) with 4294967296.
  rewrite Z.mod_small; lia.
Qed.

Lemma wrapS32_range (z : Z) : - 2 ^ 31 <= wrapS32 z < 2 ^ 31.
Proof.
  unfold wrapS32. change (2 ^ 31) with 2147483648. change (2 ^ 32) with 4294967296.
  pose proof (Z.mod_pos_bound (z + 2147483648) 4294967296). lia.
Qed.

Lemma elem_of_areaPixels (sched : list Z -> list Z) (area : Rect.t) (p : Point) :
  (forall y, y ∈ sched (areaRows area) <-> y ∈ areaRows area) ->
  p ∈ areaPixels sched area <-> inArea area p = true.
Proof.
  intros Hsched. unfold areaPixels, areaRow, inArea.
  rewrite !andb_true_iff, !Z.leb_le, !Z.ltb_lt.
  rewrite list_elem_of_In, in_flat_map. split.
  - intros (y & Hy & Hp). apply in_map_iff in Hp as (x & <- & Hx).
    rewrite <- list_elem_of_In in Hy, Hx. apply Hsched in Hy.
    unfold areaRows in Hy. rewrite elem_of_range in Hy, Hx. simpl. lia.
  - intros [[[Hx0 Hx1] Hy0] Hy1]. exists p.2. split.
    + rewrite <- list_elem_of_In. apply Hsched. unfold areaRows.
      rewrite elem_of_range. lia.
    + apply in_map_iff. exists p.1. split; [by destruct p |].
      rewrite <- list_elem_of_In, elem_of_range. lia.
Qed.

(** X14: whatever rectangle is passed, the area that [colorSuperpixels]
    and [drawClusterContours] work on lies inside the image: its origin is
    in the image or on its far edge, its sides are not negative and every
    pixel of it is a pixel of the image.  A rectangle that lies inside the
    image is kept as it is.  The tests are made field by field: an origin
    left of the image is moved to column 0 and the width is kept when it
    still fits, so the area is shifted, not reset to the entire image. *)
Theorem clampArea_inside (image : Mat) (area : Rect.t) :
  0 <= rows image < 2 ^ 31 -> 0 <= cols image < 2 ^ 31 ->
  - 2 ^ 31 <= Rect.x area < 2 ^ 31 -> - 2 ^ 31 <= Rect.y area < 2 ^ 31 ->
  - 2 ^ 31 <= Rect.width area < 2 ^ 31 -> - 2 ^ 31 <= Rect.height area < 2 ^ 31 ->
  let a := clampArea image area in
  (0 <= Rect.x a <= cols image /\ 0 <= Rect.y a <= rows image /\
   0 <= Rect.width a /\ 0 <= Rect.height a) /\
  (forall p, inArea a p = true -> inImage image p = true) /\
  (0 <= Rect.x area -> 0 <= Rect.y area -> 0 <= Rect.width area ->
   0 <= Rect.height area -> Rect.x area + Rect.width area <= cols image ->
   Rect.y area + Rect.height area <= rows image -> a = area) /\
  (Rect.x area < 0 -> 0 <= Rect.width area <= cols image ->
   Rect.x a = 0 /\ Rect.width a = Rect.width area).
Proof.
  intros Hrows Hcols Hx Hy Hw Hh. cbv zeta. unfold clampArea.
  set (x := if (Rect.x area <? 0) || (cols image <? Rect.x area) then 0 else Rect.x area).
  set (y := if (Rect.y area <? 0) || (rows image <? Rect.y area) then 0 else Rect.y area).
  assert (Hx' : 0 <= x <= cols image).
  { subst x. destruct (Z.ltb_spec (Rect.x area) 0); simpl; [lia |].
    destruct (Z.ltb_spec (cols image) (Rect.x area)); lia. }
  assert (Hy' : 0 <= y <= rows image).
  { subst y. destruct (Z.ltb_spec (Rect.y area) 0); simpl; [lia |].
    destruct (Z.ltb_spec (rows image) (Rect.y area)); lia. }
  set (width := if (Rect.width area <? 0) || (cols image <? wrapS32 (x + Rect.width area))
                then wrapS32 (cols image - x) else Rect.width area).
  set (height := if (Rect.height area <? 0) || (rows image <? wrapS32 (y + Rect.height area))
                 then wrapS32 (rows image - y) else Rect.height area).
  assert (Hw' : 0 <= width /\ wrapS32 (x + width) <= cols image).
  { subst width. destruct (Z.ltb_spec (Rect.width area) 0); simpl.
    - rewrite (wrapS32_small (cols image - x)) by lia.
      replace (x + (cols image - x)) with (cols image) by lia.
      rewrite wrapS32_small; lia.
    - destruct (Z.ltb_spec (cols image) (wrapS32 (x + Rect.width area))); [| lia].
      rewrite (wrapS32_small (cols image - x)) by lia.
      replace (x + (cols image - x)) with (cols image) by lia.
      rewrite wrapS32_small; lia. }
  assert (Hh' : 0 <= height /\ wrapS32 (y + height) <= rows image).
  { subst height. destruct (Z.ltb_spec (Rect.height area) 0); simpl.
    - rewrite (wrapS32_small (rows image - y)) by lia.
      replace (y + (rows image - y)) with (rows image) by lia.
      rewrite wrapS32_small; lia.
    - destruct (Z.ltb_spec (rows image) (wrapS32 (y + Rect.height area))); [| lia].
      rewrite (wrapS32_small (rows image - y)) by lia.
      replace (y + (rows image - y)) with (rows image) by lia.
      rewrite wrapS32_small; lia. }
  split; [simpl; lia |]. split; [| split].
  - intros p. unfold inArea, inImage. simpl.
    rewrite !andb_true_iff, !Z.leb_le, !Z.ltb_lt. lia.
  - intros Hx0 Hy0 Hw0 Hh0 Hfit Hfit'.
    assert (Hxe : x = Rect.x area).
    { subst x. destruct (Z.ltb_spec (Rect.x area) 0); simpl; [lia |].
      destruct (Z.ltb_spec (cols image) (Rect.x area)); lia. }
    assert (Hye : y = Rect.y area).
    { subst y. destruct (Z.ltb_spec (Rect.y area) 0); simpl; [lia |].
      destruct (Z.ltb_spec (rows image) (Rect.y area)); lia. }
    assert (Hwe : width = Rect.width area).
    { subst width. rewrite Hxe. rewrite (wrapS32_small (_ + _)) by lia.
      destruct (Z.ltb_spec (Rect.width area) 0); simpl; [lia |].
      destruct (Z.ltb_spec (cols image) (Rect.x area + Rect.width area)); lia. }
    assert (Hhe : height = Rect.height area).
    { subst height. rewrite Hye. rewrite (wrapS32_small (_ + _)) by lia.
      destruct (Z.ltb_spec (Rect.height area) 0); simpl; [lia |].
      destruct (Z.ltb_spec (rows image) (Rect.y area + Rect.height area)); lia. }
    rewrite Hxe, Hye, Hwe, Hhe. by destruct area.
  - intros Hneg Hfit. simpl.
    assert (Hxe : x = 0).
    { subst x. destruct (Z.ltb_spec (Rect.x area) 0); simpl; [done | lia]. }
    split; [done |]. subst width. rewrite Hxe. simpl.
    rewrite wrapS32_small by lia.
    destruct (Z.ltb_spec (Rect.width area) 0); simpl; [lia |].
    rewrite Z.add_0_l.
    destruct (Z.ltb_spec (cols image) (Rect.width area)); lia.
Qed.

Lemma at_set_at (image : Mat) (p q : Point) (v : Vec3b) :
  rows image * cols image <= Z.of_nat (length (pix image)) ->
  inImage image p = true -> inImage image q = true ->
  at_ (set_at image p.2 p.1 v) q.2 q.1
  = if decide (q = p) then v else at_ image q.2 q.1.
Proof.
  intros Hlen Hp Hq. unfold at_, set_at. simpl. rewrite vget_vset.
  destruct (pixelIndex_range image p Hp) as [Hlo Hhi].
  case_decide as Hc; case_decide as Hd; try done.
  - destruct Hc as [Hc _]. exfalso. apply Hd. symmetry. by apply (pixelIndex_inj image).
  - subst q. exfalso. apply Hc. split; [done |]. split; [done |].
    eapply Z.lt_le_trans; [exact Hhi | exact Hlen].
Qed.

(** A loop that paints, pixel by pixel, a colour that depends on the
    pixel only: what an image holds afterwards. *)
Lemma fold_paint {A} (Inv : A -> Prop) (img : A -> Mat) (P : Point -> Prop)
    (f : A -> Point -> A) (b : Point -> bool) (v : Point -> Vec3b)
    (l : list Point) (a : A) :
  (forall a p, P p -> Inv a ->
     Inv (f a p) /\
     forall q, P q ->
       at_ (img (f a p)) q.2 q.1
       = if decide (q = p /\ b p = true) then v p else at_ (img a) q.2 q.1) ->
  (forall p, p ∈ l -> P p) -> Inv a ->
  Inv (fold_left f l a) /\
  forall q, P q ->
    at_ (img (fold_left f l a)) q.2 q.1
    = if decide (q ∈ l /\ b q = true) then v q else at_ (img a) q.2 q.1.
Proof.
  intros Hstep. revert a. induction l as [|p l IH]; intros a Hl Ha; cbn [fold_left].
  { split; [done |]. intros q _. rewrite decide_False; [done |].
    by intros [?%not_elem_of_nil _]. }
  assert (Hp : P p) by (apply Hl, elem_of_cons; by left).
  destruct (Hstep a p Hp Ha) as [Ha' Hat].
  destruct (IH (f a p)) as [Hinv Hfold]; [| done |].
  { intros p' Hp'. apply Hl, elem_of_cons. by right. }
  split; [done |]. intros q Hq. rewrite Hfold, Hat by done.
  destruct (decide (q ∈ l /\ b q = true)) as [[Hin Hb] | Hno].
  - rewrite decide_True; [done |]. split; [apply elem_of_cons; by right | done].
  - destruct (decide (q = p /\ b p = true)) as [[-> Hb] | Hno'].
    + rewrite decide_True; [done |]. split; [apply elem_of_cons; by left | done].
    + rewrite decide_False; [done |].
      intros [[-> | Hin]%elem_of_cons Hb]; [by apply Hno' | by apply Hno].
Qed.

Section Colour.
Context {R : Type} {SR : Scalar R} (saturate_cast : R -> Z).

(** X15: [colorSuperpixels] paints exactly the pixels of the area it
    works on whose entry of the Assignment Map is the index of a centre
    (not negative, below [clustersNumber] as an [unsigned]), each with the
    (converted) colour of its centre; every other pixel of the image keeps
    its colour, the size of the image is unchanged, and the caller's
    rectangle is overwritten with the area.  The order of the rows does
    not matter. *)
Theorem colorSuperpixels_paints (sched : list Z -> list Z) (s : @SLIC R) (image : Mat)
    (areaToColor : Rect.t) (p : Point) :
  0 <= rows image < 2 ^ 31 -> 0 <= cols image < 2 ^ 31 ->
  rows image * cols image <= Z.of_nat (length (pix image)) ->
  rows image * cols image <= Z.of_nat (length (pixelCluster s)) ->
  - 2 ^ 31 <= Rect.x areaToColor < 2 ^ 31 -> - 2 ^ 31 <= Rect.y areaToColor < 2 ^ 31 ->
  - 2 ^ 31 <= Rect.width areaToColor < 2 ^ 31 ->
  - 2 ^ 31 <= Rect.height areaToColor < 2 ^ 31 ->
  (forall y, y ∈ sched (areaRows (clampArea image areaToColor))
             <-> y ∈ areaRows (clampArea image areaToColor)) ->
  inImage image p = true ->
  let r := colorSuperpixels saturate_cast sched s image areaToColor in
  let c := vget 0 (pixelCluster s) (p.2 * cols image + p.1) in
  r.2 = clampArea image areaToColor /\
  rows r.1 = rows image /\ cols r.1 = cols image /\
  at_ r.1 p.2 p.1
  = if inArea r.2 p && ((0 <=? c) && (wrapU32 c <? clustersNumber s))
    then (saturate_cast (vget (of_Z 0) (clusterCentres s) (5 * c)),
          saturate_cast (vget (of_Z 0) (clusterCentres s) (5 * c + 1)),
          saturate_cast (vget (of_Z 0) (clusterCentres s) (5 * c + 2)))
    else at_ image p.2 p.1.
Proof.
  intros Hrows Hcols Hpix _ Hx Hy Hw Hh Hsched Hp. cbv zeta.
  unfold colorSuperpixels. cbn [fst snd].
  set (area := clampArea image areaToColor) in * .
  destruct (clampArea_inside image areaToColor Hrows Hcols Hx Hy Hw Hh)
    as (_ & Hinside & _). cbv zeta in Hinside. fold area in Hinside.
  set (b := fun q : Point =>
    (0 <=? vget 0 (pixelCluster s) (q.2 * cols image + q.1))
    && (wrapU32 (vget 0 (pixelCluster s) (q.2 * cols image + q.1)) <? clustersNumber s)).
  set (v := fun q : Point =>
    (saturate_cast (vget (of_Z 0) (clusterCentres s)
                      (5 * vget 0 (pixelCluster s) (q.2 * cols image + q.1))),
     saturate_cast (vget (of_Z 0) (clusterCentres s)
                      (5 * vget 0 (pixelCluster s) (q.2 * cols image + q.1) + 1)),
     saturate_cast (vget (of_Z 0) (clusterCentres s)
                      (5 * vget 0 (pixelCluster s) (q.2 * cols image + q.1) + 2)))).
  destruct (fold_paint
    (fun a : Mat => rows a = rows image /\ cols a = cols image /\
                    length (pix a) = length (pix image))
    (fun a => a) (fun q => inImage image q = true)
    (colorPixel saturate_cast s) b v (areaPixels sched area) image)
    as [(Hr & Hc & _) Hat].
  - intros a q Hq (Har & Hac & Hal).
    assert (Hqa : inImage a q = true) by (unfold inImage; by rewrite Har, Hac).
    unfold colorPixel. rewrite Hac. fold (b q). fold (v q).
    destruct (b q) eqn:Hb.
    + split; [simpl; by rewrite length_vset |].
      intros q' Hq'.
      assert (Hq'a : inImage a q' = true) by (unfold inImage; by rewrite Har, Hac).
      rewrite at_set_at; [| rewrite Har, Hac, Hal; done | done | done].
      destruct (decide (q' = q)) as [-> | Hne].
      * by rewrite decide_True.
      * rewrite decide_False; [done | by intros [? _]].
    + split; [done |]. intros q' _. rewrite decide_False; [done | by intros [_ ?]].
  - intros q Hq. apply Hinside. by apply (elem_of_areaPixels sched area q Hsched).
  - done.
  - split; [done |]. split; [done |]. split; [done |].
    rewrite (Hat p Hp). fold (b p). fold (v p).
    destruct (inArea area p) eqn:Harea; simpl.
    + destruct (b p) eqn:Hb.
      * rewrite decide_True; [done |].
        split; [by apply (elem_of_areaPixels sched area p Hsched) | done].
      * rewrite decide_False; [done | by intros [_ ?]].
    + rewrite decide_False; [done |].
      intros [Hin _]. apply (elem_of_areaPixels sched area p Hsched) in Hin. congruence.
Qed.

End Colour.

Lemma clampArea_inside_witness :
  let area := Rect.mk (-3) 2 5 20 in
  let a := clampArea gray12 area in
  (0 <= Rect.x a <= cols gray12 /\ 0 <= Rect.y a <= rows gray12 /\
   0 <= Rect.width a /\ 0 <= Rect.height a) /\
  (forall p, inArea a p = true -> inImage gray12 p = true) /\
  (0 <= Rect.x area -> 0 <= Rect.y area -> 0 <= Rect.width area ->
   0 <= Rect.height area -> Rect.x area + Rect.width area <= cols gray12 ->
   Rect.y area + Rect.height area <= rows gray12 -> a = area) /\
  (Rect.x area < 0 -> 0 <= Rect.width area <= cols gray12 ->
   Rect.x a = 0 /\ Rect.width a = Rect.width area).
Proof.
  apply (clampArea_inside gray12 (Rect.mk (-3) 2 5 20));
    (split; [vm_compute; discriminate | vm_compute; reflexivity]).
Defined.

Lemma colorSuperpixels_paints_witness :
  let r := colorSuperpixels (fun a : double => trunc a) ascending afterFirstFrame gray12
             (Rect.mk (-3) 2 5 20) in
  let c := vget 0 (pixelCluster afterFirstFrame) (3 * cols gray12 + 1) in
  r.2 = clampArea gray12 (Rect.mk (-3) 2 5 20) /\
  rows r.1 = rows gray12 /\ cols r.1 = cols gray12 /\
  at_ r.1 3 1
  = if inArea r.2 (1, 3) && ((0 <=? c) && (wrapU32 c <? clustersNumber afterFirstFrame))
    then (trunc (vget (of_Z 0) (clusterCentres afterFirstFrame) (5 * c)),
          trunc (vget (of_Z 0) (clusterCentres afterFirstFrame) (5 * c + 1)),
          trunc (vget (of_Z 0) (clusterCentres afterFirstFrame) (5 * c + 2)))
    else at_ gray12 3 1.
Proof.
  apply (colorSuperpixels_paints (fun a : double => trunc a) ascending afterFirstFrame
           gray12 (Rect.mk (-3) 2 5 20) (1, 3)).
  - split; [vm_compute; discriminate | vm_compute; reflexivity].
  - split; [vm_compute; discriminate | vm_compute; reflexivity].
  - vm_compute. discriminate.
  - vm_compute. discriminate.
  - split; [vm_compute; discriminate | vm_compute; reflexivity].
  - split; [vm_compute; discriminate | vm_compute; reflexivity].
  - split; [vm_compute; discriminate | vm_compute; reflexivity].
  - split; [vm_compute; discriminate | vm_compute; reflexivity].
  - intros y. reflexivity.
  - vm_compute. reflexivity.
Defined.

Section Contours.
Context {R : Type} {SR : Scalar R}.

Lemma markContour_paints (s : @SLIC R) (image : Mat) (contourColor : Vec3b)
    (p : Point) (st : list bool * Mat) (q' : Point) :
  rows image * cols image <= Z.of_nat (length (pix image)) ->
  inImage image p = true -> contourState image contourColor st ->
  contourState image contourColor (markContour s contourColor p st q') /\
  forall q, inImage image q = true ->
    at_ (markContour s contourColor p st q').2 q.2 q.1
    = if decide (q = p /\ otherCluster image (pixelCluster s) p q' = true)
      then contourColor else at_ st.2 q.2 q.1.
Proof.
  intros Hpix Hp (Hr & Hc & Hl & Hflag).
  assert (Hin : forall q, inImage st.2 q = inImage image q).
  { intros q. unfold inImage. by rewrite Hr, Hc. }
  unfold markContour, otherCluster. rewrite Hin, Hc.
  destruct (inImage image q') eqn:Hq'; simpl;
    [| split; [done |]; intros q _; rewrite decide_False; [done | by intros [_ ?]]].
  destruct (_ && negb (_ =? _)) eqn:Hother; simpl;
    [| split; [done |]; intros q _; rewrite decide_False; [done | by intros [_ ?]]].
  destruct (vget false st.1 (p.2 * cols image + p.1)) eqn:Hdone; simpl.
  - split; [done |]. intros q Hq. case_decide as Hd; [| done].
    destruct Hd as [-> _]. by apply Hflag.
  - assert (Hat : forall q, inImage image q = true ->
              at_ (set_at st.2 p.2 p.1 contourColor) q.2 q.1
              = if decide (q = p) then contourColor else at_ st.2 q.2 q.1).
    { intros q Hq. apply at_set_at; [by rewrite Hr, Hc, Hl | by rewrite Hin ..]. }
    split.
    + split; [done |]. split; [done |]. split; [simpl; by rewrite length_vset |].
      intros q Hq. cbn [fst snd]. rewrite Hat by done. rewrite vget_vset.
      intros Hset. destruct (decide (q = p)) as [| Hne]; [done |].
      apply Hflag; [done |]. revert Hset. case_decide as Hi; [| done].
      destruct Hi as [Hi _]. exfalso. apply Hne. symmetry. by apply (pixelIndex_inj image).
    + intros q Hq. cbn [fst snd]. rewrite Hat by done.
      destruct (decide (q = p)) as [-> | Hne].
      * by rewrite decide_True.
      * rewrite decide_False; [done | by intros [? _]].
Qed.

Lemma fold_markContour (s : @SLIC R) (image : Mat) (contourColor : Vec3b)
    (p : Point) (l : list Point) (st : list bool * Mat) :
  rows image * cols image <= Z.of_nat (length (pix image)) ->
  inImage image p = true -> contourState image contourColor st ->
  let st' := fold_left (markContour s contourColor p) l st in
  contourState image contourColor st' /\
  forall q, inImage image q = true ->
    at_ st'.2 q.2 q.1
    = if decide (q = p /\ existsb (otherCluster image (pixelCluster s) p) l = true)
      then contourColor else at_ st.2 q.2 q.1.
Proof.
  intros Hpix Hp. revert st. induction l as [|q' l IH]; intros st Hst; cbn [fold_left].
  { split; [done |]. intros q _. rewrite decide_False; [done | by intros [_ ?]]. }
  destruct (markContour_paints s image contourColor p st q' Hpix Hp Hst) as [Hst1 Hat1].
  destruct (IH _ Hst1) as [Hst' Hat']. cbv zeta in Hst', Hat'.
  split; [done |]. intros q Hq. rewrite Hat', Hat1 by done. cbn [existsb].
  destruct (otherCluster image (pixelCluster s) p q') eqn:Hq'; simpl.
  - destruct (decide (q = p)) as [-> | Hne].
    + rewrite (decide_True (P := p = p /\ true = true)) by done. by destruct (decide _).
    + rewrite !decide_False by (by intros [? _]). done.
  - rewrite (decide_False (P := q = p /\ false = true)) by (by intros [_ ?]). done.
Qed.

(** X16: [drawClusterContours] paints with [contourColor] exactly the
    pixels of the area it works on that are assigned and have, among the
    pixels of the image in their 3x3 block, one assigned to another
    centre; every other pixel of the image keeps its colour.  So an
    unassigned pixel is never drawn and never makes a neighbour a contour.
    The order of the rows does not matter, and the caller's rectangle is
    overwritten with the area. *)
Theorem drawClusterContours_paints (sched : list Z -> list Z) (s : @SLIC R) (image : Mat)
    (contourColor : Vec3b) (areaToDraw : Rect.t) (p : Point) :
  0 <= rows image < 2 ^ 31 -> 0 <= cols image < 2 ^ 31 ->
  rows image * cols image <= Z.of_nat (length (pix image)) ->
  rows image * cols image <= Z.of_nat (length (pixelCluster s)) ->
  rows image * cols image <= pixelsNumber s ->
  - 2 ^ 31 <= Rect.x areaToDraw < 2 ^ 31 -> - 2 ^ 31 <= Rect.y areaToDraw < 2 ^ 31 ->
  - 2 ^ 31 <= Rect.width areaToDraw < 2 ^ 31 ->
  - 2 ^ 31 <= Rect.height areaToDraw < 2 ^ 31 ->
  (forall y, y ∈ sched (areaRows (clampArea image areaToDraw))
             <-> y ∈ areaRows (clampArea image areaToDraw)) ->
  inImage image p = true ->
  let r := drawClusterContours sched s image contourColor areaToDraw in
  r.2 = clampArea image areaToDraw /\
  rows r.1 = rows image /\ cols r.1 = cols image /\
  at_ r.1 p.2 p.1
  = if inArea r.2 p && onContour image (pixelCluster s) p
    then contourColor else at_ image p.2 p.1.
Proof.
  intros Hrows Hcols Hpix _ _ Hx Hy Hw Hh Hsched Hp. cbv zeta.
  unfold drawClusterContours. cbn [fst snd].
  set (area := clampArea image areaToDraw) in * .
  destruct (clampArea_inside image areaToDraw Hrows Hcols Hx Hy Hw Hh)
    as (_ & Hinside & _). cbv zeta in Hinside. fold area in Hinside.
  destruct (fold_paint (contourState image contourColor) snd
    (fun q => inImage image q = true)
    (contourPixel s contourColor) (onContour image (pixelCluster s))
    (fun _ => contourColor) (areaPixels sched area)
    (assign (pixelsNumber s) false, image)) as [(Hr & Hc & _) Hat].
  - intros st q Hq Hst. unfold contourPixel, onContour.
    rewrite (proj1 (proj2 Hst)).
    destruct (0 <=? _).
    + rewrite andb_true_l.
      exact (fold_markContour s image contourColor q (block q) st Hpix Hq Hst).
    + split; [done |]. intros q' _. rewrite decide_False; [done | by intros [_ ?]].
  - intros q Hq. apply Hinside. by apply (elem_of_areaPixels sched area q Hsched).
  - split; [done |]. split; [done |]. split; [done |].
    intros q Hq. simpl. unfold vget, assign.
    destruct (_ <? 0); [done |].
    destruct (nth_in_or_default (Z.to_nat (q.2 * cols image + q.1))
                (replicate (Z.to_nat (pixelsNumber s)) false) false) as [Hin | ->];
      [| done].
    apply list_elem_of_In, elem_of_replicate in Hin as [-> _]. done.
  - split; [done |]. split; [done |]. split; [done |].
    rewrite (Hat p Hp). cbn [snd].
    destruct (inArea area p) eqn:Harea; simpl.
    + destruct (onContour image (pixelCluster s) p) eqn:Hb.
      * rewrite decide_True; [done |].
        split; [by apply (elem_of_areaPixels sched area p Hsched) | done].
      * rewrite decide_False; [done | by intros [_ ?]].
    + rewrite decide_False; [done |].
      intros [Hin _]. apply (elem_of_areaPixels sched area p Hsched) in Hin. congruence.
Qed.

End Contours.

Lemma drawClusterContours_paints_witness :
  let r := drawClusterContours ascending afterFirstFrame gray12 (0, 0, 255)
             (Rect.mk (-3) 2 9 20) in
  r.2 = clampArea gray12 (Rect.mk (-3) 2 9 20) /\
  rows r.1 = rows gray12 /\ cols r.1 = cols gray12 /\
  at_ r.1 3 5
  = if inArea r.2 (5, 3) && onContour gray12 (pixelCluster afterFirstFrame) (5, 3)
    then (0, 0, 255) else at_ gray12 3 5.
Proof.
  apply (drawClusterContours_paints ascending afterFirstFrame gray12 (0, 0, 255)
           (Rect.mk (-3) 2 9 20) (5, 3)).
  - split; [vm_compute; discriminate | vm_compute; reflexivity].
  - split; [vm_compute; discriminate | vm_compute; reflexivity].
  - vm_compute. discriminate.
  - vm_compute. discriminate.
  - vm_compute. discriminate.
  - split; [vm_compute; discriminate | vm_compute; reflexivity].
  - split; [vm_compute; discriminate | vm_compute; reflexivity].
  - split; [vm_compute; discriminate | vm_compute; reflexivity].
  - split; [vm_compute; discriminate | vm_compute; reflexivity].
  - intros y. reflexivity.
  - vm_compute. reflexivity.
Defined.

(** ** The sizes of the vectors *)

Section Shape.
Context {R : Type} {SR : Scalar R}.

Lemma shapeOkb_true (s : @SLIC R) : shapeOkb s = true -> shapeOk s.
Proof.
  unfold shapeOkb, shapeOk. rewrite !andb_true_iff, !Z.eqb_eq. tauto.
Qed.

Lemma fold_seedCentre_shape (image : Mat) (l : list Point) (s : @SLIC R) :
  let s' := fold_left (seedCentre image) l s in
  length (clusterCentres s') = (length (clusterCentres s) + 5 * length l)%nat /\
  length (previousClusterCentres s')
  = (length (previousClusterCentres s) + 5 * length l)%nat /\
  length (pixelsOfSameCluster s') = (length (pixelsOfSameCluster s) + length l)%nat /\
  length (residualError s') = (length (residualError s) + length l)%nat /\
  pixelCluster s' = pixelCluster s /\
  distanceFromClusterCentre s' = distanceFromClusterCentre s /\
  pixelsNumber s' = pixelsNumber s.
Proof.
  revert s. induction l as [|p l IH]; intros s; cbn [fold_left]; cbv zeta.
  { simpl. repeat split; lia. }
  destruct (IH (seedCentre image s p)) as (-> & -> & -> & -> & -> & -> & ->).
  unfold seedCentre, push_back. simpl. rewrite !length_app. simpl.
  repeat split; lia.
Qed.

Lemma fullReseed_shape (image : Mat) (samplingStep spatialDistanceWeight : Z)
    (errorThreshold : R) (s : @SLIC R) :
  0 <= rows image -> 0 <= cols image ->
  shapeOk (fullReseed image samplingStep spatialDistanceWeight errorThreshold s) /\
  pixelsNumber (fullReseed image samplingStep spatialDistanceWeight errorThreshold s)
  = rows image * cols image.
Proof.
  intros Hr Hc. unfold fullReseed. cbv zeta.
  match goal with
  | |- context [fold_left (seedCentre image) ?l ?s2] =>
      destruct (fold_seedCentre_shape image l s2) as (Hcc & Hprev & Hcnt & Hres & Hpc & Hd & Hn);
      set (s3 := fold_left (seedCentre image) l s2) in *
  end.
  cbv zeta in Hcc, Hprev, Hcnt, Hres, Hpc, Hd, Hn. simpl in Hcc, Hprev, Hcnt, Hres, Hpc, Hd, Hn.
  unfold shapeOk. simpl. rewrite Hcc, Hprev, Hcnt, Hres, Hpc, Hd, Hn.
  unfold assign. rewrite !length_replicate.
  assert (0 <= rows image * cols image) by nia.
  repeat split; lia.
Qed.

Lemma initializeSLICData_shape (image : Mat) (samplingStep spatialDistanceWeight : Z)
    (errorThreshold : R) (videoMode : VideoElaborationMode) (keyFramesRatio : Z)
    (randomGen : nat -> R) (connectedFrames : bool) (s : @SLIC R) :
  0 <= rows image -> 0 <= cols image -> shapeOk s ->
  shapeOk (initializeSLICData image samplingStep spatialDistanceWeight errorThreshold
             videoMode keyFramesRatio randomGen connectedFrames s).
Proof.
  intros Hr Hc Hs. unfold initializeSLICData.
  set (s1 := if mustReseed _ _ _ _ then _ else _).
  assert (H1 : shapeOk s1).
  { subst s1. destruct (mustReseed _ _ _ _).
    - by apply fullReseed_shape.
    - destruct (isNoiseMode videoMode); [| done].
      unfold addNoise, shapeOk. simpl. rewrite length_jitter. exact Hs. }
  by destruct (isAddSuperpixelsMode videoMode).
Qed.

Lemma visit_shape (image : Mat) (videoMode : VideoElaborationMode) (c : Z)
    (s : @SLIC R) (p : Point) :
  shapeOk s -> shapeOk (visit image videoMode c s p).
Proof.
  intros Hs. unfold visit.
  destruct (inImage image p); [| done].
  destruct (isAddSuperpixelsMode videoMode); simpl;
    match goal with |- context [if ?b then _ else _] => destruct b end;
    try done; unfold shapeOk; simpl; rewrite !length_vset; exact Hs.
Qed.

Lemma assignmentStep_shape (image : Mat) (samplingStep : Z)
    (videoMode : VideoElaborationMode) (order : list Z) (s : @SLIC R) :
  shapeOk s -> shapeOk (assignmentStep image samplingStep videoMode order s).
Proof.
  intros Hs. unfold assignmentStep.
  apply (fold_left_invariant shapeOk (scanCentre image samplingStep videoMode)).
  - intros a c _ Ha. unfold scanCentre.
    apply (fold_left_invariant shapeOk (visit image videoMode c)); [| done].
    intros a' p _ Ha'. by apply visit_shape.
  - destruct Hs as (Hpc & Hd & Hrest). unfold shapeOk. simpl.
    split; [done |]. split; [| done].
    unfold assign. rewrite length_replicate. lia.
Qed.

Lemma length_accumulate (image : Mat) (pixelCluster : list Z) (l : list Point)
    (acc : list R * list Z) :
  length (fold_left (accumulate image pixelCluster) l acc).1 = length acc.1 /\
  length (fold_left (accumulate image pixelCluster) l acc).2 = length acc.2.
Proof.
  apply (fold_left_invariant (fun a => length a.1 = length acc.1 /\
                                       length a.2 = length acc.2)); [| done].
  intros a p _ [H1 H2]. unfold accumulate.
  destruct (_ =? -1); [done |]. simpl. by rewrite !length_vset.
Qed.

Lemma length_normalize (counts : list Z) (l : list Z) (cc : list R) :
  length (fold_left (normalizeCentre counts) l cc) = length cc.
Proof.
  apply (fold_left_invariant (fun a => length a = length cc)); [| done].
  intros a c _ Ha. unfold normalizeCentre.
  destruct (negb _); [| done]. by rewrite !length_vset.
Qed.

Lemma residualOf_shape (s : @SLIC R) (c : Z) : shapeOk s -> shapeOk (residualOf s c).
Proof.
  intros Hs. unfold residualOf, shapeOk. simpl. rewrite !length_vset. exact Hs.
Qed.

Lemma updateStep_shape (image : Mat) (s : @SLIC R) :
  shapeOk s -> shapeOk (updateStep image s).
Proof.
  intros (Hpc & Hd & Hcc & Hprev & Hcnt & Hres).
  assert (HK : 0 <= clustersNumber s) by lia.
  assert (H1 : shapeOk (recomputeCentres image s)).
  { unfold recomputeCentres, normalizeCentres, accumulateCentres, shapeOk. simpl.
    rewrite length_normalize.
    match goal with
    | |- context [fold_left (accumulate image ?pc) ?l ?acc] =>
        destruct (length_accumulate image pc l acc) as [-> ->]
    end.
    simpl. unfold assign. rewrite !length_replicate.
    repeat split; lia. }
  unfold updateStep, updateError.
  set (s1 := recomputeCentres image s) in * . clearbody s1.
  destruct (iterationIndex s1 =? 0).
  - destruct H1 as (? & ? & ? & Hp1 & ? & ?). unfold shapeOk. simpl.
    repeat split; try done.
    rewrite <- Hp1. f_equal.
    apply (fold_left_invariant (fun a => length a = length (previousClusterCentres s1)));
      [| done].
    intros a n _ Ha. by rewrite length_vset.
  - cbv zeta.
    assert (H2 : shapeOk (fold_left residualOf (upTo (clustersNumber s1)) s1)).
    { apply (fold_left_invariant shapeOk residualOf); [| done].
      intros a c _ Ha. by apply residualOf_shape. }
    exact H2.
Qed.

Lemma spawnCentre_shape (s : @SLIC R) (mu : @Moments R) :
  shapeOk s -> shapeOk (spawnCentre s mu).
Proof.
  intros Hs. unfold spawnCentre. destruct (m00 mu ==. of_Z 0); [done |].
  unfold shapeOk, push_back in * . simpl. rewrite !length_app. simpl.
  repeat split; lia.
Qed.

Lemma orphanRecovery_shape (blobMoments : Z -> Z -> list Z -> list (@Moments R))
    (image : Mat) (s : @SLIC R) :
  shapeOk s -> shapeOk (orphanRecovery blobMoments image s).
Proof.
  intros Hs. unfold orphanRecovery.
  apply (fold_left_invariant shapeOk spawnCentre); [| done].
  intros a mu _ Ha. by apply spawnCentre_shape.
Qed.

Lemma roundTail_shape (blobMoments : Z -> Z -> list Z -> list (@Moments R))
    (image : Mat) (iterationNumber : Z) (errorThreshold : R)
    (SLICMode : SLICElaborationMode) (videoMode : VideoElaborationMode)
    (s2 : @SLIC R) (go : bool) :
  shapeOk s2 ->
  shapeOk (roundTail blobMoments image iterationNumber errorThreshold SLICMode videoMode
             s2 go).1.
Proof.
  intros H2. unfold roundTail. cbv zeta.
  destruct (orphanCondition _ _ _ _ s2); cbn [fst snd].
  - exact (orphanRecovery_shape blobMoments image s2 H2).
  - exact H2.
Qed.

Lemma doWhile_shape (fuel : nat) (blobMoments : Z -> Z -> list Z -> list (@Moments R))
    (sched : list Z -> list Z) (image : Mat) (samplingStep iterationNumber : Z)
    (errorThreshold : R) (SLICMode : SLICElaborationMode)
    (videoMode : VideoElaborationMode) (s s' : @SLIC R) (go : bool) :
  shapeOk s ->
  doWhile fuel blobMoments sched image samplingStep iterationNumber errorThreshold
    SLICMode videoMode s go = Some s' ->
  shapeOk s'.
Proof.
  revert s go. induction fuel as [|fuel IH]; intros s go Hs; cbn [doWhile]; [done |].
  cbv zeta.
  assert (Hr : shapeOk (iteration blobMoments sched image samplingStep iterationNumber
                          errorThreshold SLICMode videoMode s go).1).
  { rewrite iteration_tail.
    by apply roundTail_shape, updateStep_shape, assignmentStep_shape. }
  destruct (continueLoop _ _ _ _ && _).
  - by apply IH.
  - by intros [= <-].
Qed.

(** X17: the sizes of the vectors follow the two counts through
    [createSuperpixels]: if the object passed has one entry per pixel in
    the Assignment and Distance Maps, five values per centre in both
    centre vectors and one entry per centre in the count and residual
    vectors, so has the object returned, whatever the modes, also after
    orphan recovery has appended centres. *)
Theorem createSuperpixels_shape (fuel : nat)
    (blobMoments : Z -> Z -> list Z -> list (@Moments R)) (sched : list Z -> list Z)
    (image : Mat) (samplingStep spatialDistanceWeight iterationNumber : Z)
    (errorThreshold : R) (SLICMode : SLICElaborationMode)
    (videoMode : VideoElaborationMode) (keyFramesRatio : Z)
    (randomGen : nat -> R) (connectedFrames : bool) (s s' : @SLIC R) :
  0 <= rows image -> 0 <= cols image -> shapeOk s ->
  createSuperpixels fuel blobMoments sched image samplingStep spatialDistanceWeight
    iterationNumber errorThreshold SLICMode videoMode keyFramesRatio randomGen
    connectedFrames s = Some s' ->
  shapeOk s'.
Proof.
  intros Hr Hc Hs. unfold createSuperpixels. cbv zeta.
  destruct (doWhile _ _ _ _ _ _ _ _ _ _ _) as [s1|] eqn:Hloop; simpl; [| done].
  intros [= <-].
  pose proof (initializeSLICData_shape image samplingStep spatialDistanceWeight
                errorThreshold videoMode keyFramesRatio randomGen connectedFrames s
                Hr Hc Hs) as H0.
  apply doWhile_shape in Hloop; [exact Hloop | exact H0].
Qed.

Lemma visit_geometry (image : Mat) (videoMode : VideoElaborationMode) (c : Z)
    (s : @SLIC R) (p : Point) :
  geometry (visit image videoMode c s p) = geometry s.
Proof.
  unfold visit. destruct (inImage image p); [| done].
  destruct (isAddSuperpixelsMode videoMode); simpl;
    match goal with |- context [if ?b then _ else _] => by destruct b end.
Qed.

Lemma assignmentStep_geometry (image : Mat) (samplingStep : Z)
    (videoMode : VideoElaborationMode) (order : list Z) (s : @SLIC R) :
  geometry (assignmentStep image samplingStep videoMode order s) = geometry s.
Proof.
  unfold assignmentStep.
  rewrite (fold_left_preserves geometry (scanCentre image samplingStep videoMode));
    [done |].
  intros a c. unfold scanCentre.
  apply (fold_left_preserves geometry (visit image videoMode c)).
  intros a' p. apply visit_geometry.
Qed.

Lemma updateStep_geometry (image : Mat) (s : @SLIC R) :
  geometry (updateStep image s) = geometry s.
Proof.
  unfold updateStep, updateError. cbv zeta.
  set (s1 := recomputeCentres image s).
  change (geometry s) with (geometry s1). clearbody s1.
  destruct (iterationIndex s1 =? 0); [done |].
  change (geometry (set_totalResidualError ?t ?a)) with (geometry a).
  by apply (fold_left_preserves geometry residualOf).
Qed.

Lemma orphanRecovery_geometry (blobMoments : Z -> Z -> list Z -> list (@Moments R))
    (image : Mat) (s : @SLIC R) :
  geometry (orphanRecovery blobMoments image s) = geometry s.
Proof.
  unfold orphanRecovery. apply (fold_left_preserves geometry spawnCentre).
  intros a mu. unfold spawnCentre. by destruct (m00 mu ==. of_Z 0).
Qed.

Lemma doWhile_geometry (fuel : nat) (blobMoments : Z -> Z -> list Z -> list (@Moments R))
    (sched : list Z -> list Z) (image : Mat) (samplingStep iterationNumber : Z)
    (errorThreshold : R) (SLICMode : SLICElaborationMode)
    (videoMode : VideoElaborationMode) (s s' : @SLIC R) (go : bool) :
  doWhile fuel blobMoments sched image samplingStep iterationNumber errorThreshold
    SLICMode videoMode s go = Some s' ->
  geometry s' = geometry s.
Proof.
  revert s go. induction fuel as [|fuel IH]; intros s go; cbn [doWhile]; [done |].
  cbv zeta.
  assert (Hr : geometry (iteration blobMoments sched image samplingStep iterationNumber
                           errorThreshold SLICMode videoMode s go).1 = geometry s).
  { rewrite iteration_tail. unfold roundTail. cbv zeta.
    set (s2 := updateStep image _).
    assert (H2 : geometry s2 = geometry s).
    { subst s2. by rewrite updateStep_geometry, assignmentStep_geometry. }
    clearbody s2.
    destruct (orphanCondition _ _ _ _ s2); cbn [fst snd].
    - change (geometry (set_iterationIndex ?v ?a)) with (geometry a).
      by rewrite orphanRecovery_geometry.
    - exact H2. }
  destruct (continueLoop _ _ _ _ && _).
  - intros Hrun%IH. by rewrite Hrun.
  - by intros [= <-].
Qed.

(** X18: the parameters are latched by the frame that seeds.  After a
    frame seeded from scratch the object holds the pixel count of the
    image, the sampling step, the spatial weight and the error threshold
    of the call, and the distance factor computed from them; after a frame
    that reuses the centres all five are those of the object passed: the
    sampling step, spatial weight and threshold of that call are not
    stored, and the distance factor and the pixel count stay as they
    were. *)
Theorem createSuperpixels_geometry (fuel : nat)
    (blobMoments : Z -> Z -> list Z -> list (@Moments R)) (sched : list Z -> list Z)
    (image : Mat) (samplingStep spatialDistanceWeight iterationNumber : Z)
    (errorThreshold : R) (SLICMode : SLICElaborationMode)
    (videoMode : VideoElaborationMode) (keyFramesRatio : Z)
    (randomGen : nat -> R) (connectedFrames : bool) (s s' : @SLIC R) :
  createSuperpixels fuel blobMoments sched image samplingStep spatialDistanceWeight
    iterationNumber errorThreshold SLICMode videoMode keyFramesRatio randomGen
    connectedFrames s = Some s' ->
  geometry s'
  = if mustReseed videoMode keyFramesRatio connectedFrames s
    then (rows image * cols image, samplingStep, spatialDistanceWeight,
          of_Z 1 *. of_Z spatialDistanceWeight *. of_Z spatialDistanceWeight
          /. of_Z (wrapU32 (samplingStep * samplingStep)),
          errorThreshold)
    else geometry s.
Proof.
  unfold createSuperpixels. cbv zeta.
  destruct (doWhile _ _ _ _ _ _ _ _ _ _ _) as [s1|] eqn:Hloop; simpl; [| done].
  intros [= <-].
  change (geometry (set_framesNumber ?v ?a)) with (geometry a).
  rewrite (doWhile_geometry _ _ _ _ _ _ _ _ _ _ _ _ Hloop).
  change (geometry (set_iterationIndex ?v ?a)) with (geometry a).
  unfold initializeSLICData.
  set (s1' := if mustReseed _ _ _ _ then _ else _).
  assert (H1 : geometry s1'
    = if mustReseed videoMode keyFramesRatio connectedFrames s
      then (rows image * cols image, samplingStep, spatialDistanceWeight,
            of_Z 1 *. of_Z spatialDistanceWeight *. of_Z spatialDistanceWeight
            /. of_Z (wrapU32 (samplingStep * samplingStep)),
            errorThreshold)
      else geometry s).
  { subst s1'. destruct (mustReseed _ _ _ _).
    - unfold fullReseed. cbv zeta.
      change (geometry (set_clustersNumber ?v ?a)) with (geometry a).
      by rewrite (fold_left_preserves geometry (seedCentre image)).
    - by destruct (isNoiseMode videoMode). }
  rewrite <- H1. by destruct (isAddSuperpixelsMode videoMode).
Qed.

Lemma resetCentres_shape (s : @SLIC R) : shapeOk s -> shapeOk (resetCentres s).
Proof.
  intros Hs. unfold resetCentres.
  apply (fold_left_invariant shapeOk); [| done].
  intros a c _ Ha. unfold shapeOk. simpl. rewrite !length_vset. exact Ha.
Qed.

(** X19: [enforceConnectivity] keeps the sizes of the vectors: the object
    it returns has one entry per pixel and five values (one entry) per
    centre, as the object passed. *)
Theorem enforceConnectivity_shape (fuel : nat) (image : Mat) (s s' : @SLIC R) :
  shapeOk s -> enforceConnectivity fuel image s = Some s' -> shapeOk s'.
Proof.
  intros Hs. unfold enforceConnectivity.
  destruct (clustersNumber s =? 0); [done |].
  destruct (relabelPass fuel image s) as [new|]; simpl; [| done].
  intros [= <-].
  set (s1 := set_pixelCluster _ s).
  assert (H1 : shapeOk s1).
  { destruct Hs as (Hpc & Hrest). unfold shapeOk. simpl. split; [| done].
    rewrite <- Hpc. f_equal.
    apply (fold_left_invariant (fun a => length a = length (pixelCluster s))); [| done].
    intros a n _ Ha. by rewrite length_vset. }
  apply resetCentres_shape in H1. set (s2 := resetCentres s1) in * . clearbody s2.
  destruct H1 as (Hpc & Hd & Hcc & Hprev & Hcnt & Hres).
  unfold normalizeCentres, accumulateCentres, shapeOk. simpl.
  rewrite length_normalize.
  match goal with
  | |- context [fold_left (accumulate image ?pc) ?l ?acc] =>
      destruct (length_accumulate image pc l acc) as [-> ->]
  end.
  simpl. repeat split; lia.
Qed.

End Shape.


Lemma createSuperpixels_shape_witness :
  createSuperpixels 8 oneBlob ascending gray12 1 10 2 (of_Z 0)
    FIXED_ITERATIONS ADD_SUPERPIXELS 1 draws true afterFirstFrame
  = Some afterSecondFrame /\
  shapeOk afterSecondFrame.
Proof.
  assert (Hrun : createSuperpixels 8 oneBlob ascending gray12 1 10 2 (of_Z 0)
                   FIXED_ITERATIONS ADD_SUPERPIXELS 1 draws true afterFirstFrame
                 = Some afterSecondFrame) by (vm_compute; reflexivity).
  assert (Hr : 0 <= rows gray12) by (vm_compute; discriminate).
  assert (Hc : 0 <= cols gray12) by (vm_compute; discriminate).
  assert (Hs : shapeOk afterFirstFrame) by (apply shapeOkb_true; vm_compute; reflexivity).
  split; [exact Hrun |].
  exact (createSuperpixels_shape 8 oneBlob ascending gray12 1 10 2 (of_Z 0)
           FIXED_ITERATIONS ADD_SUPERPIXELS 1 draws true afterFirstFrame
           afterSecondFrame Hr Hc Hs Hrun).
Defined.

Lemma createSuperpixels_geometry_witness :
  createSuperpixels 8 oneBlob ascending gray12 1 10 2 (of_Z 0)
    FIXED_ITERATIONS ADD_SUPERPIXELS 1 draws true afterFirstFrame
  = Some afterSecondFrame /\
  geometry afterSecondFrame
  = if mustReseed ADD_SUPERPIXELS 1 true afterFirstFrame
    then (rows gray12 * cols gray12, 1, 10,
          of_Z 1 *. of_Z 10 *. of_Z 10 /. of_Z (wrapU32 (1 * 1)), of_Z 0)
    else geometry afterFirstFrame.
Proof.
  assert (Hrun : createSuperpixels 8 oneBlob ascending gray12 1 10 2 (of_Z 0)
                   FIXED_ITERATIONS ADD_SUPERPIXELS 1 draws true afterFirstFrame
                 = Some afterSecondFrame) by (vm_compute; reflexivity).
  split; [exact Hrun |].
  exact (createSuperpixels_geometry 8 oneBlob ascending gray12 1 10 2 (of_Z 0)
           FIXED_ITERATIONS ADD_SUPERPIXELS 1 draws true afterFirstFrame
           afterSecondFrame Hrun).
Defined.

Lemma enforceConnectivity_shape_witness :
  shapeOk (default SLIC_new (enforceConnectivity 145 gray12 afterFirstFrame)).
Proof.
  assert (Hrun : enforceConnectivity 145 gray12 afterFirstFrame
                 = Some (default SLIC_new (enforceConnectivity 145 gray12 afterFirstFrame)))
    by (vm_compute; reflexivity).
  assert (Hs : shapeOk afterFirstFrame) by (apply shapeOkb_true; vm_compute; reflexivity).
  exact (enforceConnectivity_shape 145 gray12 afterFirstFrame _ Hs Hrun).
Defined.
